(** * CashoutStudio ECU framework: protocol engine and coordinator

    A shallow embedding of the protocol implementations
    ([cashout_studio/protocols]), the ECU manager ([cashout_studio/ecu]),
    the bridge ([cashout_studio/bridge]) and the utilities they relate to
    ([cashout_studio/utils]), followed by the properties of the
    specification stated over this embedding.

    Modelling conventions.
    - A Python [int] is a [Z]; a [bytes] value is a [list Z] whose elements
      satisfy [is_byte]; a [str] is a [string].
    - A method that may raise or mutate [self] is a computation of the
      monad [M S A := S -> res A * S]: state changes made before an
      exception is raised persist, as in Python.
    - A serial port is a handle (open flag, timeout) over a wire.  The wire
      carries the script of what arrives ([rx]: a byte, or [None] where the
      read timeout elapses before the next byte) and the log of what was
      written ([tx], one entry per call of [write]).  The wire itself never
      raises once the port is open; [time.sleep] and logging are not
      modelled. *)

From Stdlib Require Import ZArith QArith_base List String Ascii Lia Bool.
From stdpp Require Import base option list gmap strings finite pretty.

#[local] Open Scope Z_scope.
#[local] Open Scope list_scope.

(** ** Python values *)

Abbreviation bytes := (list Z) (only parsing).

Definition is_byte (b : Z) : Prop := 0 <= b < 256.
Definition is_bytes (l : bytes) : Prop := Forall is_byte l.

(** [sum(data)] *)
Definition sum (l : list Z) : Z := foldr Z.add 0 l.

(** [len(x)] *)
Definition len {A} (l : list A) : Z := Z.of_nat (length l).

(** [l[i:j]] and [l[i:]] for [0 <= i <= j] *)
Definition slice {A} (l : list A) (i j : Z) : list A :=
  take (Z.to_nat (j - i)) (drop (Z.to_nat i) l).
Definition slice_from {A} (l : list A) (i : Z) : list A := drop (Z.to_nat i) l.

(** [l[i]] for [0 <= i < len(l)] (the callers guard the index) *)
Definition item (l : list Z) (i : Z) : Z := nth (Z.to_nat i) l 0.

(** [range(start, stop, step)] for [step > 0] *)
Definition py_range (start stop step : Z) : list Z :=
  map (fun k => start + step * Z.of_nat k)
      (seq 0 (Z.to_nat ((stop - start + step - 1) / step))).

(** Exceptions raised by the modelled code. *)
Inductive exn : Type :=
| NotConnected                      (* "Not connected to ECU" *)
| NoResponse                        (* "No response from ECU" *)
| IncompleteData                    (* "Incomplete data received" *)
| DeviceNAK (code : option Z)       (* "ECU returned NAK, error code: ..." *)
| UnexpectedResponse (code : Z)     (* "Unexpected response code: 0x.." *)
| InvalidResponse                   (* "Invalid response from ECU" *)
| InvalidOrMissingResponse          (* "Invalid or missing response" *)
| NoValidResponse                   (* "No valid response received" *)
| NoActiveConnection                (* "No active ECU connection" *)
| StructError                       (* struct.error *)
| ValueError                        (* bytes([x]) with x outside range(256) *)
| OverflowError                     (* int.to_bytes *)
| IndexError
| KeyError
| AttributeError                    (* method call on None *)
| SerialException                   (* the port cannot be opened *)
| PortNotOpenError                  (* I/O on a closed port *)
| CanError.                         (* the CAN channel cannot be opened *)

Inductive res (A : Type) : Type :=
| Ok (a : A)
| Raise (e : exn).
Arguments Ok {A} a.
Arguments Raise {A} e.

(** ** The state-and-exception monad *)

Definition M (S A : Type) : Type := S -> res A * S.

Definition ret {S A} (a : A) : M S A := fun s => (Ok a, s).

Definition bind {S A B} (m : M S A) (k : A -> M S B) : M S B :=
  fun s => match m s with
           | (Ok a, s') => k a s'
           | (Raise e, s') => (Raise e, s')
           end.

Definition raise {S A} (e : exn) : M S A := fun s => (Raise e, s).

(** [try: m  except Exception as e: h e] *)
Definition try_except {S A} (m : M S A) (h : exn -> M S A) : M S A :=
  fun s => match m s with
           | (Ok a, s') => (Ok a, s')
           | (Raise e, s') => h e s'
           end.

Definition gets {S A} (f : S -> A) : M S A := fun s => (Ok (f s), s).
Definition modify {S} (f : S -> S) : M S unit := fun s => (Ok tt, f s).
Definition lift_res {S A} (r : res A) : M S A := fun s => (r, s).

(** Run a computation on a component of the state. *)
Definition zoom {S T A} (get : S -> T) (set : T -> S -> S) (m : M T A) : M S A :=
  fun s => let '(r, t') := m (get s) in (r, set t' s).

Declare Scope py_scope.
Delimit Scope py_scope with py.
Notation "x <- c1 ;; c2" := (bind c1 (fun x => c2))
  (at level 100, c1 at next level, right associativity) : py_scope.
Notation "c1 ;; c2" := (bind c1 (fun _ => c2))
  (at level 100, right associativity) : py_scope.
#[local] Open Scope py_scope.

(** ** Fixed-width big-endian encodings *)

(** The [n] low-order bytes of [v], most significant first. *)
Definition be_bytes (n : nat) (v : Z) : bytes :=
  map (fun i => Z.land (Z.shiftr v (8 * Z.of_nat i)) 0xFF) (rev (seq 0 n)).

(** [struct.pack('>I', v)] *)
Definition struct_pack_I (v : Z) : res bytes :=
  if (0 <=? v) && (v <? 2 ^ 32) then Ok (be_bytes 4 v) else Raise StructError.

(** [struct.pack('>H', v)] *)
Definition struct_pack_H (v : Z) : res bytes :=
  if (0 <=? v) && (v <? 2 ^ 16) then Ok (be_bytes 2 v) else Raise StructError.

(** [struct.unpack('>H', b)[0]] *)
Definition struct_unpack_H (b : bytes) : res Z :=
  match b with
  | [hi; lo] => Ok (Z.lor (Z.shiftl hi 8) lo)
  | _ => Raise StructError
  end.

(** [struct.unpack('>I', b)[0]] *)
Definition struct_unpack_I (b : bytes) : res Z :=
  match b with
  | [b3; b2; b1; b0] =>
      Ok (Z.lor (Z.shiftl b3 24) (Z.lor (Z.shiftl b2 16) (Z.lor (Z.shiftl b1 8) b0)))
  | _ => Raise StructError
  end.

(** [v.to_bytes(n, 'big')] *)
Definition to_bytes_big (n : nat) (v : Z) : res bytes :=
  if (0 <=? v) && (v <? 2 ^ (8 * Z.of_nat n)) then Ok (be_bytes n v)
  else Raise OverflowError.

(** [bytes([x])] for one element: the element must be in [range(256)]. *)
Definition byte_of (x : Z) : res Z :=
  if (0 <=? x) && (x <? 256) then Ok x else Raise ValueError.

(** ** Text formatting *)

Definition hex_char (upper : bool) (d : Z) : ascii :=
  let digits := if upper then "0123456789ABCDEF"%string else "0123456789abcdef"%string in
  match String.get (Z.to_nat d) digits with
  | Some c => c
  | None => "?"%char
  end.

Fixpoint hex_digits (fuel : nat) (n : Z) (acc : list Z) : list Z :=
  match fuel with
  | O => n :: acc
  | S fuel' => if n <? 16 then n :: acc else hex_digits fuel' (n / 16) (n mod 16 :: acc)
  end.

Definition string_of_chars (l : list ascii) : string := foldr String EmptyString l.

(** [f"{n:0wX}"] ([upper]) and [f"{n:0wx}"] for [n >= 0]: at least [w]
    hexadecimal digits, padded with zeros on the left. *)
Definition format_hex (upper : bool) (w : nat) (n : Z) : string :=
  let ds := hex_digits (Z.to_nat (Z.log2 n)) n [] in
  string_of_chars (replicate (w - length ds) "0"%char ++ map (hex_char upper) ds).

Definition format_04X : Z -> string := format_hex true 4.
Definition format_02X : Z -> string := format_hex true 2.

(** [data.hex()] *)
Definition bytes_hex (upper : bool) (data : bytes) : string :=
  foldr (fun b s => String.append (format_hex upper 2 b) s) EmptyString data.

(** ** ECU types and configuration ([cashout_studio/ecu]) *)

Inductive ECUType : Type := BOSCH_ME17 | SIEMENS_MSV | DENSO_SH705X.

Inductive ConnectionType : Type := SERIAL | CAN_BUS | USB | ETHERNET.

Record ECUConfig : Type := {
  ecu_type : ECUType;
  connection_type : ConnectionType;
  port : string;
  baud_rate : Z;
  can_bitrate : Z;
  timeout : Q;
  retries : Z
}.

(** The dataclass defaults. *)
Definition ECUConfig_default (t : ECUType) (c : ConnectionType) (p : string) : ECUConfig :=
  {| ecu_type := t; connection_type := c; port := p;
     baud_rate := 38400; can_bitrate := 500000; timeout := 5 # 1; retries := 3 |}.

#[global] Instance ECUType_eq_dec : EqDecision ECUType.
Proof. solve_decision. Defined.

#[global] Instance ConnectionType_eq_dec : EqDecision ConnectionType.
Proof. solve_decision. Defined.

(** ** The serial transport *)

Record SerialHandle : Type := {
  is_open : bool;
  ser_timeout : Q
}.

Record Wire : Type := {
  present : bool;              (* whether the device node can be opened *)
  rx : list (option Z);        (* what will arrive: a byte, or a timeout *)
  tx : list bytes              (* what was written, one entry per write *)
}.

Record SerialLink : Type := {
  handle : option SerialHandle;     (* [self._serial_connection] *)
  wire : Wire
}.

Definition set_rx (r : list (option Z)) (w : Wire) : Wire :=
  {| present := present w; rx := r; tx := tx w |}.
Definition push_tx (frame : bytes) (w : Wire) : Wire :=
  {| present := present w; rx := rx w; tx := tx w ++ [frame] |}.

(** The bytes one [read(n)] returns and what stays on the wire: the read
    ends after [n] bytes, or where the timeout elapses. *)
Fixpoint take_bytes (n : nat) (r : list (option Z)) : bytes * list (option Z) :=
  match n with
  | O => ([], r)
  | S n' =>
      match r with
      | [] => ([], [])
      | None :: r' => ([], r')
      | Some b :: r' => let '(bs, r'') := take_bytes n' r' in (b :: bs, r'')
      end
  end.

(** [serial.Serial(port=..., timeout=t)] *)
Definition ser_open (t : Q) : M SerialLink unit := fun l =>
  if present (wire l)
  then (Ok tt, {| handle := Some {| is_open := true; ser_timeout := t |}; wire := wire l |})
  else (Raise SerialException, l).

(** [self._serial_connection.read(n)] *)
Definition ser_read (n : Z) : M SerialLink bytes := fun l =>
  match handle l with
  | None => (Raise AttributeError, l)
  | Some h =>
      if is_open h
      then let '(bs, r) := take_bytes (Z.to_nat n) (rx (wire l)) in
           (Ok bs, {| handle := handle l; wire := set_rx r (wire l) |})
      else (Raise PortNotOpenError, l)
  end.

(** [self._serial_connection.write(data)] *)
Definition ser_write (data : bytes) : M SerialLink unit := fun l =>
  match handle l with
  | None => (Raise AttributeError, l)
  | Some h =>
      if is_open h
      then (Ok tt, {| handle := handle l; wire := push_tx data (wire l) |})
      else (Raise PortNotOpenError, l)
  end.

(** [self._serial_connection.close()] *)
Definition ser_close : M SerialLink unit := fun l =>
  match handle l with
  | None => (Raise AttributeError, l)
  | Some h => (Ok tt, {| handle := Some {| is_open := false; ser_timeout := ser_timeout h |};
                         wire := wire l |})
  end.

(** [self._serial_connection.timeout] and its assignment *)
Definition ser_get_timeout : M SerialLink Q := fun l =>
  match handle l with
  | None => (Raise AttributeError, l)
  | Some h => (Ok (ser_timeout h), l)
  end.
Definition ser_set_timeout (t : Q) : M SerialLink unit := fun l =>
  match handle l with
  | None => (Raise AttributeError, l)
  | Some h => (Ok tt, {| handle := Some {| is_open := is_open h; ser_timeout := t |};
                         wire := wire l |})
  end.

(** [self._serial_connection and self._serial_connection.is_open] *)
Definition ser_is_open (l : SerialLink) : bool :=
  match handle l with
  | None => false
  | Some h => is_open h
  end.

(** [response and response[0] == code] *)
Definition head_is (response : bytes) (code : Z) : bool :=
  match response with
  | [] => false
  | b :: _ => b =? code
  end.

(** [str(e)]: the message of an exception. The messages of the exceptions
    the code raises itself are the code's; for an exception raised by a
    library only a short description stands for the library's message. *)
Definition str_exn (e : exn) : string :=
  match e with
  | NotConnected => "Not connected to ECU"
  | NoResponse => "No response from ECU"
  | IncompleteData => "Incomplete data received"
  | DeviceNAK (Some c) => String.append "ECU returned NAK, error code: " (pretty c)
  | DeviceNAK None => "ECU returned NAK, error code: unknown"
  | UnexpectedResponse c => String.append "Unexpected response code: 0x" (format_02X c)
  | InvalidResponse => "Invalid response from ECU"
  | InvalidOrMissingResponse => "Invalid or missing response"
  | NoValidResponse => "No valid response received"
  | NoActiveConnection => "No active ECU connection"
  | StructError => "struct.error"
  | ValueError => "bytes must be in range(0, 256)"
  | OverflowError => "int too big to convert"
  | IndexError => "index out of range"
  | KeyError => "KeyError"
  | AttributeError => "'NoneType' object has no attribute"
  | SerialException => "could not open port"
  | PortNotOpenError => "Attempting to use a port that is not open"
  | CanError => "could not open CAN channel"
  end.

(** ** The protocol interface ([ECUProtocol], the abstract base class) *)

Inductive pyval : Type :=
| VStr (s : string)
| VInt (z : Z).

Class ECUProtocol (P : Type) : Type := {
  config : P -> ECUConfig;
  connected : P -> bool;
  connect : M P bool;
  disconnect : M P bool;
  read_data : Z -> Z -> M P bytes;
  write_data : Z -> bytes -> M P bool;
  get_ecu_info : M P (gmap string pyval);
  get_dtc_codes : M P (list string);
  clear_dtc_codes : M P bool
}.

(** [b.decode('ascii', errors='ignore')]: bytes outside ASCII are dropped. *)
Definition decode_ascii_ignore (b : bytes) : list ascii :=
  map (fun c => ascii_of_nat (Z.to_nat c)) (filter (fun c => c < 128) b).

(** The ASCII characters [str.strip()] removes. *)
Definition is_space (c : ascii) : bool :=
  let n := Z.of_nat (nat_of_ascii c) in
  ((9 <=? n) && (n <=? 13)) || ((28 <=? n) && (n <=? 32)).

Fixpoint lstrip (l : list ascii) : list ascii :=
  match l with
  | [] => []
  | c :: l' => if is_space c then lstrip l' else l
  end.

(** [s.strip()] *)
Definition strip (l : list ascii) : list ascii := rev (lstrip (rev (lstrip l))).

(** [f'{port}@{rate}'] *)
Definition connection_string (port : string) (rate : Z) : string :=
  String.append port (String.append "@" (pretty rate)).

(** ** Denso SH705x ([protocols/denso_sh705x.py]) *)

Module Denso.

Definition SYNC_PATTERN : bytes := [0;0;0;0;0;0;0;0;0;0;0x55;0xAA].

Definition CMD_INIT := 0x00.
Definition CMD_READ_ROM := 0x01.
Definition CMD_READ_RAM := 0x02.
Definition CMD_WRITE_ROM := 0x03.
Definition CMD_WRITE_RAM := 0x04.
Definition CMD_ERASE_SECTOR := 0x05.
Definition CMD_CHECKSUM := 0x06.
Definition CMD_ECU_INFO := 0x07.
Definition CMD_READ_DTC := 0x08.
Definition CMD_CLEAR_DTC := 0x09.
Definition CMD_RESET := 0x0A.

Definition RESP_ACK := 0x06.
Definition RESP_NAK := 0x15.
Definition RESP_DATA := 0x80.

Definition ROM_BASE := 0x00000000.
Definition RAM_BASE := 0x05FFFF00.
Definition EEPROM_BASE := 0x00FE0000.

Record t : Type := {
  cfg : ECUConfig;                (* [self.config] *)
  is_connected : bool;            (* [self.connected] *)
  link : SerialLink;              (* [self._serial_connection] and its wire *)
  _session_active : bool
}.

Definition init (c : ECUConfig) (w : Wire) : t :=
  {| cfg := c; is_connected := false;
     link := {| handle := None; wire := w |}; _session_active := false |}.

Definition set_link (l : SerialLink) (p : t) : t :=
  {| cfg := cfg p; is_connected := is_connected p; link := l;
     _session_active := _session_active p |}.
Definition set_connected (b : bool) (p : t) : t :=
  {| cfg := cfg p; is_connected := b; link := link p;
     _session_active := _session_active p |}.
Definition set_session_active (b : bool) (p : t) : t :=
  {| cfg := cfg p; is_connected := is_connected p; link := link p;
     _session_active := b |}.

(** Serial operations of the object. *)
Definition io {A} (m : M SerialLink A) : M t A := zoom link set_link m.

(** [self._serial_connection] as a truth value *)
Definition has_serial (p : t) : bool :=
  match handle (link p) with Some _ => true | None => false end.

Definition _calculate_checksum (data : bytes) : Z :=
  (256 - (sum data mod 256)) mod 256.

Definition _build_frame (command : Z) (data : bytes) : res bytes :=
  let STX := 0x02 in
  let ETX := 0x03 in
  match byte_of command with
  | Raise e => Raise e
  | Ok c =>
      let frame_data := c :: data in
      let length := len frame_data in
      let checksum := _calculate_checksum frame_data in
      match byte_of length with
      | Raise e => Raise e
      | Ok l => Ok ([STX; l] ++ frame_data ++ [checksum; ETX])
      end
  end.

(** The loop [while True] that looks for STX: every turn reads one
    element of the wire, so [fuel] larger than what is left on the wire
    is never used up (see [find_stx_fuel]). *)
Fixpoint find_stx (fuel : nat) : M SerialLink bool :=
  match fuel with
  | O => ret false
  | S fuel' =>
      byte <- ser_read 1 ;;
      match byte with
      | [] => ret false
      | b :: _ => if b =? 0x02 then ret true else find_stx fuel'
      end
  end.

(** The body of [_read_response] inside [try]. *)
Definition read_frame : M SerialLink bytes :=
  n <- gets (fun l => S (length (rx (wire l)))) ;;
  found <- find_stx n ;;
  if negb found then ret [] else
  length_byte <- ser_read 1 ;;
  match length_byte with
  | [] => ret []
  | length :: _ =>
      if length =? 0 then ret [] else
      remaining <- ser_read (length + 2) ;;
      if (len remaining =? length + 2) && (item remaining (len remaining - 1) =? 0x03)
      then
        let frame_data := slice remaining 0 (len remaining - 2) in
        let received_checksum := item remaining (len remaining - 2) in
        let calculated_checksum := _calculate_checksum frame_data in
        if received_checksum =? calculated_checksum then ret frame_data
        else ret []
      else ret []
  end.

Definition _read_response : M t bytes := fun p =>
  if negb (has_serial p) then (Ok [], p)
  else try_except (io read_frame) (fun _ => ret []) p.

Definition connect : M t bool :=
  try_except
    (c <- gets cfg ;;
     io (ser_open (timeout c)) ;;
     io (ser_write SYNC_PATTERN) ;;
     init_frame <- lift_res (_build_frame CMD_INIT []) ;;
     io (ser_write init_frame) ;;
     response <- _read_response ;;
     if head_is response RESP_ACK then
       wake_up <- lift_res (_build_frame 0x81 [0x01; 0x02; 0x03]) ;;
       io (ser_write wake_up) ;;
       response2 <- _read_response ;;
       if head_is response2 RESP_ACK then
         modify (set_connected true) ;;
         modify (set_session_active true) ;;
         ret true
       else ret false
     else ret false)
    (fun _ => ret false).

Definition disconnect : M t bool :=
  try_except
    (l <- gets link ;;
     (if ser_is_open l then
        active <- gets _session_active ;;
        (if active then
           reset_frame <- lift_res (_build_frame CMD_RESET []) ;;
           io (ser_write reset_frame)
         else ret tt) ;;
        io ser_close
      else ret tt) ;;
     modify (set_connected false) ;;
     modify (set_session_active false) ;;
     ret true)
    (fun _ => ret false).

Definition read_data (address length : Z) : M t bytes := fun p =>
  if negb (is_connected p) || negb (has_serial p) then (Raise NotConnected, p)
  else
    try_except
      (let cmd :=
         if (ROM_BASE <=? address) && (address <? RAM_BASE) then CMD_READ_ROM
         else if RAM_BASE <=? address then CMD_READ_RAM
         else CMD_READ_ROM in
       addr_bytes <- lift_res (struct_pack_I address) ;;
       len_bytes <- lift_res (struct_pack_H length) ;;
       let command_data := addr_bytes ++ len_bytes in
       frame <- lift_res (_build_frame cmd command_data) ;;
       io (ser_write frame) ;;
       response <- _read_response ;;
       match response with
       | [] => raise NoResponse
       | r0 :: _ =>
           if r0 =? RESP_DATA then
             data_length <- lift_res (struct_unpack_H (slice response 1 3)) ;;
             if 3 + data_length <=? len response
             then ret (slice response 3 (3 + data_length))
             else raise IncompleteData
           else if r0 =? RESP_NAK then
             raise (DeviceNAK (if 1 <? len response then Some (item response 1) else None))
           else raise (UnexpectedResponse r0)
       end)
      (fun e => raise e) p.

Definition _erase_sector (address : Z) : M t bool :=
  try_except
    (let sector_size := 0x1000 in
     let sector_addr := Z.land address (Z.lnot (sector_size - 1)) in
     addr_bytes <- lift_res (struct_pack_I sector_addr) ;;
     erase_frame <- lift_res (_build_frame CMD_ERASE_SECTOR addr_bytes) ;;
     io (ser_write erase_frame) ;;
     original_timeout <- io ser_get_timeout ;;
     io (ser_set_timeout (10 # 1)) ;;
     response <- _read_response ;;
     io (ser_set_timeout original_timeout) ;;
     ret (head_is response RESP_ACK))
    (fun _ => ret false).

Definition _verify_checksum (address length : Z) : M t bool :=
  try_except
    (addr_bytes <- lift_res (struct_pack_I address) ;;
     len_bytes <- lift_res (struct_pack_H length) ;;
     checksum_frame <- lift_res (_build_frame CMD_CHECKSUM (addr_bytes ++ len_bytes)) ;;
     io (ser_write checksum_frame) ;;
     response <- _read_response ;;
     if head_is response RESP_DATA && (5 <=? len response)
     then ret true
     else ret false)
    (fun _ => ret false).

Definition write_data (address : Z) (data : bytes) : M t bool := fun p =>
  if negb (is_connected p) || negb (has_serial p) then (Raise NotConnected, p)
  else
    try_except
      (let cmd :=
         if (ROM_BASE <=? address) && (address <? RAM_BASE) then CMD_WRITE_ROM
         else if RAM_BASE <=? address then CMD_WRITE_RAM
         else CMD_WRITE_RAM in
       (if cmd =? CMD_WRITE_ROM then
          erased <- _erase_sector address ;;
          (* a failed erase is only logged: "attempting write anyway" *)
          ret tt
        else ret tt) ;;
       addr_bytes <- lift_res (struct_pack_I address) ;;
       len_bytes <- lift_res (struct_pack_H (len data)) ;;
       let command_data := addr_bytes ++ len_bytes ++ data in
       frame <- lift_res (_build_frame cmd command_data) ;;
       io (ser_write frame) ;;
       response <- _read_response ;;
       if head_is response RESP_ACK then
         ok <- _verify_checksum address (len data) ;;
         if ok then ret true else ret false
       else if head_is response RESP_NAK then ret false
       else ret false)
      (fun _ => ret false) p.

(** The pieces of [get_ecu_info] and [get_dtc_codes] that do not touch
    the wire. *)
Definition base_info (c : ECUConfig) : gmap string pyval :=
  <["connection" := VStr (connection_string (port c) (baud_rate c))]>
  (<["protocol" := VStr "Denso Proprietary"]>
  (<["ecu_type" := VStr "Denso SH705x"]> ∅)).

Definition parse_info (response : bytes) (info : gmap string pyval)
  : res (gmap string pyval) :=
  if head_is response RESP_DATA && (3 <? len response) then
    let data := slice_from response 3 in
    if 32 <=? len data then
      match struct_unpack_I (slice data 4 8), struct_unpack_I (slice data 8 12) with
      | Ok rom_size, Ok ram_size =>
          let info :=
            <["software_version" :=
                VStr (string_of_chars (strip (decode_ascii_ignore (slice data 24 32))))]>
            (<["part_number" :=
                VStr (string_of_chars (strip (decode_ascii_ignore (slice data 12 24))))]>
            (<["ram_size" := VInt ram_size]>
            (<["rom_size" := VInt rom_size]>
            (<["cpu_id" := VStr (bytes_hex true (slice data 0 4))]> info)))) in
          if 48 <=? len data then
            Ok (<["calibration_id" :=
                    VStr (string_of_chars (strip (decode_ascii_ignore (slice data 40 48))))]>
                (<["hardware_version" := VStr (bytes_hex true (slice data 32 40))]> info))
          else Ok info
      | Raise e, _ | _, Raise e => Raise e
      end
    else Ok info
  else Ok info.

Definition get_ecu_info : M t (gmap string pyval) := fun p =>
  if negb (is_connected p) then (Ok ∅, p)
  else
    try_except
      (info_frame <- lift_res (_build_frame CMD_ECU_INFO []) ;;
       io (ser_write info_frame) ;;
       response <- _read_response ;;
       c <- gets cfg ;;
       lift_res (parse_info response (base_info c)))
      (fun e => ret (<["error" := VStr (str_exn e)]>
                     (<["ecu_type" := VStr "Denso SH705x"]> ∅))) p.

(** The loop over the DTC bytes: [data[0]] is the count, the codes
    follow, two bytes each. *)
Definition parse_dtc (data : bytes) : list string :=
  let dtc_count := match data with [] => 0 | c :: _ => c end in
  foldl
    (fun dtc_codes i =>
       if i + 1 <? len data then
         let dtc_code := Z.lor (Z.shiftl (item data i) 8) (item data (i + 1)) in
         if negb (dtc_code =? 0) then
           let dtc_prefix :=
             nth (Z.to_nat (Z.land (Z.shiftr dtc_code 14) 0x03))
                 ["P"; "C"; "B"; "U"]%char "?"%char in
           dtc_codes ++ [String dtc_prefix (format_04X (Z.land dtc_code 0x3FFF))]
         else dtc_codes
       else dtc_codes)
    [] (py_range 1 (Z.min (len data) (1 + dtc_count * 2)) 2).

Definition get_dtc_codes : M t (list string) := fun p =>
  if negb (is_connected p) then (Ok [], p)
  else
    try_except
      (dtc_frame <- lift_res (_build_frame CMD_READ_DTC []) ;;
       io (ser_write dtc_frame) ;;
       response <- _read_response ;;
       if head_is response RESP_DATA && (3 <? len response)
       then ret (parse_dtc (slice_from response 3))
       else ret [])
      (fun _ => ret []) p.

Definition clear_dtc_codes : M t bool := fun p =>
  if negb (is_connected p) then (Ok false, p)
  else
    try_except
      (clear_frame <- lift_res (_build_frame CMD_CLEAR_DTC []) ;;
       io (ser_write clear_frame) ;;
       response <- _read_response ;;
       if head_is response RESP_ACK then ret true
       else if head_is response RESP_NAK then ret false
       else ret false)
      (fun _ => ret false) p.

End Denso.

#[global] Instance Denso_protocol : ECUProtocol Denso.t := {|
  config := Denso.cfg;
  connected := Denso.is_connected;
  connect := Denso.connect;
  disconnect := Denso.disconnect;
  read_data := Denso.read_data;
  write_data := Denso.write_data;
  get_ecu_info := Denso.get_ecu_info;
  get_dtc_codes := Denso.get_dtc_codes;
  clear_dtc_codes := Denso.clear_dtc_codes
|}.

(** [needle in haystack] on [bytes]: a contiguous occurrence. *)
Fixpoint is_prefix (p l : bytes) : bool :=
  match p, l with
  | [], _ => true
  | _ :: _, [] => false
  | a :: p', b :: l' => (a =? b) && is_prefix p' l'
  end.

Fixpoint contains (needle haystack : bytes) : bool :=
  is_prefix needle haystack ||
  match haystack with
  | [] => false
  | _ :: l' => contains needle l'
  end.

(** ** Bosch ME17 ([protocols/bosch_me17.py]) *)

Module Bosch.

Definition CMD_CONNECT : bytes := [0x81].
Definition CMD_DISCONNECT : bytes := [0x82].
Definition CMD_READ_MEMORY : bytes := [0x23].
Definition CMD_WRITE_MEMORY : bytes := [0x3D].
Definition CMD_READ_ID : bytes := [0x1A].
Definition CMD_READ_DTC : bytes := [0x19; 0x02].
Definition CMD_CLEAR_DTC : bytes := [0x14; 0xFF; 0x00].

Definition RESPONSE_OK : bytes := [0x50].
Definition RESPONSE_ERROR : bytes := [0x7F].

Record t : Type := {
  cfg : ECUConfig;
  is_connected : bool;
  link : SerialLink
}.

Definition init (c : ECUConfig) (w : Wire) : t :=
  {| cfg := c; is_connected := false; link := {| handle := None; wire := w |} |}.

Definition set_link (l : SerialLink) (p : t) : t :=
  {| cfg := cfg p; is_connected := is_connected p; link := l |}.
Definition set_connected (b : bool) (p : t) : t :=
  {| cfg := cfg p; is_connected := b; link := link p |}.

Definition io {A} (m : M SerialLink A) : M t A := zoom link set_link m.

Definition has_serial (p : t) : bool :=
  match handle (link p) with Some _ => true | None => false end.

Definition _build_kwp2000_frame (data : bytes) : res bytes :=
  let length := len data in
  let checksum := Z.land (sum data + length) 0xFF in
  match byte_of length with
  | Raise e => Raise e
  | Ok l => Ok ([l] ++ data ++ [checksum])
  end.

(** The body of [_read_response] inside [try]. *)
Definition read_frame : M SerialLink bytes :=
  length_byte <- ser_read 1 ;;
  match length_byte with
  | [] => ret []
  | length :: _ =>
      if length =? 0 then ret [] else
      remaining <- ser_read (length + 1) ;;
      if len remaining =? length + 1 then ret (length_byte ++ remaining)
      else ret []
  end.

Definition _read_response : M t bytes := fun p =>
  if negb (has_serial p) then (Ok [], p)
  else try_except (io read_frame) (fun _ => ret []) p.

Definition connect : M t bool :=
  try_except
    (c <- gets cfg ;;
     io (ser_open (timeout c)) ;;
     let wake_up := replicate 10 0x00 ++ [0x55] ++ [0x01] ++ [0x8A] in
     io (ser_write wake_up) ;;
     connect_frame <- lift_res (_build_kwp2000_frame CMD_CONNECT) ;;
     io (ser_write connect_frame) ;;
     response <- _read_response ;;
     if contains RESPONSE_OK response then
       modify (set_connected true) ;;
       ret true
     else ret false)
    (fun _ => ret false).

Definition disconnect : M t bool :=
  try_except
    (l <- gets link ;;
     (if ser_is_open l then
        disconnect_frame <- lift_res (_build_kwp2000_frame CMD_DISCONNECT) ;;
        io (ser_write disconnect_frame) ;;
        io ser_close
      else ret tt) ;;
     modify (set_connected false) ;;
     ret true)
    (fun _ => ret false).

Definition read_data (address length : Z) : M t bytes := fun p =>
  if negb (is_connected p) || negb (has_serial p) then (Raise NotConnected, p)
  else
    try_except
      (addr_bytes <- lift_res (to_bytes_big 3 address) ;;
       len_bytes <- lift_res (to_bytes_big 2 length) ;;
       let command := CMD_READ_MEMORY ++ addr_bytes ++ len_bytes in
       frame <- lift_res (_build_kwp2000_frame command) ;;
       io (ser_write frame) ;;
       response <- _read_response ;;
       if 2 <? len response then ret (slice_from response 2)
       else raise InvalidResponse)
      (fun e => raise e) p.

Definition write_data (address : Z) (data : bytes) : M t bool := fun p =>
  if negb (is_connected p) || negb (has_serial p) then (Raise NotConnected, p)
  else
    try_except
      (addr_bytes <- lift_res (to_bytes_big 3 address) ;;
       let command := CMD_WRITE_MEMORY ++ addr_bytes ++ data in
       frame <- lift_res (_build_kwp2000_frame command) ;;
       io (ser_write frame) ;;
       response <- _read_response ;;
       if contains RESPONSE_OK response then ret true else ret false)
      (fun _ => ret false) p.

Definition base_info (c : ECUConfig) : gmap string pyval :=
  <["connection" := VStr (connection_string (port c) (baud_rate c))]>
  (<["protocol" := VStr "KWP2000"]>
  (<["ecu_type" := VStr "Bosch ME17"]> ∅)).

Definition parse_info (response : bytes) (info : gmap string pyval) : gmap string pyval :=
  if 2 <? len response then
    let data := slice_from response 2 in
    if 20 <=? len data then
      <["supplier_id" := VStr (bytes_hex false (slice data 18 20))]>
      (<["hw_version" := VStr (bytes_hex false (slice data 14 18))]>
      (<["sw_version" := VStr (bytes_hex false (slice data 10 14))]>
      (<["part_number" := VStr (bytes_hex false (slice data 0 10))]> info)))
    else info
  else info.

Definition get_ecu_info : M t (gmap string pyval) := fun p =>
  if negb (is_connected p) then (Ok ∅, p)
  else
    try_except
      (id_frame <- lift_res (_build_kwp2000_frame (CMD_READ_ID ++ [0x86])) ;;
       io (ser_write id_frame) ;;
       response <- _read_response ;;
       c <- gets cfg ;;
       ret (parse_info response (base_info c)))
      (fun e => ret (<["error" := VStr (str_exn e)]>
                     (<["ecu_type" := VStr "Bosch ME17"]> ∅))) p.

(** The loop over the DTC bytes, two bytes per code. *)
Definition parse_dtc (data : bytes) : list string :=
  foldl
    (fun dtc_codes i =>
       if i + 1 <? len data then
         let dtc_code := Z.lor (Z.shiftl (item data i) 8) (item data (i + 1)) in
         if negb (dtc_code =? 0)
         then dtc_codes ++ [String "P" (format_04X dtc_code)]
         else dtc_codes
       else dtc_codes)
    [] (py_range 0 (len data) 2).

Definition get_dtc_codes : M t (list string) := fun p =>
  if negb (is_connected p) then (Ok [], p)
  else
    try_except
      (dtc_frame <- lift_res (_build_kwp2000_frame CMD_READ_DTC) ;;
       io (ser_write dtc_frame) ;;
       response <- _read_response ;;
       if 2 <? len response then ret (parse_dtc (slice_from response 2))
       else ret [])
      (fun _ => ret []) p.

Definition clear_dtc_codes : M t bool := fun p =>
  if negb (is_connected p) then (Ok false, p)
  else
    try_except
      (clear_frame <- lift_res (_build_kwp2000_frame CMD_CLEAR_DTC) ;;
       io (ser_write clear_frame) ;;
       response <- _read_response ;;
       if contains RESPONSE_OK response then ret true else ret false)
      (fun _ => ret false) p.

End Bosch.

#[global] Instance Bosch_protocol : ECUProtocol Bosch.t := {|
  config := Bosch.cfg;
  connected := Bosch.is_connected;
  connect := Bosch.connect;
  disconnect := Bosch.disconnect;
  read_data := Bosch.read_data;
  write_data := Bosch.write_data;
  get_ecu_info := Bosch.get_ecu_info;
  get_dtc_codes := Bosch.get_dtc_codes;
  clear_dtc_codes := Bosch.clear_dtc_codes
|}.

(** ** The CAN transport *)

Record CanMessage : Type := {
  arbitration_id : Z;
  data : bytes;
  is_extended_id : bool
}.

(** [can.Message(arbitration_id=..., data=...)]: unless given,
    [is_extended_id] is [True]. *)
Definition Message (id : Z) (d : bytes) : CanMessage :=
  {| arbitration_id := id; data := d; is_extended_id := true |}.

Record CanWire : Type := {
  can_present : bool;                    (* whether the channel can be opened *)
  can_rx : list (option CanMessage);     (* what arrives: a frame, or a timeout *)
  can_tx : list CanMessage               (* what was sent *)
}.

Record CanLink : Type := {
  bus : bool;                            (* [self._can_bus] is a bus object *)
  can_wire : CanWire
}.

(** [can.interface.Bus(...)] *)
Definition can_open : M CanLink unit := fun l =>
  if can_present (can_wire l)
  then (Ok tt, {| bus := true; can_wire := can_wire l |})
  else (Raise CanError, l).

(** [self._can_bus.send(msg)] *)
Definition can_send (msg : CanMessage) : M CanLink unit := fun l =>
  if bus l
  then (Ok tt, {| bus := bus l;
                  can_wire := {| can_present := can_present (can_wire l);
                                 can_rx := can_rx (can_wire l);
                                 can_tx := can_tx (can_wire l) ++ [msg] |} |})
  else (Raise AttributeError, l).

(** [self._can_bus.recv(timeout=...)] *)
Definition can_recv : M CanLink (option CanMessage) := fun l =>
  if bus l
  then match can_rx (can_wire l) with
       | [] => (Ok None, l)
       | m :: r => (Ok m, {| bus := bus l;
                             can_wire := {| can_present := can_present (can_wire l);
                                            can_rx := r;
                                            can_tx := can_tx (can_wire l) |} |})
       end
  else (Raise AttributeError, l).

(** [self._can_bus.shutdown()] followed by [self._can_bus = None] *)
Definition can_shutdown : M CanLink unit := fun l =>
  if bus l then (Ok tt, {| bus := false; can_wire := can_wire l |})
  else (Raise AttributeError, l).

(** [data[i]] on a received frame, which may be shorter. *)
Definition item_res (l : bytes) (i : Z) : res Z :=
  match l !! Z.to_nat i with
  | Some b => Ok b
  | None => Raise IndexError
  end.

(** ** Siemens MSV ([protocols/siemens_msv.py]) *)

Module Siemens.

Definition REQUEST_ID := 0x7E0.
Definition RESPONSE_ID := 0x7E8.

Definition CMD_DIAGNOSTIC_SESSION := 0x10.
Definition CMD_READ_DATA := 0x22.
Definition CMD_WRITE_DATA := 0x2E.
Definition CMD_ROUTINE_CONTROL := 0x31.
Definition CMD_READ_DTC := 0x19.
Definition CMD_CLEAR_DTC := 0x14.
Definition CMD_ECU_RESET := 0x11.

Definition SESSION_DEFAULT := 0x01.
Definition SESSION_PROGRAMMING := 0x02.
Definition SESSION_EXTENDED := 0x03.

Record t : Type := {
  cfg : ECUConfig;
  is_connected : bool;
  can : CanLink;                  (* [self._can_bus] and its channel *)
  link : SerialLink;              (* [self._serial_connection] and its wire *)
  _sequence_number : Z
}.

Definition init (c : ECUConfig) (cw : CanWire) (w : Wire) : t :=
  {| cfg := c; is_connected := false;
     can := {| bus := false; can_wire := cw |};
     link := {| handle := None; wire := w |};
     _sequence_number := 0x21 |}.

Definition set_link (l : SerialLink) (p : t) : t :=
  {| cfg := cfg p; is_connected := is_connected p; can := can p; link := l;
     _sequence_number := _sequence_number p |}.
Definition set_can (c : CanLink) (p : t) : t :=
  {| cfg := cfg p; is_connected := is_connected p; can := c; link := link p;
     _sequence_number := _sequence_number p |}.
Definition set_connected (b : bool) (p : t) : t :=
  {| cfg := cfg p; is_connected := b; can := can p; link := link p;
     _sequence_number := _sequence_number p |}.

Definition io {A} (m : M SerialLink A) : M t A := zoom link set_link m.
Definition canio {A} (m : M CanLink A) : M t A := zoom can set_can m.

Definition _calculate_checksum (data : bytes) : Z :=
  (256 - (sum data mod 256)) mod 256.

(** [bytes([...])]: every element must be in [range(256)]. *)
Fixpoint bytes_of (l : list Z) : res bytes :=
  match l with
  | [] => Ok []
  | x :: l' =>
      match byte_of x, bytes_of l' with
      | Ok b, Ok bs => Ok (b :: bs)
      | Raise e, _ | _, Raise e => Raise e
      end
  end.

(** [response and response.arbitration_id == RESPONSE_ID and
    len(response.data) >= 2 and response.data[1] == code] *)
Definition positive (response : option CanMessage) (code : Z) : bool :=
  match response with
  | None => false
  | Some r => (arbitration_id r =? RESPONSE_ID) && (2 <=? len (data r))
              && (item (data r) 1 =? code)
  end.

Definition _connect_can : M t bool :=
  try_except
    (canio can_open ;;
     let session_msg :=
       {| arbitration_id := REQUEST_ID;
          data := [0x02; CMD_DIAGNOSTIC_SESSION; SESSION_EXTENDED];
          is_extended_id := false |} in
     canio (can_send session_msg) ;;
     response <- canio can_recv ;;
     if positive response 0x50 then
       modify (set_connected true) ;;
       ret true
     else ret false)
    (fun _ => ret false).

Definition _connect_serial : M t bool :=
  try_except
    (c <- gets cfg ;;
     io (ser_open (timeout c)) ;;
     let wake_up := replicate 5 0x00 ++ [0x55] ++ [0x8A] ++ [0x08] in
     io (ser_write wake_up) ;;
     let session_cmd := [0x02; CMD_DIAGNOSTIC_SESSION; SESSION_EXTENDED] in
     let checksum := _calculate_checksum session_cmd in
     let frame := session_cmd ++ [checksum] in
     io (ser_write frame) ;;
     response <- io (ser_read 10) ;;
     if (3 <=? len response) && (item response 1 =? 0x50) then
       modify (set_connected true) ;;
       ret true
     else ret false)
    (fun _ => ret false).

Definition connect : M t bool :=
  try_except
    (c <- gets cfg ;;
     match connection_type c with
     | CAN_BUS => _connect_can
     | SERIAL => _connect_serial
     | _ => ret false
     end)
    (fun _ => ret false).

Definition disconnect : M t bool :=
  try_except
    (has_bus <- gets (fun p => bus (can p)) ;;
     (if has_bus then
        let default_session :=
          Message REQUEST_ID [0x02; CMD_DIAGNOSTIC_SESSION; SESSION_DEFAULT] in
        canio (can_send default_session) ;;
        canio can_shutdown
      else ret tt) ;;
     h <- gets (fun p => handle (link p)) ;;
     (match h with
      | Some _ => io ser_close
      | None => ret tt
      end) ;;
     modify (set_connected false) ;;
     ret true)
    (fun _ => ret false).

(** The loop [while len(response_data) < length] of [_read_data_can]:
    every turn takes one element of the channel or raises, so [fuel]
    larger than what is left on the channel is never used up (see
    [read_frames_fuel]). *)
Fixpoint read_frames (fuel : nat) (length : Z) (response_data : bytes) : M t bytes :=
  if negb (len response_data <? length) then ret response_data else
  match fuel with
  | O => raise InvalidOrMissingResponse
  | S fuel' =>
      response <- canio can_recv ;;
      match response with
      | None => raise InvalidOrMissingResponse
      | Some r =>
          if negb (arbitration_id r =? RESPONSE_ID) then raise InvalidOrMissingResponse
          else
            d0 <- lift_res (item_res (data r) 0) ;;
            if Z.land d0 0xF0 =? 0x10 then
              d1 <- lift_res (item_res (data r) 1) ;;
              let data_length := Z.lor (Z.shiftl (Z.land d0 0x0F) 8) d1 in
              let response_data := response_data ++ slice_from (data r) 4 in
              let flow_control :=
                Message REQUEST_ID [0x30; 0x00; 0x00; 0x00; 0x00; 0x00; 0x00; 0x00] in
              canio (can_send flow_control) ;;
              read_frames fuel' length response_data
            else if Z.land d0 0xF0 =? 0x20 then
              read_frames fuel' length (response_data ++ slice_from (data r) 1)
            else ret (slice_from (data r) 3)
      end
  end.

Definition _read_data_can (address length : Z) : M t bytes :=
  let data_id := Z.land (Z.shiftr address 8) 0xFFFF in
  let read_msg :=
    Message REQUEST_ID
      [0x03; CMD_READ_DATA; Z.land (Z.shiftr data_id 8) 0xFF; Z.land data_id 0xFF] in
  canio (can_send read_msg) ;;
  n <- gets (fun p => S (List.length (can_rx (can_wire (can p))))) ;;
  response_data <- read_frames n length [] ;;
  ret (slice response_data 0 length).

Definition _read_data_serial (address length : Z) : M t bytes :=
  let data_id := Z.land (Z.shiftr address 8) 0xFFFF in
  let command := [0x03; CMD_READ_DATA; Z.land (Z.shiftr data_id 8) 0xFF; Z.land data_id 0xFF] in
  let checksum := _calculate_checksum command in
  let frame := command ++ [checksum] in
  io (ser_write frame) ;;
  response <- io (ser_read 256) ;;
  if 4 <=? len response then ret (slice response 3 (len response - 1))
  else raise NoValidResponse.

Definition read_data (address length : Z) : M t bytes := fun p =>
  if negb (is_connected p) then (Raise NotConnected, p)
  else
    try_except
      (has_bus <- gets (fun p => bus (can p)) ;;
       if has_bus then _read_data_can address length
       else _read_data_serial address length)
      (fun e => raise e) p.

Definition write_data (address : Z) (payload : bytes) : M t bool := fun p =>
  if negb (is_connected p) then (Raise NotConnected, p)
  else
    try_except
      (let data_id := Z.land (Z.shiftr address 8) 0xFFFF in
       has_bus <- gets (fun p => bus (can p)) ;;
       if has_bus then
         (if len payload <=? 3 then
            d <- lift_res (bytes_of ([len payload + 3; CMD_WRITE_DATA;
                                      Z.land (Z.shiftr data_id 8) 0xFF;
                                      Z.land data_id 0xFF] ++ payload)) ;;
            canio (can_send (Message REQUEST_ID d))
          else
            (* "Multi-frame implementation would go here": nothing is sent *)
            ret tt) ;;
         response <- canio can_recv ;;
         if positive response 0x6E then ret true else ret false
       else
         head <- lift_res (bytes_of [len payload + 3; CMD_WRITE_DATA;
                                     Z.land (Z.shiftr data_id 8) 0xFF;
                                     Z.land data_id 0xFF]) ;;
         let command := head ++ payload in
         let checksum := _calculate_checksum command in
         let frame := command ++ [checksum] in
         io (ser_write frame) ;;
         response <- io (ser_read 10) ;;
         ret ((2 <=? len response) && (item response 1 =? 0x6E)))
      (fun _ => ret false) p.

(** [try: v = self.read_data(did << 8, 16); if v: info[key] = f v
    except: pass] *)
Definition read_did (did : Z) (key : string) (f : bytes -> pyval)
    (info : gmap string pyval) : M t (gmap string pyval) :=
  try_except
    (v <- read_data (Z.shiftl did 8) 16 ;;
     match v with
     | [] => ret info
     | _ => ret (<[key := f v]> info)
     end)
    (fun _ => ret info).

Definition get_ecu_info : M t (gmap string pyval) := fun p =>
  if negb (is_connected p) then (Ok ∅, p)
  else
    try_except
      (c <- gets cfg ;;
       has_bus <- gets (fun p => bus (can p)) ;;
       let info :=
         <["connection" :=
             VStr (connection_string (port c)
                     (if has_bus then can_bitrate c else baud_rate c))]>
         (<["protocol" := VStr "UDS/ISO14229"]>
         (<["ecu_type" := VStr "Siemens MSV"]> ∅)) in
       info <- read_did 0xF186 "active_session"
                 (fun v => VStr (bytes_hex false v)) info ;;
       info <- read_did 0xF189 "software_version"
                 (fun v => VStr (string_of_chars (decode_ascii_ignore v))) info ;;
       info <- read_did 0xF187 "part_number"
                 (fun v => VStr (string_of_chars (decode_ascii_ignore v))) info ;;
       ret info)
      (fun e => ret (<["error" := VStr (str_exn e)]>
                     (<["ecu_type" := VStr "Siemens MSV"]> ∅))) p.

(** The loop over the DTC bytes, three bytes per code. *)
Definition parse_dtc (dtc_data : bytes) : list string :=
  foldl
    (fun dtc_codes i =>
       if i + 2 <? len dtc_data then
         let dtc_high := item dtc_data i in
         let dtc_low := Z.lor (Z.shiftl (item dtc_data (i + 1)) 8) (item dtc_data (i + 2)) in
         dtc_codes ++ [String "P" (String.append (format_02X dtc_high) (format_04X dtc_low))]
       else dtc_codes)
    [] (py_range 0 (len dtc_data) 3).

Definition get_dtc_codes : M t (list string) := fun p =>
  if negb (is_connected p) then (Ok [], p)
  else
    try_except
      (has_bus <- gets (fun p => bus (can p)) ;;
       if has_bus then
         let dtc_msg := Message REQUEST_ID [0x02; CMD_READ_DTC; 0x02] in
         canio (can_send dtc_msg) ;;
         response <- canio can_recv ;;
         match response with
         | Some r =>
             if positive response 0x59 then ret (parse_dtc (slice_from (data r) 3))
             else ret []
         | None => ret []
         end
       else ret [])
      (fun _ => ret []) p.

Definition clear_dtc_codes : M t bool := fun p =>
  if negb (is_connected p) then (Ok false, p)
  else
    try_except
      (has_bus <- gets (fun p => bus (can p)) ;;
       if has_bus then
         let clear_msg := Message REQUEST_ID [0x04; CMD_CLEAR_DTC; 0xFF; 0xFF; 0xFF] in
         canio (can_send clear_msg) ;;
         response <- canio can_recv ;;
         if positive response 0x54 then ret true else ret false
       else ret false)
      (fun _ => ret false) p.

End Siemens.

#[global] Instance Siemens_protocol : ECUProtocol Siemens.t := {|
  config := Siemens.cfg;
  connected := Siemens.is_connected;
  connect := Siemens.connect;
  disconnect := Siemens.disconnect;
  read_data := Siemens.read_data;
  write_data := Siemens.write_data;
  get_ecu_info := Siemens.get_ecu_info;
  get_dtc_codes := Siemens.get_dtc_codes;
  clear_dtc_codes := Siemens.clear_dtc_codes
|}.

(** ** The registered protocol objects

    The manager's dictionary holds objects of the three protocol classes;
    a method call on one of them is dispatched on its class. *)

Inductive protocol : Type :=
| PBosch (p : Bosch.t)
| PSiemens (p : Siemens.t)
| PDenso (p : Denso.t).

Section Dispatch.
Context {A : Type}.

Definition dispatch (fb : M Bosch.t A) (fs : M Siemens.t A) (fd : M Denso.t A)
  : M protocol A :=
  fun o => match o with
           | PBosch p => let '(r, p') := fb p in (r, PBosch p')
           | PSiemens p => let '(r, p') := fs p in (r, PSiemens p')
           | PDenso p => let '(r, p') := fd p in (r, PDenso p')
           end.
End Dispatch.

#[global] Instance any_protocol : ECUProtocol protocol := {|
  config := fun o => match o with
                     | PBosch p => config p | PSiemens p => config p | PDenso p => config p
                     end;
  connected := fun o => match o with
                        | PBosch p => connected p
                        | PSiemens p => connected p
                        | PDenso p => connected p
                        end;
  connect := dispatch connect connect connect;
  disconnect := dispatch disconnect disconnect disconnect;
  read_data := fun a n => dispatch (read_data a n) (read_data a n) (read_data a n);
  write_data := fun a d => dispatch (write_data a d) (write_data a d) (write_data a d);
  get_ecu_info := dispatch get_ecu_info get_ecu_info get_ecu_info;
  get_dtc_codes := dispatch get_dtc_codes get_dtc_codes get_dtc_codes;
  clear_dtc_codes := dispatch clear_dtc_codes clear_dtc_codes clear_dtc_codes
|}.

Lemma ECUType_enum_NoDup : NoDup [BOSCH_ME17; SIEMENS_MSV; DENSO_SH705X].
Proof. apply NoDup_ListNoDup. repeat constructor; simpl; intuition discriminate. Qed.

Lemma ECUType_enum_all (x : ECUType) : x ∈ [BOSCH_ME17; SIEMENS_MSV; DENSO_SH705X].
Proof. apply list_elem_of_In. destruct x; simpl; auto. Qed.

#[global] Instance ECUType_finite : Finite ECUType :=
  {| enum := [BOSCH_ME17; SIEMENS_MSV; DENSO_SH705X];
     NoDup_enum := ECUType_enum_NoDup;
     elem_of_enum := ECUType_enum_all |}.

(** ** The ECU manager ([ecu/__init__.py]) *)

Module ECUManager.

Record t : Type := {
  _protocols : gmap ECUType protocol;
  _active_ecu : option ECUType
}.

Definition init : t := {| _protocols := ∅; _active_ecu := None |}.

Definition set_protocols (m : gmap ECUType protocol) (s : t) : t :=
  {| _protocols := m; _active_ecu := _active_ecu s |}.
Definition set_active (a : option ECUType) (s : t) : t :=
  {| _protocols := _protocols s; _active_ecu := a |}.

(** A method call on the object [self._protocols[k]]: the object in the
    dictionary is the one that changes. *)
Definition on_protocol {A} (k : ECUType) (m : M protocol A) : M t A := fun s =>
  match _protocols s !! k with
  | None => (Raise KeyError, s)
  | Some o => let '(r, o') := m o in (r, set_protocols (<[k := o']> (_protocols s)) s)
  end.

Definition register_protocol (ecu_type : ECUType) (o : protocol) : M t unit :=
  modify (fun s => set_protocols (<[ecu_type := o]> (_protocols s)) s).

Definition connect_ecu (ecu_type : ECUType) : M t bool := fun s =>
  match _protocols s !! ecu_type with
  | None => (Ok false, s)
  | Some _ =>
      try_except
        (ok <- on_protocol ecu_type connect ;;
         if ok then
           modify (set_active (Some ecu_type)) ;;
           ret true
         else ret false)
        (fun _ => ret false) s
  end.

(** [ecu_type or self._active_ecu] *)
Definition target (ecu_type : option ECUType) (s : t) : option ECUType :=
  match ecu_type with
  | Some e => Some e
  | None => _active_ecu s
  end.

Definition disconnect_ecu (ecu_type : option ECUType) : M t bool := fun s =>
  match target ecu_type s with
  | None => (Ok true, s)
  | Some target_ecu =>
      match _protocols s !! target_ecu with
      | Some _ =>
          try_except
            (success <- on_protocol target_ecu disconnect ;;
             active <- gets _active_ecu ;;
             (if success && bool_decide (Some target_ecu = active)
              then modify (set_active None)
              else ret tt) ;;
             ret success)
            (fun _ => ret false) s
      | None => (Ok true, s)
      end
  end.

Definition get_active_protocol (s : t) : option protocol :=
  match _active_ecu s with
  | Some e => _protocols s !! e
  | None => None
  end.

Definition is_connected (ecu_type : option ECUType) (s : t) : bool :=
  match target ecu_type s with
  | Some target_ecu =>
      match _protocols s !! target_ecu with
      | Some o => connected o
      | None => false
      end
  | None => false
  end.

End ECUManager.

(** ** The bridge ([bridge/__init__.py]) *)

Module ECUBridge.

Record ECUSession : Type := {
  session_ecu_type : ECUType;
  session_config : ECUConfig;
  info : gmap string pyval;
  connected_at : Q
}.

Record t : Type := {
  manager : ECUManager.t;
  sessions : gmap ECUType ECUSession
}.

Definition set_manager (m : ECUManager.t) (b : t) : t :=
  {| manager := m; sessions := sessions b |}.
Definition set_sessions (ss : gmap ECUType ECUSession) (b : t) : t :=
  {| manager := manager b; sessions := ss |}.

Definition mgr {A} (m : M ECUManager.t A) : M t A := zoom manager set_manager m.

(** [__init__] with [_initialize_protocols]; the wires stand for the
    devices behind the three placeholder ports. *)
Definition init (bosch_wire : Wire) (siemens_can : CanWire) (siemens_wire : Wire)
    (denso_wire : Wire) : t :=
  let bosch_config :=
    {| ecu_type := BOSCH_ME17; connection_type := SERIAL; port := "/dev/ttyUSB0";
       baud_rate := 38400; can_bitrate := 500000; timeout := 5 # 1; retries := 3 |} in
  let siemens_config :=
    {| ecu_type := SIEMENS_MSV; connection_type := CAN_BUS; port := "can0";
       baud_rate := 38400; can_bitrate := 500000; timeout := 5 # 1; retries := 3 |} in
  let denso_config :=
    {| ecu_type := DENSO_SH705X; connection_type := SERIAL; port := "/dev/ttyUSB1";
       baud_rate := 19200; can_bitrate := 500000; timeout := 5 # 1; retries := 3 |} in
  {| manager :=
       {| ECUManager._protocols :=
            <[DENSO_SH705X := PDenso (Denso.init denso_config denso_wire)]>
            (<[SIEMENS_MSV := PSiemens (Siemens.init siemens_config siemens_can siemens_wire)]>
            (<[BOSCH_ME17 := PBosch (Bosch.init bosch_config bosch_wire)]> ∅));
          ECUManager._active_ecu := None |};
     sessions := ∅ |}.

(** [now] is what [time.time()] returns. *)
Definition connect (now : Q) (ecu_type : ECUType) : M t bool :=
  try_except
    (ok <- mgr (ECUManager.connect_ecu ecu_type) ;;
     if ok then
       active <- gets (fun b => ECUManager._active_ecu (manager b)) ;;
       protocol <- gets (fun b => ECUManager.get_active_protocol (manager b)) ;;
       match active, protocol with
       | Some a, Some _ =>
           ecu_info <- mgr (ECUManager.on_protocol a get_ecu_info) ;;
           o <- gets (fun b => ECUManager.get_active_protocol (manager b)) ;;
           match o with
           | Some o =>
               let session :=
                 {| session_ecu_type := ecu_type; session_config := config o;
                    info := ecu_info; connected_at := now |} in
               modify (fun b => set_sessions (<[ecu_type := session]> (sessions b)) b) ;;
               ret true
           | None => ret false
           end
       | _, _ => ret false
       end
     else ret false)
    (fun _ => ret false).

Definition disconnect (ecu_type : option ECUType) : M t bool :=
  try_except
    (success <- mgr (ECUManager.disconnect_ecu ecu_type) ;;
     target_ecu <- gets (fun b => ECUManager.target ecu_type (manager b)) ;;
     (match target_ecu with
      | Some e =>
          modify (fun b => match sessions b !! e with
                           | Some _ => set_sessions (delete e (sessions b)) b
                           | None => b
                           end)
      | None => ret tt
      end) ;;
     ret success)
    (fun _ => ret false).

(** [_get_protocol]: the key of the object a call is routed to. *)
Definition _get_protocol (ecu_type : option ECUType) (b : t) : option ECUType :=
  match ecu_type with
  | Some e => match ECUManager._protocols (manager b) !! e with
              | Some _ => Some e
              | None => None
              end
  | None => match ECUManager.get_active_protocol (manager b) with
            | Some _ => ECUManager._active_ecu (manager b)
            | None => None
            end
  end.

Definition read_memory (address length : Z) (ecu_type : option ECUType) : M t bytes :=
  fun b => match _get_protocol ecu_type b with
           | None => (Raise NoActiveConnection, b)
           | Some k => mgr (ECUManager.on_protocol k (read_data address length)) b
           end.

Definition write_memory (address : Z) (payload : bytes) (ecu_type : option ECUType)
  : M t bool :=
  fun b => match _get_protocol ecu_type b with
           | None => (Raise NoActiveConnection, b)
           | Some k => mgr (ECUManager.on_protocol k (write_data address payload)) b
           end.

Definition get_ecu_info (ecu_type : option ECUType) : M t (gmap string pyval) :=
  fun b => match _get_protocol ecu_type b with
           | None => (Ok ∅, b)
           | Some k => mgr (ECUManager.on_protocol k get_ecu_info) b
           end.

Definition get_diagnostic_codes (ecu_type : option ECUType) : M t (list string) :=
  fun b => match _get_protocol ecu_type b with
           | None => (Ok [], b)
           | Some k => mgr (ECUManager.on_protocol k get_dtc_codes) b
           end.

Definition clear_diagnostic_codes (ecu_type : option ECUType) : M t bool :=
  fun b => match _get_protocol ecu_type b with
           | None => (Ok false, b)
           | Some k => mgr (ECUManager.on_protocol k clear_dtc_codes) b
           end.

Definition is_connected (ecu_type : option ECUType) (b : t) : bool :=
  ECUManager.is_connected ecu_type (manager b).

(** [configure_ecu]: a new protocol object of the class of [ecu_type]
    replaces the registered one; [w] and [cw] stand for the devices
    behind the port of the new configuration. *)
Definition configure_ecu (ecu_type : ECUType) (c : ECUConfig) (w : Wire) (cw : CanWire)
  : M t bool :=
  try_except
    (let protocol :=
       match ecu_type with
       | BOSCH_ME17 => PBosch (Bosch.init c w)
       | SIEMENS_MSV => PSiemens (Siemens.init c cw w)
       | DENSO_SH705X => PDenso (Denso.init c w)
       end in
     mgr (ECUManager.register_protocol ecu_type protocol) ;;
     ret true)
    (fun _ => ret false).

Definition get_active_session (b : t) : option ECUSession :=
  match ECUManager._active_ecu (manager b) with
  | Some active_ecu => sessions b !! active_ecu
  | None => None
  end.

(** [list_sessions]: a copy of the session table. *)
Definition list_sessions (b : t) : gmap ECUType ECUSession := sessions b.

End ECUBridge.

(** ** Address validation and the memory maps ([utils/__init__.py]) *)

Definition validate_address_range (address length : Z) (valid_ranges : list (Z * Z)) : bool :=
  let end_address := address + length - 1 in
  existsb (fun '(start, end_) =>
             (start <=? address) && (address <=? end_) &&
             (start <=? end_address) && (end_address <=? end_))
          valid_ranges.

Record ECUMemoryRegion : Type := {
  name : string;
  start : Z;
  size : Z;
  access : string;
  description : string
}.

(** [self.end = start + size - 1] *)
Definition region_end (r : ECUMemoryRegion) : Z := start r + size r - 1.

Definition BOSCH_ME17_MEMORY_MAP : list ECUMemoryRegion := [
  {| name := "Internal Flash"; start := 0x00000000; size := 0x200000; access := "RW";
     description := "Main program storage" |};
  {| name := "External Flash"; start := 0x00200000; size := 0x400000; access := "RW";
     description := "Calibration data" |};
  {| name := "RAM"; start := 0x50000000; size := 0x40000; access := "RW";
     description := "Runtime variables" |};
  {| name := "Boot ROM"; start := 0x1FFF0000; size := 0x10000; access := "R";
     description := "Boot loader" |} ].

Definition SIEMENS_MSV_MEMORY_MAP : list ECUMemoryRegion := [
  {| name := "Flash Bank 1"; start := 0x00000000; size := 0x100000; access := "RW";
     description := "Program code" |};
  {| name := "Flash Bank 2"; start := 0x00100000; size := 0x100000; access := "RW";
     description := "Calibration" |};
  {| name := "RAM"; start := 0x40000000; size := 0x20000; access := "RW";
     description := "Working memory" |};
  {| name := "EEPROM"; start := 0x08000000; size := 0x4000; access := "RW";
     description := "Configuration data" |} ].

Definition DENSO_SH705X_MEMORY_MAP : list ECUMemoryRegion := [
  {| name := "ROM"; start := 0x00000000; size := 0x80000; access := "RW";
     description := "Program ROM" |};
  {| name := "RAM"; start := 0x05FFFF00; size := 0x4000; access := "RW";
     description := "System RAM" |};
  {| name := "EEPROM"; start := 0x00FE0000; size := 0x2000; access := "RW";
     description := "Data EEPROM" |};
  {| name := "I/O"; start := 0x05FFE000; size := 0x1000; access := "RW";
     description := "I/O registers" |} ].

(** The [(start, end)] pairs of a memory map, as [validate_address_range]
    takes them. *)
Definition ranges_of (m : list ECUMemoryRegion) : list (Z * Z) :=
  map (fun r => (start r, region_end r)) m.

Definition memory_map (family : ECUType) : list ECUMemoryRegion :=
  match family with
  | BOSCH_ME17 => BOSCH_ME17_MEMORY_MAP
  | SIEMENS_MSV => SIEMENS_MSV_MEMORY_MAP
  | DENSO_SH705X => DENSO_SH705X_MEMORY_MAP
  end.

(** ** Checksums, DTC texts and strings ([utils/__init__.py]) *)

(** [ECUMemoryRegion.contains] *)
Definition region_contains (r : ECUMemoryRegion) (address : Z) : bool :=
  (start r <=? address) && (address <=? region_end r).

(** [f"{n:0wX}"] for any integer: the sign takes one of the [w] places. *)
Definition format_hex_int (upper : bool) (w : nat) (n : Z) : string :=
  if n <? 0 then String "-" (format_hex upper (w - 1) (- n)) else format_hex upper w n.

Definition parse_dtc_code (code : Z) (format_type : string) : string :=
  if String.eqb format_type "standard" then
    let prefixes := ["P"; "C"; "B"; "U"]%char in
    let prefix := nth (Z.to_nat (Z.land (Z.shiftr code 14) 0x03)) prefixes "?"%char in
    String prefix (format_hex_int true 4 (Z.land code 0x3FFF))
  else if String.eqb format_type "bosch" then
    String "P" (format_hex_int true 4 code)
  else if String.eqb format_type "denso" then
    let prefixes := ["P"; "C"; "B"; "U"]%char in
    let prefix := nth (Z.to_nat (Z.land (Z.shiftr code 14) 0x03)) prefixes "?"%char in
    String prefix (format_hex_int true 4 (Z.land code 0x3FFF))
  else format_hex_int true 4 code.

(** One turn of the inner loop of the CRC-8: shift, reduce by the
    polynomial [0x07] when the top bit was set, keep eight bits. *)
Definition crc8_shift (crc : Z) : Z :=
  let crc := if negb (Z.land crc 0x80 =? 0) then Z.lxor (Z.shiftl crc 1) 0x07
             else Z.shiftl crc 1 in
  Z.land crc 0xFF.

(** One turn of the outer loop: the byte is folded in, then eight shifts. *)
Definition crc8_byte (crc byte : Z) : Z := Nat.iter 8 crc8_shift (Z.lxor crc byte).

Definition calculate_checksum (data : bytes) (algorithm : string) : res Z :=
  if String.eqb algorithm "sum" then Ok (Z.land (sum data) 0xFF)
  else if String.eqb algorithm "xor" then Ok (foldl Z.lxor 0 data)
  else if String.eqb algorithm "sum_complement" then Ok ((256 - (sum data mod 256)) mod 256)
  else if String.eqb algorithm "crc8" then Ok (foldl crc8_byte 0 data)
  else Raise ValueError.

(** A slice bound as Python normalises it for a sequence of length [n]. *)
Definition clamp_index (n i : Z) : Z :=
  if i <? 0 then Z.max (i + n) 0 else Z.min i n.

(** [l[i:j]] for any integers [i] and [j] *)
Definition py_slice {A} (l : list A) (i j : Z) : list A :=
  let i' := clamp_index (len l) i in
  let j' := clamp_index (len l) j in
  take (Z.to_nat (j' - i')) (drop (Z.to_nat i') l).

(** [l[i]] for any integer [i]: a negative index counts from the end. *)
Definition py_item (l : list Z) (i : Z) : res Z :=
  let k := if i <? 0 then i + len l else i in
  if (0 <=? k) && (k <? len l) then Ok (nth (Z.to_nat k) l 0) else Raise IndexError.

(** The loop of [extract_ascii_string] that looks for the terminator:
    the new value of [end]. *)
Fixpoint find_terminator (data : bytes) (indices : list Z) (end_ : Z) : res Z :=
  match indices with
  | [] => Ok end_
  | i :: indices' =>
      match py_item data i with
      | Raise e => Raise e
      | Ok b => if b =? 0 then Ok i else find_terminator data indices' end_
      end
  end.

Definition extract_ascii_string (data : bytes) (offset : Z) (max_length : option Z)
  : res string :=
  let start := offset in
  let end_ :=
    match max_length with
    | Some m => if m =? 0 then len data else offset + m
    | None => len data
    end in
  match find_terminator data (py_range start (Z.min end_ (len data)) 1) end_ with
  | Raise e => Raise e
  | Ok end_ =>
      let string_data := py_slice data start end_ in
      Ok (string_of_chars (strip (decode_ascii_ignore string_data)))
  end.

(** * Definitions used to state the properties *)

(** The link [l] with [r] left on the wire. *)
Definition link_rx (r : list (option Z)) (l : SerialLink) : SerialLink :=
  {| handle := handle l; wire := set_rx r (wire l) |}.

(** The link [l] after [frames] were written. *)
Definition link_tx (frames : list bytes) (l : SerialLink) : SerialLink :=
  {| handle := handle l;
     wire := {| present := present (wire l); rx := rx (wire l);
                tx := tx (wire l) ++ frames |} |}.

(** Computations that only consume from the wire. *)
Definition rx_only {A} (m : M SerialLink A) : Prop :=
  forall l, exists r, snd (m l) = link_rx r l.

(** [m] leaves the flag as it is. *)
Definition keeps {S A} (flag : S -> bool) (m : M S A) : Prop :=
  forall s, flag (snd (m s)) = flag s.

(** When [m] returns a value that [ok] accepts, the flag is set. *)
Definition sets {S A} (flag : S -> bool) (ok : A -> bool) (m : M S A) : Prop :=
  forall s a s', m s = (Ok a, s') -> ok a = true -> flag s' = true.

Module DensoSpec.
Import Denso.

(** The object [p] with [r] left on its wire. *)
Definition with_rx (r : list (option Z)) (p : t) : t := set_link (link_rx r (link p)) p.

(** The object [p] after [frames] were written on its wire. *)
Definition with_tx (frames : list bytes) (p : t) : t := set_link (link_tx frames (link p)) p.

(** Everything written on the wire of [p] so far. *)
Definition sent (p : t) : list bytes := tx (wire (link p)).

(** The opcode [read_data] and [write_data] choose for an address. *)
Definition read_command (address : Z) : Z :=
  if (ROM_BASE <=? address) && (address <? RAM_BASE) then CMD_READ_ROM
  else if RAM_BASE <=? address then CMD_READ_RAM
  else CMD_READ_ROM.

Definition write_command (address : Z) : Z :=
  if (ROM_BASE <=? address) && (address <? RAM_BASE) then CMD_WRITE_ROM
  else if RAM_BASE <=? address then CMD_WRITE_RAM
  else CMD_WRITE_RAM.

(** A frame as it travels on the wire. *)
Definition framed (body : bytes) : bytes :=
  [0x02; len body] ++ body ++ [_calculate_checksum body; 0x03].

Definition read_request (address length : Z) : bytes :=
  framed (read_command address :: be_bytes 4 address ++ be_bytes 2 length).

(** The sector address [_erase_sector] computes. *)
Definition sector_of (address : Z) : Z := Z.land address (Z.lnot (0x1000 - 1)).

Definition erase_frame (address : Z) : bytes :=
  framed (CMD_ERASE_SECTOR :: be_bytes 4 (sector_of address)).

Definition write_frame (address : Z) (payload : bytes) : bytes :=
  framed (write_command address
            :: be_bytes 4 address ++ be_bytes 2 (len payload) ++ payload).

Definition checksum_request (address length : Z) : bytes :=
  framed (CMD_CHECKSUM :: be_bytes 4 address ++ be_bytes 2 length).

(** What [write_data] does after the optional erase. *)
Definition write_tail (address : Z) (payload : bytes) : M t bool :=
  try_except
    (addr_bytes <- lift_res (struct_pack_I address) ;;
     len_bytes <- lift_res (struct_pack_H (len payload)) ;;
     let command_data := addr_bytes ++ len_bytes ++ payload in
     frame <- lift_res (_build_frame (write_command address) command_data) ;;
     io (ser_write frame) ;;
     response <- _read_response ;;
     if head_is response RESP_ACK then
       ok <- _verify_checksum address (len payload) ;;
       if ok then ret true else ret false
     else if head_is response RESP_NAK then ret false
     else ret false)
    (fun _ => ret false).
End DensoSpec.

Module BoschSpec.
Import Bosch.

Definition with_rx (r : list (option Z)) (p : t) : t := set_link (link_rx r (link p)) p.
Definition with_tx (frames : list bytes) (p : t) : t := set_link (link_tx frames (link p)) p.
Definition sent (p : t) : list bytes := tx (wire (link p)).

(** A frame as it travels on the wire. *)
Definition framed (payload : bytes) : bytes :=
  [len payload] ++ payload ++ [Z.land (sum payload + len payload) 0xFF].

Definition read_request (address length : Z) : bytes :=
  framed (CMD_READ_MEMORY ++ be_bytes 3 address ++ be_bytes 2 length).

Definition write_request (address : Z) (payload : bytes) : bytes :=
  framed (CMD_WRITE_MEMORY ++ be_bytes 3 address ++ payload).
End BoschSpec.

Module SiemensSpec.
Import Siemens.

(** Everything sent on the CAN channel of [p] so far. *)
Definition can_sent (p : t) : list CanMessage := can_tx (can_wire (can p)).

Definition read_msg (address : Z) : CanMessage :=
  let data_id := Z.land (Z.shiftr address 8) 0xFFFF in
  Message REQUEST_ID
    [0x03; CMD_READ_DATA; Z.land (Z.shiftr data_id 8) 0xFF; Z.land data_id 0xFF].

Definition write_msg (address : Z) (payload : bytes) : CanMessage :=
  let data_id := Z.land (Z.shiftr address 8) 0xFFFF in
  Message REQUEST_ID
    ([len payload + 3; CMD_WRITE_DATA; Z.land (Z.shiftr data_id 8) 0xFF; Z.land data_id 0xFF]
       ++ payload).
End SiemensSpec.

(** ** The DTC codec *)

(** The four (two) uppercase hexadecimal digits of a number below
    [16 ^ 4] ([16 ^ 2]). *)
Definition hex4 (n : Z) : string :=
  string_of_chars [hex_char true (n / 4096 mod 16); hex_char true (n / 256 mod 16);
                   hex_char true (n / 16 mod 16); hex_char true (n mod 16)].
Definition hex2 (n : Z) : string :=
  string_of_chars [hex_char true (n / 16 mod 16); hex_char true (n mod 16)].

(** The complete 2-byte big-endian codes of a byte sequence. *)
Fixpoint be16_codes (data : bytes) : list Z :=
  match data with
  | hi :: lo :: rest => Z.lor (Z.shiftl hi 8) lo :: be16_codes rest
  | _ => []
  end.

(** The complete 3-byte records of a byte sequence: a high byte and a
    16-bit big-endian low part. *)
Fixpoint be24_codes (data : bytes) : list (Z * Z) :=
  match data with
  | high :: mid :: low :: rest => (high, Z.lor (Z.shiftl mid 8) low) :: be24_codes rest
  | _ => []
  end.

(** The letter for the top two bits of a 16-bit code. *)
Definition dtc_letter (code : Z) : ascii :=
  match code / 16384 with
  | 0 => "P"
  | 1 => "C"
  | 2 => "B"
  | _ => "U"
  end%char.

(** The text the specification gives a code: the letter of its top two
    bits, then its low 14 bits as four uppercase hexadecimal digits. *)
Definition dtc_text (code : Z) : string := String (dtc_letter code) (hex4 (code mod 16384)).

(** The text the Bosch implementation gives a code. *)
Definition bosch_dtc_text (code : Z) : string := String "P" (hex4 code).

(** The text the Siemens implementation gives a 3-byte record. *)
Definition siemens_dtc_text (c : Z * Z) : string :=
  String "P" (String.append (hex2 (fst c)) (hex4 (snd c))).

(** One turn of a loop over 2-byte codes; [g] is what a code contributes. *)
Definition pair_step (g : Z -> option string) (data : bytes) (acc : list string) (i : Z)
  : list string :=
  if i + 1 <? len data then
    match g (Z.lor (Z.shiftl (item data i) 8) (item data (i + 1))) with
    | Some s => acc ++ [s]
    | None => acc
    end
  else acc.

(** One turn of a loop over 3-byte records. *)
Definition triple_step (h : Z * Z -> string) (data : bytes) (acc : list string) (i : Z)
  : list string :=
  if i + 2 <? len data then
    acc ++ [h (item data i, Z.lor (Z.shiftl (item data (i + 1)) 8) (item data (i + 2)))]
  else acc.


(** ** The coordinator *)





(** ** Observations of an object and of a computation *)

(** [m] leaves the observation [f] of the state as it is. *)
Definition preserves {S A X} (f : S -> X) (m : M S A) : Prop :=
  forall s, f (snd (m s)) = f s.

(** A protocol object as its constructor leaves it; [w] and [cw] stand
    for the devices behind its port. *)
Definition fresh_protocol (ecu_type : ECUType) (c : ECUConfig) (w : Wire) (cw : CanWire)
  : protocol :=
  match ecu_type with
  | BOSCH_ME17 => PBosch (Bosch.init c w)
  | SIEMENS_MSV => PSiemens (Siemens.init c cw w)
  | DENSO_SH705X => PDenso (Denso.init c w)
  end.

(** Whether the device behind a protocol object can be opened, and
    whether the object holds an open transport. *)
Definition transport_present (o : protocol) : bool :=
  match o with
  | PBosch p => present (wire (Bosch.link p))
  | PSiemens p =>
      match connection_type (Siemens.cfg p) with
      | CAN_BUS => can_present (can_wire (Siemens.can p))
      | SERIAL => present (wire (Siemens.link p))
      | _ => false
      end
  | PDenso p => present (wire (Denso.link p))
  end.

Definition transport_open (o : protocol) : bool :=
  match o with
  | PBosch p => ser_is_open (Bosch.link p)
  | PSiemens p => bus (Siemens.can p) || ser_is_open (Siemens.link p)
  | PDenso p => ser_is_open (Denso.link p)
  end.

(** The calls of the protocol interface, and the object after a call. *)
Inductive call : Type :=
| Connect
| Disconnect
| ReadData (address length : Z)
| WriteData (address : Z) (payload : bytes)
| GetEcuInfo
| GetDtcCodes
| ClearDtcCodes.

Definition after (o : protocol) (c : call) : protocol :=
  match c with
  | Connect => snd (connect o)
  | Disconnect => snd (disconnect o)
  | ReadData address length => snd (read_data address length o)
  | WriteData address payload => snd (write_data address payload o)
  | GetEcuInfo => snd (get_ecu_info o)
  | GetDtcCodes => snd (get_dtc_codes o)
  | ClearDtcCodes => snd (clear_dtc_codes o)
  end.

Module DensoObs.
Import Denso.

(** The port handle of the object. *)
Definition port (p : t) : option SerialHandle := handle (link p).

(** What [read_data] makes of the response it has read. *)
Definition read_outcome (response : bytes) : res bytes :=
  match response with
  | [] => Raise NoResponse
  | r0 :: _ =>
      if r0 =? RESP_DATA then
        match struct_unpack_H (slice response 1 3) with
        | Ok data_length =>
            if 3 + data_length <=? len response
            then Ok (slice response 3 (3 + data_length))
            else Raise IncompleteData
        | Raise e => Raise e
        end
      else if r0 =? RESP_NAK then
        Raise (DeviceNAK (if 1 <? len response then Some (item response 1) else None))
      else Raise (UnexpectedResponse r0)
  end.
End DensoObs.

Module BoschObs.
Import Bosch.

(** The port handle of the object. *)
Definition port (p : t) : option SerialHandle := handle (link p).
End BoschObs.

Module SiemensObs.
Import Siemens.

(** The port handle of the object, and whether it holds a CAN bus. *)
Definition port (p : t) : option SerialHandle := handle (link p).
Definition has_bus (p : t) : bool := bus (can p).
End SiemensObs.

Module SiemensFrames.
Import Siemens.

(** The object with [r] left on its CAN channel, and after [msgs] were
    sent on it. *)
Definition with_can_rx (r : list (option CanMessage)) (p : t) : t :=
  set_can {| bus := bus (can p);
             can_wire := {| can_present := can_present (can_wire (can p));
                            can_rx := r;
                            can_tx := can_tx (can_wire (can p)) |} |} p.

Definition with_can_tx (msgs : list CanMessage) (p : t) : t :=
  set_can {| bus := bus (can p);
             can_wire := {| can_present := can_present (can_wire (can p));
                            can_rx := can_rx (can_wire (can p));
                            can_tx := can_tx (can_wire (can p)) ++ msgs |} |} p.

(** The flow-control message sent after a first frame. *)
Definition flow_control : CanMessage :=
  Message REQUEST_ID [0x30; 0x00; 0x00; 0x00; 0x00; 0x00; 0x00; 0x00].

(** A first frame and a consecutive frame of a segmented response, as
    the reader tells them apart. *)
Definition is_first (m : CanMessage) : Prop :=
  arbitration_id m = RESPONSE_ID /\
  exists d0 d1 more, data m = d0 :: d1 :: more /\ Z.land d0 0xF0 = 0x10.

Definition is_consecutive (m : CanMessage) : Prop :=
  arbitration_id m = RESPONSE_ID /\
  exists d0 more, data m = d0 :: more /\ Z.land d0 0xF0 = 0x20.

(** The bytes the reader takes from a first frame followed by
    consecutive frames. *)
Definition assembled (first : CanMessage) (consecutive : list CanMessage) : bytes :=
  slice_from (data first) 4 ++ concat (map (fun m => slice_from (data m) 1) consecutive).
End SiemensFrames.

(** The inverse of one shift of the CRC-8 on a byte. *)
Definition crc8_unshift (y : Z) : Z :=
  if Z.odd y then Z.lor (Z.shiftr (Z.lxor y 0x07) 1) 0x80 else Z.shiftr y 1.
Module SiemensSerial.
Import Siemens.

(** The object with [r] left on its serial wire, and after [frames] were
    written on it. *)
Definition with_rx (r : list (option Z)) (p : t) : t := set_link (link_rx r (link p)) p.
Definition with_tx (frames : list bytes) (p : t) : t := set_link (link_tx frames (link p)) p.

(** The read request as it travels on the serial line. *)
Definition read_request (address : Z) : bytes :=
  let data_id := Z.land (Z.shiftr address 8) 0xFFFF in
  let command := [0x03; CMD_READ_DATA; Z.land (Z.shiftr data_id 8) 0xFF; Z.land data_id 0xFF] in
  command ++ [_calculate_checksum command].
End SiemensSerial.

(** The bytes of [l] that come before its first zero byte. *)
Fixpoint until_nul (l : bytes) : bytes :=
  match l with
  | [] => []
  | b :: l' => if b =? 0 then [] else b :: until_nul l'
  end.

(** The part of [data] that [extract_ascii_string] looks at: from
    [offset], at most [max_length] bytes when a length other than zero
    is given. *)
Definition ascii_window (data : bytes) (offset : Z) (max_length : option Z) : bytes :=
  match max_length with
  | Some m => if m =? 0 then slice_from data offset else slice data offset (offset + m)
  | None => slice_from data offset
  end.

(** ** Scenarios: connected sessions over scripted devices *)

Definition denso_config : ECUConfig :=
  {| ecu_type := DENSO_SH705X; connection_type := SERIAL; port := "/dev/ttyUSB1";
     baud_rate := 19200; can_bitrate := 500000; timeout := 5 # 1; retries := 3 |}.

Definition bosch_config : ECUConfig :=
  {| ecu_type := BOSCH_ME17; connection_type := SERIAL; port := "/dev/ttyUSB0";
     baud_rate := 38400; can_bitrate := 500000; timeout := 5 # 1; retries := 3 |}.

Definition siemens_config : ECUConfig :=
  {| ecu_type := SIEMENS_MSV; connection_type := CAN_BUS; port := "can0";
     baud_rate := 38400; can_bitrate := 500000; timeout := 5 # 1; retries := 3 |}.

Definition open_link (script : list (option Z)) : SerialLink :=
  {| handle := Some {| is_open := true; ser_timeout := 5 # 1 |};
     wire := {| present := true; rx := script; tx := [] |} |}.

(** A connected Denso object whose device will send [script]. *)
Definition denso_session (script : list (option Z)) : Denso.t :=
  {| Denso.cfg := denso_config; Denso.is_connected := true;
     Denso.link := open_link script; Denso._session_active := true |}.

(** A connected Bosch object whose device will send [script]. *)
Definition bosch_session (script : list (option Z)) : Bosch.t :=
  {| Bosch.cfg := bosch_config; Bosch.is_connected := true;
     Bosch.link := open_link script |}.

(** A Siemens object connected over CAN whose device will send [script]. *)
Definition siemens_session (script : list (option CanMessage)) : Siemens.t :=
  {| Siemens.cfg := siemens_config; Siemens.is_connected := true;
     Siemens.can := {| bus := true;
                       can_wire := {| can_present := true; can_rx := script; can_tx := [] |} |};
     Siemens.link := {| handle := None; wire := {| present := true; rx := []; tx := [] |} |};
     Siemens._sequence_number := 0x21 |}.

(** A Denso frame sent by the device. *)
Definition denso_reply (body : bytes) : list (option Z) :=
  map Some ([0x02; len body] ++ body ++ [Denso._calculate_checksum body; 0x03]).

(** A Bosch frame sent by the device. *)
Definition bosch_reply (payload : bytes) : list (option Z) :=
  map Some ([len payload] ++ payload ++ [Z.land (sum payload + len payload) 0xFF]).

(** Devices that send nothing, and the bridge over them as [__init__]
    leaves it. *)
Definition idle_wire : Wire := {| present := true; rx := []; tx := [] |}.
Definition idle_can : CanWire := {| can_present := true; can_rx := []; can_tx := [] |}.
Definition idle_bridge : ECUBridge.t := ECUBridge.init idle_wire idle_can idle_wire idle_wire.

(** A bridge whose Bosch and Denso devices answer the connection
    sequence. *)
Definition two_device_bridge : ECUBridge.t :=
  ECUBridge.init {| present := true; rx := bosch_reply [0x50]; tx := [] |}
                 idle_can idle_wire
                 {| present := true;
                    rx := denso_reply [Denso.RESP_ACK] ++ denso_reply [Denso.RESP_ACK];
                    tx := [] |}.

Definition siemens_serial_config : ECUConfig :=
  {| ecu_type := SIEMENS_MSV; connection_type := SERIAL; port := "/dev/ttyUSB2";
     baud_rate := 38400; can_bitrate := 500000; timeout := 5 # 1; retries := 3 |}.

(** A Siemens object connected over the serial line whose device will
    send [script]. *)
Definition siemens_serial_session (script : list (option Z)) : Siemens.t :=
  {| Siemens.cfg := siemens_serial_config; Siemens.is_connected := true;
     Siemens.can := {| bus := false; can_wire := idle_can |};
     Siemens.link := open_link script;
     Siemens._sequence_number := 0x21 |}.

(** * Properties *)

(** ** Facts about the monad and the serial transport *)

(** Unfolding of the monad's operations in a goal. *)
Ltac run :=
  unfold bind, ret, raise, try_except, lift_res, gets, modify, zoom; simpl.

Lemma link_rx_id l : link_rx (rx (wire l)) l = l.
Proof. now destruct l as [h [pr r t]]. Qed.

Lemma link_rx_rx r r' l : link_rx r' (link_rx r l) = link_rx r' l.
Proof. reflexivity. Qed.

Lemma ser_read_rx n l : exists r, snd (ser_read n l) = link_rx r l.
Proof.
  destruct l as [[h|] [pr r t]]; unfold ser_read, link_rx; simpl.
  - destruct (is_open h).
    + destruct (take_bytes _ _) as [bs r']. now exists r'.
    + now exists r.
  - now exists r.
Qed.

Lemma ser_read_open n l :
  ser_is_open l = true ->
  ser_read n l = (Ok (fst (take_bytes (Z.to_nat n) (rx (wire l)))),
                  link_rx (snd (take_bytes (Z.to_nat n) (rx (wire l)))) l).
Proof.
  destruct l as [[h|] w]; unfold ser_is_open, ser_read, link_rx; simpl; [|discriminate].
  intros ->. now destruct (take_bytes _ _).
Qed.

Lemma ser_write_open d l :
  ser_is_open l = true -> ser_write d l = (Ok tt, link_tx [d] l).
Proof.
  destruct l as [[h|] w]; unfold ser_is_open, ser_write, link_tx; simpl; [|discriminate].
  now intros ->.
Qed.

Lemma take_bytes_app (l : bytes) (rest : list (option Z)) :
  take_bytes (length l) (map Some l ++ rest) = (l, rest).
Proof. induction l as [|b l IH]; simpl; [reflexivity | now rewrite IH]. Qed.

Lemma take_bytes_short n (l : bytes) :
  (length l < n)%nat -> take_bytes n (map Some l) = (l, []).
Proof.
  revert n. induction l as [|b l IH]; intros [|n] H; simpl in *; try lia; try reflexivity.
  rewrite IH by lia. reflexivity.
Qed.

Lemma rx_only_ret {A} (a : A) : rx_only (ret a).
Proof. intros l. exists (rx (wire l)). simpl. now rewrite link_rx_id. Qed.

Lemma rx_only_gets {A} (f : SerialLink -> A) : rx_only (gets f).
Proof. intros l. exists (rx (wire l)). simpl. now rewrite link_rx_id. Qed.

Lemma rx_only_read n : rx_only (ser_read n).
Proof. intros l. apply ser_read_rx. Qed.

Lemma rx_only_bind {A B} (m : M SerialLink A) (k : A -> M SerialLink B) :
  rx_only m -> (forall a, rx_only (k a)) -> rx_only (bind m k).
Proof.
  intros Hm Hk l. unfold bind. destruct (Hm l) as [r Hr].
  destruct (m l) as [[a|e] l1]; simpl in Hr; subst l1.
  - destruct (Hk a (link_rx r l)) as [r' Hr']. exists r'. now rewrite Hr'.
  - now exists r.
Qed.

Lemma rx_only_if {A} (b : bool) (m1 m2 : M SerialLink A) :
  rx_only m1 -> rx_only m2 -> rx_only (if b then m1 else m2).
Proof. now destruct b. Qed.

Create HintDb rx.
#[local] Hint Resolve rx_only_ret rx_only_gets rx_only_read rx_only_bind rx_only_if : rx.


Lemma struct_pack_I_ok v : 0 <= v < 2 ^ 32 -> struct_pack_I v = Ok (be_bytes 4 v).
Proof.
  intros H. unfold struct_pack_I.
  destruct (Z.leb_spec 0 v); [|lia]. destruct (Z.ltb_spec v (2 ^ 32)); [|lia]. reflexivity.
Qed.

Lemma struct_pack_H_ok v : 0 <= v < 2 ^ 16 -> struct_pack_H v = Ok (be_bytes 2 v).
Proof.
  intros H. unfold struct_pack_H.
  destruct (Z.leb_spec 0 v); [|lia]. destruct (Z.ltb_spec v (2 ^ 16)); [|lia]. reflexivity.
Qed.

Lemma to_bytes_big_ok n v :
  0 <= v < 2 ^ (8 * Z.of_nat n) -> to_bytes_big n v = Ok (be_bytes n v).
Proof.
  intros H. unfold to_bytes_big.
  destruct (Z.leb_spec 0 v); [|lia].
  destruct (Z.ltb_spec v (2 ^ (8 * Z.of_nat n))); [|lia]. reflexivity.
Qed.

Lemma byte_of_ok x : 0 <= x < 256 -> byte_of x = Ok x.
Proof.
  intros H. unfold byte_of.
  destruct (Z.leb_spec 0 x); [|lia]. destruct (Z.ltb_spec x 256); [|lia]. reflexivity.
Qed.

Lemma item_app_r (l1 l2 : bytes) (i : Z) :
  len l1 <= i -> item (l1 ++ l2) i = item l2 (i - len l1).
Proof.
  unfold item, len. intros H. rewrite app_nth2 by lia. f_equal. lia.
Qed.

Lemma slice_app_exact {A} (l1 l2 : list A) : slice (l1 ++ l2) 0 (len l1) = l1.
Proof.
  unfold slice, len. rewrite Z.sub_0_r, Nat2Z.id.
  change (Z.to_nat 0) with 0%nat. rewrite drop_0. apply take_app_length.
Qed.

Lemma handle_eta (h : SerialHandle) :
  {| is_open := is_open h; ser_timeout := ser_timeout h |} = h.
Proof. now destruct h. Qed.

(** ** Denso: the response reader, the memory requests and the codec *)

Module DensoFacts.
Import Denso DensoSpec.


Lemma find_stx_rx fuel : rx_only (find_stx fuel).
Proof.
  induction fuel as [|fuel IH]; simpl; auto with rx.
  apply rx_only_bind; auto with rx.
  intros [|b bs]; auto with rx.
Qed.

Lemma read_frame_rx : rx_only read_frame.
Proof.
  unfold read_frame.
  apply rx_only_bind; auto with rx. intros n.
  apply rx_only_bind; [apply find_stx_rx|]. intros found.
  apply rx_only_if; auto with rx.
  apply rx_only_bind; auto with rx. intros [|length bs]; auto 10 with rx.
Qed.

(** [_read_response] never raises and only consumes from the wire. *)
Lemma _read_response_spec (p : t) :
  exists resp r, _read_response p = (Ok resp, with_rx r p).
Proof.
  unfold _read_response. destruct (has_serial p).
  - simpl. unfold try_except, io, zoom, ret.
    destruct (read_frame_rx (link p)) as [r Hr].
    destruct (read_frame (link p)) as [[resp|e] l1]; simpl in Hr; subst l1.
    + now exists resp, r.
    + now exists [], r.
  - exists [], (rx (wire (link p))). simpl. unfold with_rx.
    rewrite link_rx_id. now destruct p.
Qed.

Lemma io_write_open d (p : t) :
  ser_is_open (link p) = true -> io (ser_write d) p = (Ok tt, with_tx [d] p).
Proof. intros H. unfold io, zoom. now rewrite (ser_write_open d _ H). Qed.


Lemma has_serial_open (p : t) : ser_is_open (link p) = true -> has_serial p = true.
Proof. unfold ser_is_open, has_serial. now destruct (handle (link p)). Qed.

Lemma _build_frame_ok command payload :
  0 <= command < 256 -> len payload < 255 ->
  _build_frame command payload =
    Ok ([0x02; len (command :: payload)] ++ (command :: payload)
          ++ [_calculate_checksum (command :: payload); 0x03]).
Proof.
  intros Hc Hl. unfold _build_frame. rewrite (byte_of_ok command Hc).
  rewrite byte_of_ok; [reflexivity|]. unfold len in *. simpl length. lia.
Qed.

Lemma read_command_byte a : 0 <= read_command a < 256.
Proof. unfold read_command. repeat case_match; cbv; split; congruence. Qed.

Lemma write_command_byte a : 0 <= write_command a < 256.
Proof. unfold write_command. repeat case_match; cbv; split; congruence. Qed.

(** Replace the next [_read_response] of the goal by its result. *)
Ltac response_step resp r :=
  match goal with
  | |- context [_read_response ?q] =>
      destruct (_read_response_spec q) as (resp & r & ->)
  end.

(** [read_data] on a connected object with an open port: the request
    frame is written whatever the address, as long as address and length
    fit their fields. *)
Lemma read_data_sends (p : t) (address length : Z) :
  is_connected p = true -> ser_is_open (link p) = true ->
  0 <= address < 2 ^ 32 -> 0 <= length < 2 ^ 16 ->
  sent (snd (read_data address length p)) = sent p ++ [read_request address length].
Proof.
  intros Hc Ho Ha Hl.
  pose proof (_build_frame_ok (read_command address)
                (be_bytes 4 address ++ be_bytes 2 length) (read_command_byte _)) as Hf.
  specialize (Hf ltac:(cbv; reflexivity)).
  unfold read_data. rewrite Hc, (has_serial_open p Ho). simpl negb. simpl orb. cbv iota.
  fold (read_command address).
  unfold try_except, bind, lift_res.
  rewrite (struct_pack_I_ok _ Ha), (struct_pack_H_ok _ Hl), Hf.
  rewrite io_write_open by exact Ho.
  response_step resp r.
  destruct resp as [|r0 rest]; [reflexivity|].
  unfold raise, ret.
  repeat case_match; simplify_eq; reflexivity.
Qed.

(** An address or a length that does not fit its field stops [read_data]
    before anything is written. *)
Lemma read_data_unencodable (p : t) (address length : Z) :
  is_connected p = true -> has_serial p = true ->
  ~ (0 <= address < 2 ^ 32) \/ ~ (0 <= length < 2 ^ 16) ->
  read_data address length p = (Raise StructError, p).
Proof.
  intros Hc Hs Hbad.
  unfold read_data. rewrite Hc, Hs. simpl negb. simpl orb. cbv iota.
  unfold try_except, bind, lift_res, raise, struct_pack_I, struct_pack_H.
  destruct (Z.leb_spec 0 address); destruct (Z.ltb_spec address (2 ^ 32));
    simpl; try reflexivity.
  destruct (Z.leb_spec 0 length); destruct (Z.ltb_spec length (2 ^ 16));
    simpl; try reflexivity.
  lia.
Qed.

Lemma sector_of_align address : sector_of address = 0x1000 * (address / 0x1000).
Proof.
  unfold sector_of. rewrite <- Z.ldiff_land.
  change (0x1000 - 1) with (Z.ones 12).
  rewrite Z.ldiff_ones_r by lia.
  rewrite Z.shiftr_div_pow2, Z.shiftl_mul_pow2 by lia.
  change (2 ^ 12) with 0x1000. lia.
Qed.

Lemma sector_of_range address :
  0 <= address -> 0 <= sector_of address <= address.
Proof.
  intros H. rewrite sector_of_align.
  pose proof (Z.mul_div_le address 0x1000 ltac:(lia)).
  pose proof (Z.div_pos address 0x1000 H ltac:(lia)). lia.
Qed.

Lemma erase_frame_build address :
  _build_frame CMD_ERASE_SECTOR (be_bytes 4 (sector_of address)) = Ok (erase_frame address).
Proof. reflexivity. Qed.

(** [_erase_sector] on an open port, for an address that fits 32 bits:
    the erase frame is written, one response is consumed, and the
    timeout is restored. *)
Lemma _erase_sector_spec (p : t) (address : Z) :
  ser_is_open (link p) = true -> 0 <= address < 2 ^ 32 ->
  exists ok r, _erase_sector address p = (Ok ok, with_rx r (with_tx [erase_frame address] p)).
Proof.
  intros Ho Ha. unfold _erase_sector.
  fold (sector_of address).
  unfold try_except, bind at 1, lift_res.
  rewrite struct_pack_I_ok by (pose proof (sector_of_range address); lia).
  unfold bind at 1. rewrite erase_frame_build.
  unfold bind at 1. rewrite io_write_open by exact Ho.
  destruct p as [c conn [[h|] w] act]; [|discriminate Ho].
  simpl in Ho. unfold bind, io, zoom, ser_get_timeout, ser_set_timeout; simpl.
  response_step resp r. simpl.
  exists (head_is resp RESP_ACK), r. unfold ret, with_rx, with_tx, link_rx, link_tx, set_link.
  simpl. now rewrite handle_eta.
Qed.

Lemma write_frame_build address payload :
  len payload <= 248 ->
  _build_frame (write_command address)
    (be_bytes 4 address ++ be_bytes 2 (len payload) ++ payload) = Ok (write_frame address payload).
Proof.
  intros H. rewrite _build_frame_ok; [reflexivity | apply write_command_byte |].
  unfold len in *. rewrite !length_app. simpl. lia.
Qed.

Lemma _erase_sector_ok (p : t) (address : Z) :
  exists ok, fst (_erase_sector address p) = Ok ok.
Proof.
  unfold _erase_sector, try_except.
  match goal with |- context [match ?m p with _ => _ end] => destruct (m p) as [[ok|e] p1] end.
  - now exists ok.
  - now exists false.
Qed.

Lemma write_data_unfold (p : t) (address : Z) (payload : bytes) :
  is_connected p = true -> has_serial p = true ->
  write_data address payload p =
    if write_command address =? CMD_WRITE_ROM
    then write_tail address payload (snd (_erase_sector address p))
    else write_tail address payload p.
Proof.
  intros Hc Hs. unfold write_data. rewrite Hc, Hs. simpl negb. simpl orb. cbv iota.
  fold (write_command address).
  destruct (write_command address =? CMD_WRITE_ROM).
  - destruct (_erase_sector_ok p address) as [ok Hok].
    unfold write_tail, try_except, bind at 1 2.
    destruct (_erase_sector address p) as [res p1]. simpl in Hok. subst res.
    reflexivity.
  - reflexivity.
Qed.

Lemma _verify_checksum_sends (p : t) (address length : Z) :
  exists post, sent (snd (_verify_checksum address length p)) = sent p ++ post.
Proof.
  unfold _verify_checksum, try_except, bind, lift_res, ret.
  destruct (struct_pack_I address); [|exists []; simpl; now rewrite app_nil_r].
  destruct (struct_pack_H length); [|exists []; simpl; now rewrite app_nil_r].
  destruct (_build_frame _ _) as [f|]; [|exists []; simpl; now rewrite app_nil_r].
  unfold io, zoom.
  destruct (ser_write f (link p)) as [[[]|e] l1] eqn:Hw.
  - unfold ser_write in Hw. destruct (handle (link p)) as [h|] eqn:Hh; [|discriminate].
    destruct (is_open h); [|discriminate]. injection Hw as <-.
    response_step resp r. exists [f]. repeat case_match; simplify_eq; reflexivity.
  - unfold ser_write in Hw. exists [].
    destruct (handle (link p)) as [h|] eqn:Hh;
      [destruct (is_open h); [discriminate|]|]; injection Hw as <- <-;
      destruct p as [c conn l act]; destruct l; unfold sent; simpl; now rewrite app_nil_r.
Qed.

(** The write frame is written whenever address and length fit their
    fields, whatever the address. *)
Lemma write_tail_sends (p : t) (address : Z) (payload : bytes) :
  ser_is_open (link p) = true -> 0 <= address < 2 ^ 32 -> len payload <= 248 ->
  exists post,
    sent (snd (write_tail address payload p)) = sent p ++ write_frame address payload :: post.
Proof.
  intros Ho Ha Hl.
  assert (Hlen : 0 <= len payload < 2 ^ 16) by (unfold len in *; lia).
  unfold write_tail, try_except, bind, lift_res, ret.
  rewrite (struct_pack_I_ok _ Ha), (struct_pack_H_ok _ Hlen), (write_frame_build _ _ Hl).
  rewrite io_write_open by exact Ho.
  response_step resp r.
  destruct (head_is resp RESP_ACK).
  - destruct (_verify_checksum_sends (with_rx r (with_tx [write_frame address payload] p))
                address (len payload)) as [post Hpost].
    exists post.
    destruct (_verify_checksum _ _ _) as [[[]|e] p2]; simpl in Hpost |- *;
      rewrite Hpost; unfold sent; simpl; now rewrite <- app_assoc.
  - exists []. repeat case_match; simplify_eq; reflexivity.
Qed.

(** Without a bound on the payload, the tail still only appends. *)
Lemma write_tail_appends (p : t) (address : Z) (payload : bytes) :
  exists post, sent (snd (write_tail address payload p)) = sent p ++ post.
Proof.
  unfold write_tail, try_except, bind, lift_res, ret.
  destruct (struct_pack_I address); [|exists []; simpl; now rewrite app_nil_r].
  destruct (struct_pack_H (len payload)); [|exists []; simpl; now rewrite app_nil_r].
  destruct (_build_frame _ _) as [f|]; [|exists []; simpl; now rewrite app_nil_r].
  unfold io, zoom.
  destruct (ser_write f (link p)) as [[[]|e] l1] eqn:Hw.
  - unfold ser_write in Hw. destruct (handle (link p)) as [h|] eqn:Hh; [|discriminate].
    destruct (is_open h); [|discriminate]. injection Hw as <-.
    response_step resp r.
    destruct (head_is resp RESP_ACK).
    + match goal with |- context [_verify_checksum ?a ?n ?q] =>
        destruct (_verify_checksum_sends q a n) as [post Hpost];
        destruct (_verify_checksum a n q) as [[[]|e] p2] end;
        simpl in Hpost |- *; exists ([f] ++ post); rewrite Hpost;
        unfold sent; simpl; now rewrite <- app_assoc.
    + exists [f]. repeat case_match; simplify_eq; reflexivity.
  - unfold ser_write in Hw. exists [].
    destruct (handle (link p)) as [h|] eqn:Hh;
      [destruct (is_open h); [discriminate|]|]; injection Hw as <- <-;
      destruct p as [c conn l act]; destruct l; unfold sent; simpl; now rewrite app_nil_r.
Qed.

(** A write to a ROM-class address: the erase frame for the sector of
    the address comes first. *)
Lemma write_data_rom_erases_first (p : t) (address : Z) (payload : bytes) :
  is_connected p = true -> ser_is_open (link p) = true ->
  ROM_BASE <= address < RAM_BASE ->
  exists post,
    sent (snd (write_data address payload p)) = sent p ++ erase_frame address :: post.
Proof.
  intros Hc Ho Ha.
  rewrite write_data_unfold by auto using has_serial_open.
  unfold write_command.
  destruct (Z.leb_spec ROM_BASE address); [|lia].
  destruct (Z.ltb_spec address RAM_BASE); [|lia]. simpl.
  destruct (_erase_sector_spec p address Ho) as (ok & r & ->).
  { unfold ROM_BASE, RAM_BASE in Ha. lia. }
  simpl.
  destruct (write_tail_appends (with_rx r (with_tx [erase_frame address] p)) address payload)
    as [post ->].
  exists post. unfold sent. simpl. now rewrite <- app_assoc.
Qed.

(** The same write with a payload that fits one frame: the write frame
    follows the erase frame, whatever was answered to the erase. *)
Lemma write_data_rom_writes_anyway (p : t) (address : Z) (payload : bytes) :
  is_connected p = true -> ser_is_open (link p) = true ->
  ROM_BASE <= address < RAM_BASE -> len payload <= 248 ->
  exists post,
    sent (snd (write_data address payload p))
    = sent p ++ erase_frame address :: write_frame address payload :: post.
Proof.
  intros Hc Ho Ha Hl.
  rewrite write_data_unfold by auto using has_serial_open.
  unfold write_command at 1.
  destruct (Z.leb_spec ROM_BASE address); [|lia].
  destruct (Z.ltb_spec address RAM_BASE); [|lia]. simpl.
  assert (Ha32 : 0 <= address < 2 ^ 32) by (unfold ROM_BASE, RAM_BASE in Ha; lia).
  destruct (_erase_sector_spec p address Ho Ha32) as (ok & r & ->).
  simpl.
  destruct (write_tail_sends (with_rx r (with_tx [erase_frame address] p)) address payload)
    as [post ->]; auto.
  exists post. unfold sent. simpl. now rewrite <- app_assoc.
Qed.

(** A write to a RAM-class address: the write frame comes first. *)
Lemma write_data_ram_sends (p : t) (address : Z) (payload : bytes) :
  is_connected p = true -> ser_is_open (link p) = true ->
  RAM_BASE <= address < 2 ^ 32 -> len payload <= 248 ->
  exists post,
    sent (snd (write_data address payload p)) = sent p ++ write_frame address payload :: post.
Proof.
  intros Hc Ho Ha Hl.
  rewrite write_data_unfold by auto using has_serial_open.
  unfold write_command at 1.
  destruct (Z.ltb_spec address RAM_BASE); [lia|]. rewrite andb_false_r.
  destruct (Z.leb_spec RAM_BASE address); [|lia]. simpl.
  apply write_tail_sends; auto. unfold RAM_BASE in Ha. lia.
Qed.

Lemma _build_frame_framed command payload :
  0 <= command < 256 -> len payload < 255 ->
  _build_frame command payload = Ok (framed (command :: payload)).
Proof. apply _build_frame_ok. Qed.

(** What [read_frame] does once STX and a nonzero LEN [n] were read and
    [n + 2] further bytes [tail] are available. *)
Lemma read_frame_on (l : SerialLink) (n : Z) (tail : bytes) (rest : list (option Z)) :
  ser_is_open l = true ->
  rx (wire l) = map Some ([0x02; n] ++ tail) ++ rest ->
  0 < n -> len tail = n + 2 ->
  read_frame l =
    (Ok (if (item tail (n + 1) =? 0x03)
            && (item tail n =? _calculate_checksum (slice tail 0 n))
         then slice tail 0 n else []),
     link_rx rest l).
Proof.
  intros Ho Hrx Hn Hlen. unfold read_frame, bind at 1, gets. 
  rewrite Hrx. simpl length. unfold bind at 1. simpl find_stx.
  unfold bind at 1. rewrite (ser_read_open 1 l Ho), Hrx. simpl.
  unfold bind at 1, ret at 1. unfold bind at 1.
  rewrite ser_read_open by exact Ho. simpl.
  destruct (Z.eqb_spec n 0); [lia|].
  unfold bind. rewrite ser_read_open by exact Ho. cbn [rx wire link_rx set_rx].
  replace (Z.to_nat (n + 2)) with (length tail) by (unfold len in Hlen; lia).
  rewrite take_bytes_app. cbn [fst snd].
  rewrite Hlen, Z.eqb_refl. simpl andb.
  replace (n + 2 - 1) with (n + 1) by lia. replace (n + 2 - 2) with n by lia.
  unfold ret. destruct (item tail (n + 1) =? 3); simpl; [|reflexivity].
  destruct (item tail n =? _); reflexivity.
Qed.

(** Round trip: a well-formed frame on the wire is returned as its body. *)
Lemma read_frame_roundtrip (l : SerialLink) (body : bytes) (rest : list (option Z)) :
  ser_is_open l = true ->
  rx (wire l) = map Some (framed body) ++ rest ->
  0 < len body ->
  read_frame l = (Ok body, link_rx rest l).
Proof.
  intros Ho Hrx Hn.
  rewrite (read_frame_on l (len body) (body ++ [_calculate_checksum body; 0x03]) rest);
    auto.
  - rewrite !item_app_r by lia. rewrite slice_app_exact.
    replace (len body + 1 - len body) with 1 by lia. rewrite Z.sub_diag.
    unfold item. simpl. now rewrite Z.eqb_refl.
  - unfold len. rewrite length_app. simpl. lia.
Qed.

Lemma _read_response_roundtrip (p : t) (body : bytes) (rest : list (option Z)) :
  ser_is_open (link p) = true ->
  rx (wire (link p)) = map Some (framed body) ++ rest ->
  0 < len body ->
  _read_response p = (Ok body, with_rx rest p).
Proof.
  intros Ho Hrx Hn. unfold _read_response. rewrite (has_serial_open p Ho). simpl.
  unfold try_except, io, zoom. now rewrite (read_frame_roundtrip _ body rest).
Qed.

Lemma sum_insert (l : bytes) (j : nat) (b b' : Z) :
  l !! j = Some b -> sum (<[j := b']> l) = sum l + (b' - b).
Proof.
  unfold sum. revert j.
  induction l as [|x l IH]; intros [|j] H; simpl in *; try discriminate.
  - injection H as ->. lia.
  - rewrite <- Z.add_assoc. f_equal. exact (IH j H).
Qed.

Lemma checksum_byte (l : bytes) : is_byte (_calculate_checksum l).
Proof. unfold _calculate_checksum, is_byte. apply Z.mod_pos_bound. lia. Qed.

(** Two sums with the same checksum agree modulo 256. *)
Lemma checksum_inj (l1 l2 : bytes) :
  _calculate_checksum l1 = _calculate_checksum l2 -> sum l1 mod 256 = sum l2 mod 256.
Proof.
  unfold _calculate_checksum.
  generalize (Z.mod_pos_bound (sum l1) 256 ltac:(lia)).
  generalize (Z.mod_pos_bound (sum l2) 256 ltac:(lia)).
  generalize (sum l1 mod 256) (sum l2 mod 256). intros m1 m2 H2 H1 H.
  destruct (Z.eq_dec m1 0) as [->|E1]; destruct (Z.eq_dec m2 0) as [->|E2];
    try reflexivity.
  - change ((256 - 0) mod 256) with 0 in H.
    rewrite Z.mod_small in H by lia. lia.
  - change ((256 - 0) mod 256) with 0 in H.
    rewrite Z.mod_small in H by lia. lia.
  - rewrite !Z.mod_small in H by lia. lia.
Qed.

(** Changing one byte of the body changes the checksum. *)
Lemma checksum_insert_neq (body : bytes) (j : nat) (b b' : Z) :
  body !! j = Some b -> is_byte b -> is_byte b' -> b <> b' ->
  _calculate_checksum (<[j := b']> body) <> _calculate_checksum body.
Proof.
  intros Hj Hb Hb' Hne Heq. apply checksum_inj in Heq.
  rewrite (sum_insert _ _ _ _ Hj) in Heq.
  unfold is_byte in *.
  assert (Hd : (b' - b) mod 256 = 0).
  { pose proof (Z.add_mod (sum body) (b' - b) 256 ltac:(lia)) as Ha.
    rewrite Ha in Heq.
    pose proof (Z.mod_pos_bound (sum body) 256 ltac:(lia)).
    pose proof (Z.mod_pos_bound (b' - b) 256 ltac:(lia)).
    destruct (Z.eq_dec ((b' - b) mod 256) 0) as [|Hnz]; [assumption|exfalso].
    destruct (Z_lt_le_dec (sum body mod 256 + (b' - b) mod 256) 256).
    - rewrite Z.mod_small in Heq by lia. lia.
    - replace (sum body mod 256 + (b' - b) mod 256)
        with ((sum body mod 256 + (b' - b) mod 256 - 256) + 1 * 256) in Heq by lia.
      rewrite Z.mod_add in Heq by lia. rewrite Z.mod_small in Heq by lia. lia. }
  apply Z.mod_divide in Hd; [|lia]. destruct Hd as [k Hk]. lia.
Qed.

(** A frame with one byte changed after LEN is rejected. *)
Lemma read_frame_flipped (l : SerialLink) (body : bytes) (rest : list (option Z))
    (j : nat) (b' : Z) :
  ser_is_open l = true -> is_bytes body -> 0 < len body -> is_byte b' ->
  (j < length body + 2)%nat ->
  (body ++ [_calculate_checksum body; 0x03]) !! j <> Some b' ->
  rx (wire l) =
    map Some ([0x02; len body] ++ <[j := b']> (body ++ [_calculate_checksum body; 0x03]))
      ++ rest ->
  read_frame l = (Ok [], link_rx rest l).
Proof.
  intros Ho Hbody Hn Hb' Hj Hne Hrx.
  rewrite (read_frame_on l (len body) _ rest Ho Hrx Hn).
  2:{ unfold len. rewrite length_insert, length_app. simpl. lia. }
  f_equal. f_equal.
  destruct (decide (j < length body)%nat) as [Hlt|Hge].
  - (* a byte of the body *)
    rewrite insert_app_l by exact Hlt.
    destruct (lookup_lt_is_Some_2 body j Hlt) as [b Hb].
    rewrite lookup_app_l in Hne by exact Hlt. rewrite Hb in Hne.
    assert (Hlen' : len (<[j := b']> body) = len body)
      by (unfold len; now rewrite length_insert).
    rewrite <- Hlen', slice_app_exact, Hlen'.
    rewrite <- Hlen' at 2. rewrite !item_app_r by lia.
    rewrite Hlen'. replace (len body - len body) with 0 by lia.
    unfold item at 2. simpl nth.
    destruct (Z.eqb_spec (_calculate_checksum body)
                (_calculate_checksum (<[j := b']> body))) as [E|E].
    + exfalso. symmetry in E. revert E. apply (checksum_insert_neq body j b b'); auto.
      * eapply Forall_lookup_1; eauto.
      * congruence.
    + now rewrite andb_false_r.
  - rewrite insert_app_r_alt by lia.
    rewrite lookup_app_r in Hne by lia.
    rewrite slice_app_exact, !item_app_r by lia.
    replace (len body + 1 - len body) with 1 by lia. rewrite Z.sub_diag.
    destruct (j - length body)%nat as [|[|k]] eqn:Hk; [| |lia]; simpl in Hne |- *;
      unfold item; simpl.
    + (* the checksum byte *)
      destruct (Z.eqb_spec b' (_calculate_checksum body)); [congruence|reflexivity].
    + (* ETX *)
      destruct (Z.eqb_spec b' 3); [congruence|reflexivity].
Qed.
End DensoFacts.

(** ** Bosch: the response reader and the memory requests *)

Module BoschFacts.
Import Bosch BoschSpec.

Lemma kwp_read_frame_rx : rx_only read_frame.
Proof.
  unfold read_frame.
  apply rx_only_bind; auto with rx. intros [|length bs]; auto 10 with rx.
Qed.

Lemma kwp_read_response_spec (p : t) :
  exists resp r, _read_response p = (Ok resp, with_rx r p).
Proof.
  unfold _read_response. destruct (has_serial p).
  - simpl. unfold try_except, io, zoom, ret.
    destruct (kwp_read_frame_rx (link p)) as [r Hr].
    destruct (read_frame (link p)) as [[resp|e] l1]; simpl in Hr; subst l1.
    + now exists resp, r.
    + now exists [], r.
  - exists [], (rx (wire (link p))). simpl. unfold with_rx.
    rewrite link_rx_id. now destruct p.
Qed.

Ltac kwp_response_step resp r :=
  match goal with
  | |- context [_read_response ?q] =>
      destruct (kwp_read_response_spec q) as (resp & r & ->)
  end.

Lemma kwp_io_write_open d (p : t) :
  ser_is_open (link p) = true -> io (ser_write d) p = (Ok tt, with_tx [d] p).
Proof. intros H. unfold io, zoom. now rewrite (ser_write_open d _ H). Qed.

Lemma kwp_has_serial_open (p : t) : ser_is_open (link p) = true -> has_serial p = true.
Proof. unfold ser_is_open, has_serial. now destruct (handle (link p)). Qed.

Lemma _build_kwp2000_frame_ok payload :
  len payload < 256 -> _build_kwp2000_frame payload = Ok (framed payload).
Proof.
  intros H. unfold _build_kwp2000_frame.
  rewrite byte_of_ok; [reflexivity | unfold len in *; lia].
Qed.

Lemma kwp_read_data_sends (p : t) (address length : Z) :
  is_connected p = true -> ser_is_open (link p) = true ->
  0 <= address < 2 ^ 24 -> 0 <= length < 2 ^ 16 ->
  sent (snd (read_data address length p)) = sent p ++ [read_request address length].
Proof.
  intros Hc Ho Ha Hl.
  unfold read_data. rewrite Hc, (kwp_has_serial_open p Ho). simpl negb. simpl orb. cbv iota.
  unfold try_except, bind, lift_res.
  rewrite (to_bytes_big_ok 3 address Ha), (to_bytes_big_ok 2 length Hl).
  rewrite _build_kwp2000_frame_ok by (cbv; reflexivity).
  rewrite kwp_io_write_open by exact Ho.
  kwp_response_step resp r. unfold raise, ret.
  repeat case_match; simplify_eq; reflexivity.
Qed.

(** An address or a length that does not fit its field stops [read_data]
    before anything is written. *)
Lemma kwp_read_data_unencodable (p : t) (address length : Z) :
  is_connected p = true -> has_serial p = true ->
  ~ (0 <= address < 2 ^ 24) \/ ~ (0 <= length < 2 ^ 16) ->
  read_data address length p = (Raise OverflowError, p).
Proof.
  intros Hc Hs Hbad.
  unfold read_data. rewrite Hc, Hs. simpl negb. simpl orb. cbv iota.
  unfold try_except, bind, lift_res, raise, to_bytes_big.
  change (2 ^ (8 * Z.of_nat 3)) with (2 ^ 24). change (2 ^ (8 * Z.of_nat 2)) with (2 ^ 16).
  destruct (Z.leb_spec 0 address); destruct (Z.ltb_spec address (2 ^ 24));
    simpl; try reflexivity.
  destruct (Z.leb_spec 0 length); destruct (Z.ltb_spec length (2 ^ 16));
    simpl; try reflexivity.
  lia.
Qed.

Lemma write_data_sends (p : t) (address : Z) (payload : bytes) :
  is_connected p = true -> ser_is_open (link p) = true ->
  0 <= address < 2 ^ 24 -> len payload <= 251 ->
  sent (snd (write_data address payload p)) = sent p ++ [write_request address payload].
Proof.
  intros Hc Ho Ha Hl.
  unfold write_data. rewrite Hc, (kwp_has_serial_open p Ho). simpl negb. simpl orb. cbv iota.
  unfold try_except, bind, lift_res.
  rewrite (to_bytes_big_ok 3 address Ha).
  rewrite _build_kwp2000_frame_ok
    by (unfold len in *; rewrite !length_app; simpl; lia).
  rewrite kwp_io_write_open by exact Ho.
  kwp_response_step resp r. unfold raise, ret.
  repeat case_match; simplify_eq; reflexivity.
Qed.

(** The decoder checks the length only: whatever [n + 1] bytes follow a
    nonzero length byte [n] are returned, with the length byte in front. *)
Lemma _read_response_on (p : t) (n : Z) (tail : bytes) (rest : list (option Z)) :
  ser_is_open (link p) = true ->
  rx (wire (link p)) = map Some (n :: tail) ++ rest ->
  0 < n -> len tail = n + 1 ->
  _read_response p = (Ok (n :: tail), with_rx rest p).
Proof.
  intros Ho Hrx Hn Hlen. unfold _read_response. rewrite (kwp_has_serial_open p Ho). simpl.
  unfold try_except, io, zoom, read_frame, bind at 1.
  rewrite (ser_read_open 1 _ Ho), Hrx. simpl.
  destruct (Z.eqb_spec n 0); [lia|].
  unfold bind. rewrite ser_read_open by exact Ho. cbn [rx wire link_rx set_rx].
  replace (Z.to_nat (n + 1)) with (length tail) by (unfold len in Hlen; lia).
  rewrite take_bytes_app. cbn [fst snd].
  rewrite Hlen, Z.eqb_refl. reflexivity.
Qed.
End BoschFacts.

(** ** The DTC loops and the text of a code *)

Lemma hex_digits_small fuel n acc : n < 16 -> hex_digits fuel n acc = n :: acc.
Proof.
  intros H. destruct fuel; simpl; [reflexivity|].
  destruct (Z.ltb_spec n 16); [reflexivity | lia].
Qed.

Lemma hex_digits_big fuel n acc :
  16 <= n -> hex_digits (S fuel) n acc = hex_digits fuel (n / 16) (n mod 16 :: acc).
Proof. intros H. simpl. destruct (Z.ltb_spec n 16); [lia | reflexivity]. Qed.

Lemma log2_fuel (k : Z) (n : Z) :
  0 <= k -> 2 ^ k <= n -> (Z.to_nat k <= Z.to_nat (Z.log2 n))%nat.
Proof.
  intros Hk H. apply Z2Nat.inj_le; [lia | apply Z.log2_nonneg |].
  rewrite <- (Z.log2_pow2 k Hk). now apply Z.log2_le_mono.
Qed.

(** The digits of a number below [16 ^ 4], most significant first. *)
Lemma hex_digits_16bit n :
  0 <= n < 65536 ->
  hex_digits (Z.to_nat (Z.log2 n)) n [] =
    if n <? 16 then [n]
    else if n <? 256 then [n / 16; n mod 16]
    else if n <? 4096 then [n / 256; n / 16 mod 16; n mod 16]
    else [n / 4096; n / 256 mod 16; n / 16 mod 16; n mod 16].
Proof.
  intros H.
  destruct (Z.ltb_spec n 16) as [H1|H1]; [now apply hex_digits_small|].
  pose proof (log2_fuel 4 n ltac:(lia) H1) as F1.
  destruct (Z.to_nat (Z.log2 n)) as [|f1] eqn:E; [simpl in F1; lia|].
  rewrite hex_digits_big by lia.
  destruct (Z.ltb_spec n 256) as [H2|H2].
  { apply hex_digits_small. apply Z.div_lt_upper_bound; lia. }
  pose proof (log2_fuel 8 n ltac:(lia) H2) as F2. rewrite E in F2.
  destruct f1 as [|f2]; [simpl in F2; lia|].
  rewrite hex_digits_big by (apply Z.div_le_lower_bound; lia).
  rewrite Z.div_div by lia. change (16 * 16) with 256.
  destruct (Z.ltb_spec n 4096) as [H3|H3].
  { apply hex_digits_small. apply Z.div_lt_upper_bound; lia. }
  pose proof (log2_fuel 12 n ltac:(lia) H3) as F3. rewrite E in F3.
  destruct f2 as [|f3]; [simpl in F3; lia|].
  rewrite hex_digits_big by (apply Z.div_le_lower_bound; lia).
  rewrite Z.div_div by lia. change (256 * 16) with 4096.
  apply hex_digits_small. apply Z.div_lt_upper_bound; lia.
Qed.

(** [f"{n:04X}"] of a 16-bit number is its four hexadecimal digits. *)
Lemma format_04X_hex4 n : 0 <= n < 65536 -> format_04X n = hex4 n.
Proof.
  intros H. unfold format_04X, format_hex, hex4. rewrite (hex_digits_16bit n H).
  destruct (Z.ltb_spec n 16) as [H1|H1].
  { simpl. rewrite (Z.div_small n 4096), (Z.div_small n 256), (Z.div_small n 16),
      (Z.mod_small n 16) by lia. reflexivity. }
  destruct (Z.ltb_spec n 256) as [H2|H2].
  { simpl. rewrite (Z.div_small n 4096), (Z.div_small n 256) by lia.
    rewrite (Z.mod_small (n / 16) 16); [reflexivity|].
    split; [apply Z.div_pos; lia | apply Z.div_lt_upper_bound; lia]. }
  destruct (Z.ltb_spec n 4096) as [H3|H3].
  { simpl. rewrite (Z.div_small n 4096) by lia.
    rewrite (Z.mod_small (n / 256) 16); [reflexivity|].
    split; [apply Z.div_pos; lia | apply Z.div_lt_upper_bound; lia]. }
  simpl. rewrite (Z.mod_small (n / 4096) 16); [reflexivity|].
  split; [apply Z.div_pos; lia | apply Z.div_lt_upper_bound; lia].
Qed.

(** [f"{n:02X}"] of a byte is its two hexadecimal digits. *)
Lemma format_02X_hex2 n : 0 <= n < 256 -> format_02X n = hex2 n.
Proof.
  intros H. unfold format_02X, format_hex, hex2.
  rewrite (hex_digits_16bit n ltac:(lia)).
  destruct (Z.ltb_spec n 16) as [H1|H1].
  { simpl. rewrite (Z.div_small n 16), (Z.mod_small n 16) by lia. reflexivity. }
  destruct (Z.ltb_spec n 256) as [H2|H2]; [|lia].
  simpl. rewrite (Z.mod_small (n / 16) 16); [reflexivity|].
  split; [apply Z.div_pos; lia | apply Z.div_lt_upper_bound; lia].
Qed.
Lemma foldl_pointwise {A B} (f f' : A -> B -> A) (l : list B) (a : A) :
  (forall a b, f a b = f' a b) -> foldl f a l = foldl f' a l.
Proof. intros H. revert a. induction l as [|b l IH]; intros a; simpl; [easy|]. now rewrite H, IH. Qed.

Lemma be16_in_range hi lo : is_byte hi -> is_byte lo -> 0 <= Z.lor (Z.shiftl hi 8) lo < 65536.
Proof.
  unfold is_byte. intros Hh Hl.
  assert (H0 : 0 <= Z.shiftl hi 8) by (apply Z.shiftl_nonneg; lia).
  assert (Hs : Z.shiftl hi 8 < 65536) by (rewrite Z.shiftl_mul_pow2 by lia; lia).
  split; [apply Z.lor_nonneg; lia|].
  destruct (Z.eq_dec (Z.lor (Z.shiftl hi 8) lo) 0) as [->|Hnz]; [lia|].
  assert (Hpos : 0 < Z.lor (Z.shiftl hi 8) lo).
  { pose proof (proj2 (Z.lor_nonneg (Z.shiftl hi 8) lo) (conj H0 (proj1 Hl))). lia. }
  change 65536 with (2 ^ 16). apply Z.log2_lt_pow2; [exact Hpos|].
  rewrite Z.log2_lor by lia.
  apply Z.max_lub_lt.
  - destruct (Z.eq_dec (Z.shiftl hi 8) 0) as [->|]; [reflexivity|].
    apply Z.log2_lt_pow2; lia.
  - destruct (Z.eq_dec lo 0) as [->|]; [reflexivity|].
    apply Z.log2_lt_pow2; lia.
Qed.

Lemma be16_codes_range (data : bytes) :
  is_bytes data -> Forall (fun c => 0 <= c < 65536) (be16_codes data).
Proof.
  revert data. fix IH 1. intros [|hi [|lo rest]] H; simpl; try constructor.
  - apply be16_in_range; [now inversion H | inversion H as [|? ? ? H2]; now inversion H2].
  - apply IH. inversion H as [|? ? ? H2]. now inversion H2.
Qed.

Lemma be16_codes_length (data : bytes) : (length (be16_codes data) = length data / 2)%nat.
Proof.
  revert data. fix IH 1. intros [|hi [|lo rest]]; simpl length; try reflexivity.
  rewrite IH. change (S (S (length rest))) with (1 * 2 + length rest)%nat.
  now rewrite Nat.div_add_l by lia.
Qed.

Section PairLoop.
Variable g : Z -> option string.

Lemma pair_loop (k : nat) : forall (start : nat) (data : bytes) (acc : list string),
  foldl (pair_step g data) acc
        (map (fun j => Z.of_nat start + 2 * Z.of_nat j) (seq 0 k))
  = acc ++ omap g (take k (be16_codes (drop start data))).
Proof.
  induction k as [|k IH]; intros start data acc.
  - simpl. now rewrite app_nil_r.
  - rewrite <- cons_seq, <- fmap_S_seq. cbn [map foldl].
    change (S <$> seq 0 k) with (map S (seq 0 k)). rewrite map_map.
    rewrite (map_ext _ (fun j => Z.of_nat (S (S start)) + 2 * Z.of_nat j))
      by (intros; lia).
    rewrite IH.
    replace (drop (S (S start)) data) with (drop 2 (drop start data))
      by (rewrite drop_drop; f_equal; lia).
    replace (Z.of_nat start + 2 * Z.of_nat 0) with (Z.of_nat start) by lia.
    unfold pair_step at 1.
    destruct (drop start data) as [|hi [|lo rest]] eqn:E.
    + assert (length data <= start)%nat.
      { destruct (decide (length data <= start)%nat); [assumption|].
        apply (f_equal length) in E. rewrite length_drop in E. simpl in E. lia. }
      destruct (Z.ltb_spec (Z.of_nat start + 1) (len data)); [unfold len in *; lia|].
      simpl. now rewrite take_nil.
    + assert (length data = S start).
      { apply (f_equal length) in E. rewrite length_drop in E. simpl in E. lia. }
      destruct (Z.ltb_spec (Z.of_nat start + 1) (len data)); [unfold len in *; lia|].
      simpl. now rewrite take_nil.
    + assert (Hl : (start + 2 <= length data)%nat).
      { apply (f_equal length) in E. rewrite length_drop in E. simpl in E. lia. }
      destruct (Z.ltb_spec (Z.of_nat start + 1) (len data)); [|unfold len in *; lia].
      assert (Hhi : item data (Z.of_nat start) = hi).
      { unfold item. rewrite Nat2Z.id, nth_lookup.
        replace start with (start + 0)%nat by lia. rewrite <- lookup_drop, E. reflexivity. }
      assert (Hlo : item data (Z.of_nat start + 1) = lo).
      { unfold item. replace (Z.to_nat (Z.of_nat start + 1)) with (start + 1)%nat by lia.
        rewrite nth_lookup, <- lookup_drop, E. reflexivity. }
      rewrite Hhi, Hlo. simpl.
      destruct (g _); [now rewrite <- app_assoc | reflexivity].
Qed.
End PairLoop.
Lemma omap_filter_map {A B} (g : A -> option B) (P : A -> Prop) `{forall x, Decision (P x)}
    (f : A -> B) (l : list A) :
  (forall x, x ∈ l -> g x = if decide (P x) then Some (f x) else None) ->
  omap g l = map f (filter P l).
Proof.
  induction l as [|x l IH]; intros Hg; [reflexivity|].
  change (omap g (x :: l))
    with (match g x with Some y => y :: omap g l | None => omap g l end).
  rewrite Hg by (left). rewrite filter_cons.
  rewrite IH by (intros; apply Hg; now right).
  now destruct (decide (P x)).
Qed.

Lemma py_range_from (start stop : Z) :
  py_range start stop 2 =
    map (fun j => start + 2 * Z.of_nat j) (seq 0 (Z.to_nat ((stop - start + 1) / 2))).
Proof.
  unfold py_range. now replace (stop - start + 2 - 1) with (stop - start + 1) by lia.
Qed.

Lemma dtc_prefix_letter code :
  0 <= code < 65536 ->
  nth (Z.to_nat (Z.land (Z.shiftr code 14) 0x03)) ["P"; "C"; "B"; "U"]%char "?"%char
  = dtc_letter code.
Proof.
  intros H. unfold dtc_letter.
  rewrite Z.shiftr_div_pow2 by lia. change (2 ^ 14) with 16384.
  change 0x03 with (Z.ones 2). rewrite Z.land_ones by lia. change (2 ^ 2) with 4.
  assert (Hq : 0 <= code / 16384 < 4)
    by (split; [apply Z.div_pos; lia | apply Z.div_lt_upper_bound; lia]).
  rewrite Z.mod_small by exact Hq.
  assert (Hc : code / 16384 = 0 \/ code / 16384 = 1 \/ code / 16384 = 2 \/ code / 16384 = 3)
    by lia.
  destruct Hc as [-> | [-> | [-> | ->]]]; reflexivity.
Qed.

Lemma low14 code : Z.land code 0x3FFF = code mod 16384.
Proof. change 0x3FFF with (Z.ones 14). now rewrite Z.land_ones by lia. Qed.

(** The loop of the Denso implementation: at most [count] codes, the
    complete ones, zero skipped, each as the specification formats it. *)
Lemma Denso_parse_dtc (count : Z) (body : bytes) :
  0 <= count -> is_bytes body ->
  Denso.parse_dtc (count :: body)
  = map dtc_text (filter (fun c => c <> 0) (take (Z.to_nat count) (be16_codes body))).
Proof.
  intros Hc Hb. unfold Denso.parse_dtc.
  set (g := fun code : Z =>
              if negb (code =? 0)
              then Some (String (nth (Z.to_nat (Z.land (Z.shiftr code 14) 0x03))
                                     ["P"; "C"; "B"; "U"]%char "?"%char)
                                (format_04X (Z.land code 0x3FFF)))
              else None).
  rewrite (foldl_pointwise _ (pair_step g (count :: body))).
  2:{ intros a i. unfold pair_step, g.
      destruct (i + 1 <? len (count :: body)); [|reflexivity].
      now destruct (negb _). }
  rewrite py_range_from.
  rewrite (pair_loop g _ 1 (count :: body) []). simpl drop. simpl app.
  rewrite drop_0. set (K := Z.to_nat _).
  assert (HK : take K (be16_codes body) = take (Z.to_nat count) (be16_codes body)).
  { subst K. unfold len. simpl length.
    destruct (Z_le_gt_dec (2 * count) (Z.of_nat (length body))) as [Hle|Hgt].
    - rewrite Z.min_r by lia.
      replace (1 + count * 2 - 1 + 1) with (1 + count * 2) by lia.
      replace ((1 + count * 2) / 2) with count; [reflexivity|].
      rewrite Z.add_comm, Z.div_add_l by lia. change (1 / 2) with 0. lia.
    - rewrite Z.min_l by lia.
      pose proof (be16_codes_length body) as Hlen.
      assert (Hdiv : (length body / 2 <= length body)%nat) by (apply Nat.Div0.div_le_upper_bound; lia).
      assert (Z.of_nat (length body / 2) = Z.of_nat (length body) / 2)
        by (rewrite Nat2Z.inj_div; reflexivity).
      assert (Z.of_nat (length body) / 2 <= (Z.of_nat (S (length body)) - 1 + 1) / 2)
        by (apply Z.div_le_mono; lia).
      assert (Z.of_nat (length body) / 2 < count)
        by (apply Z.div_lt_upper_bound; lia).
      rewrite !take_ge; [reflexivity | lia | lia]. }
  rewrite HK.
  apply omap_filter_map. intros code Hin.
  assert (Hr : 0 <= code < 65536).
  { pose proof (be16_codes_range body Hb) as F.
    rewrite Forall_forall in F. apply F. exact (subseteq_take _ _ _ Hin). }
  unfold g, dtc_text. rewrite dtc_prefix_letter by exact Hr.
  rewrite low14. rewrite format_04X_hex4
    by (pose proof (Z.mod_pos_bound code 16384 ltac:(lia)); lia).
  destruct (Z.eqb_spec code 0); destruct (decide (code <> 0)); simpl;
    first [reflexivity | tauto].
Qed.

(** The loop of the Bosch implementation: every complete code, zero
    skipped, as ["P"] followed by the four digits of all 16 bits. *)
Lemma Bosch_parse_dtc (data : bytes) :
  is_bytes data ->
  Bosch.parse_dtc data = map bosch_dtc_text (filter (fun c => c <> 0) (be16_codes data)).
Proof.
  intros Hb. unfold Bosch.parse_dtc.
  set (g := fun code : Z =>
              if negb (code =? 0) then Some (String "P" (format_04X code)) else None).
  rewrite (foldl_pointwise _ (pair_step g data)).
  2:{ intros a i. unfold pair_step, g.
      destruct (i + 1 <? len data); [|reflexivity].
      now destruct (negb _). }
  rewrite py_range_from.
  rewrite (pair_loop g _ 0 data []). rewrite drop_0. simpl app.
  rewrite take_ge.
  2:{ rewrite be16_codes_length. unfold len. rewrite Z.sub_0_r.
      apply Nat2Z.inj_le. rewrite Z2Nat.id by (apply Z.div_pos; lia).
      rewrite Nat2Z.inj_div. change (Z.of_nat 2) with 2. apply Z.div_le_mono; lia. }
  apply omap_filter_map. intros code Hin.
  assert (Hr : 0 <= code < 65536).
  { pose proof (be16_codes_range data Hb) as F.
    rewrite Forall_forall in F. now apply F. }
  unfold g, bosch_dtc_text. rewrite format_04X_hex4 by exact Hr.
  destruct (Z.eqb_spec code 0); destruct (decide (code <> 0)); simpl;
    first [reflexivity | tauto].
Qed.
Lemma be24_codes_range (data : bytes) :
  is_bytes data -> Forall (fun c => is_byte (fst c) /\ 0 <= snd c < 65536) (be24_codes data).
Proof.
  revert data. fix IH 1. intros [|high [|mid [|low rest]]] H; simpl; try constructor.
  - inversion H as [|? ? Hh Ha]. inversion Ha as [|? ? Hm Hb]. inversion Hb as [|? ? Hl ?].
    split; [exact Hh | now apply be16_in_range].
  - apply IH. inversion H as [|? ? ? Ha]. inversion Ha as [|? ? ? Hb]. now inversion Hb.
Qed.

Lemma be24_codes_length (data : bytes) : (length (be24_codes data) = length data / 3)%nat.
Proof.
  revert data. fix IH 1. intros [|high [|mid [|low rest]]]; simpl length; try reflexivity.
  rewrite IH. change (S (S (S (length rest)))) with (1 * 3 + length rest)%nat.
  now rewrite Nat.div_add_l by lia.
Qed.

Section TripleLoop.
Variable h : Z * Z -> string.

Lemma triple_loop (k : nat) : forall (start : nat) (data : bytes) (acc : list string),
  foldl (triple_step h data) acc
        (map (fun j => Z.of_nat start + 3 * Z.of_nat j) (seq 0 k))
  = acc ++ map h (take k (be24_codes (drop start data))).
Proof.
  induction k as [|k IH]; intros start data acc.
  - simpl. now rewrite app_nil_r.
  - rewrite <- cons_seq, <- fmap_S_seq. cbn [map foldl].
    change (S <$> seq 0 k) with (map S (seq 0 k)). rewrite map_map.
    rewrite (map_ext _ (fun j => Z.of_nat (S (S (S start))) + 3 * Z.of_nat j))
      by (intros; lia).
    rewrite IH.
    replace (drop (S (S (S start))) data) with (drop 3 (drop start data))
      by (rewrite drop_drop; f_equal; lia).
    replace (Z.of_nat start + 3 * Z.of_nat 0) with (Z.of_nat start) by lia.
    unfold triple_step at 1.
    pose proof (length_drop data start) as Hd.
    destruct (drop start data) as [|high [|mid [|low rest]]] eqn:E; simpl in Hd.
    + destruct (Z.ltb_spec (Z.of_nat start + 2) (len data)); [unfold len in *; lia|].
      simpl. now rewrite take_nil.
    + destruct (Z.ltb_spec (Z.of_nat start + 2) (len data)); [unfold len in *; lia|].
      simpl. now rewrite take_nil.
    + destruct (Z.ltb_spec (Z.of_nat start + 2) (len data)); [unfold len in *; lia|].
      simpl. now rewrite take_nil.
    + destruct (Z.ltb_spec (Z.of_nat start + 2) (len data)); [|unfold len in *; lia].
      assert (Hh : item data (Z.of_nat start) = high).
      { unfold item. rewrite Nat2Z.id, nth_lookup.
        replace start with (start + 0)%nat by lia. rewrite <- lookup_drop, E. reflexivity. }
      assert (Hm : item data (Z.of_nat start + 1) = mid).
      { unfold item. replace (Z.to_nat (Z.of_nat start + 1)) with (start + 1)%nat by lia.
        rewrite nth_lookup, <- lookup_drop, E. reflexivity. }
      assert (Hl : item data (Z.of_nat start + 2) = low).
      { unfold item. replace (Z.to_nat (Z.of_nat start + 2)) with (start + 2)%nat by lia.
        rewrite nth_lookup, <- lookup_drop, E. reflexivity. }
      rewrite Hh, Hm, Hl. simpl. now rewrite <- app_assoc.
Qed.
End TripleLoop.

Lemma py_range_from3 (stop : Z) :
  py_range 0 stop 3 = map (fun j => Z.of_nat 0 + 3 * Z.of_nat j) (seq 0 (Z.to_nat ((stop + 2) / 3))).
Proof.
  unfold py_range. now replace (stop - 0 + 3 - 1) with (stop + 2) by lia.
Qed.

(** The loop of the Siemens implementation: every complete 3-byte
    record, none skipped. *)
Lemma Siemens_parse_dtc (dtc_data : bytes) :
  is_bytes dtc_data ->
  Siemens.parse_dtc dtc_data = map siemens_dtc_text (be24_codes dtc_data).
Proof.
  intros Hb. unfold Siemens.parse_dtc.
  set (h := fun c : Z * Z =>
              String "P" (String.append (format_02X (fst c)) (format_04X (snd c)))).
  rewrite (foldl_pointwise _ (triple_step h dtc_data)) by reflexivity.
  rewrite py_range_from3.
  rewrite (triple_loop h _ 0 dtc_data []). rewrite drop_0. simpl app.
  rewrite take_ge.
  2:{ rewrite be24_codes_length. unfold len.
      apply Nat2Z.inj_le. rewrite Z2Nat.id by (apply Z.div_pos; lia).
      rewrite Nat2Z.inj_div. change (Z.of_nat 3) with 3. apply Z.div_le_mono; lia. }
  pose proof (be24_codes_range dtc_data Hb) as F.
  induction F as [|c l [Hc1 Hc2] F IH]; [reflexivity|].
  simpl. rewrite IH. f_equal.
  unfold h, siemens_dtc_text. now rewrite format_02X_hex2, format_04X_hex4.
Qed.

Lemma positive_response (r : CanMessage) (code d0 : Z) (more : bytes) :
  arbitration_id r = Siemens.RESPONSE_ID -> data r = d0 :: code :: more ->
  Siemens.positive (Some r) code = true.
Proof.
  intros Hid Hd. unfold Siemens.positive. rewrite Hid, Hd, Z.eqb_refl.
  unfold item. simpl nth. rewrite Z.eqb_refl.
  destruct (Z.leb_spec 2 (len (d0 :: code :: more))); [reflexivity|].
  unfold len in *. simpl in *. lia.
Qed.


(** ** Siemens over CAN *)

Module SiemensFacts.
Import Siemens SiemensSpec.

Lemma bytes_of_ok (l : bytes) : is_bytes l -> bytes_of l = Ok l.
Proof.
  induction 1 as [|x l Hx Hl IH]; [reflexivity|].
  simpl. rewrite (byte_of_ok x Hx), IH. reflexivity.
Qed.

Lemma land_byte x : is_byte (Z.land x 0xFF).
Proof.
  unfold is_byte. change 0xFF with (Z.ones 8). rewrite Z.land_ones by lia.
  apply Z.mod_pos_bound. lia.
Qed.

Lemma canio_send_open (p : t) (msg : CanMessage) :
  bus (can p) = true ->
  exists p', canio (can_send msg) p = (Ok tt, p') /\
             can_sent p' = can_sent p ++ [msg] /\
             bus (can p') = true /\ can_rx (can_wire (can p')) = can_rx (can_wire (can p)).
Proof.
  intros Hb. unfold canio, zoom, can_send. rewrite Hb. eexists. split; [reflexivity|].
  now destruct p.
Qed.

Lemma canio_recv_sent (p : t) :
  can_sent (snd (canio can_recv p)) = can_sent p.
Proof.
  unfold canio, zoom, can_recv, can_sent.
  destruct (bus (can p)); [|now destruct p].
  destruct (can_rx (can_wire (can p))); now destruct p.
Qed.

(** The reassembly loop only adds to what was sent. *)
Lemma read_frames_appends (fuel : nat) : forall (n : Z) (acc : bytes) (p : t),
  exists post, can_sent (snd (read_frames fuel n acc p)) = can_sent p ++ post.
Proof.
  induction fuel as [|fuel IH]; intros n acc p; simpl.
  - exists []. rewrite app_nil_r. now destruct (negb _).
  - destruct (negb (len acc <? n)); [exists []; now rewrite app_nil_r|].
    unfold bind at 1.
    pose proof (canio_recv_sent p) as Hr.
    destruct (canio can_recv p) as [[[r|]|e] p1]; simpl in Hr;
      [| exists []; simpl; now rewrite Hr, app_nil_r
       | exists []; simpl; now rewrite Hr, app_nil_r].
    destruct (negb (arbitration_id r =? RESPONSE_ID));
      [exists []; simpl; now rewrite Hr, app_nil_r|].
    unfold bind at 1, lift_res.
    destruct (item_res (data r) 0) as [d0|e];
      [|exists []; simpl; now rewrite Hr, app_nil_r].
    destruct (Z.land d0 0xF0 =? 0x10).
    + unfold bind at 1.
      destruct (item_res (data r) 1) as [d1|e];
        [|exists []; simpl; now rewrite Hr, app_nil_r].
      unfold bind at 1.
      set (fc := Message REQUEST_ID [48; 0; 0; 0; 0; 0; 0; 0]).
      destruct (canio (can_send fc) p1) as [[[]|e] p2] eqn:Es.
      * assert (Hs : exists post, can_sent p2 = can_sent p1 ++ post).
        { unfold canio, zoom, can_send in Es.
          destruct (bus (can p1)); [|discriminate].
          injection Es as <-. exists [fc]. now destruct p1. }
        destruct Hs as [post1 Hs].
        destruct (IH n (acc ++ slice_from (data r) 4) p2) as [post2 H2].
        exists (post1 ++ post2). rewrite H2, Hs, Hr. now rewrite app_assoc.
      * exists []. simpl. rewrite app_nil_r.
        unfold canio, zoom, can_send in Es.
        destruct (bus (can p1)); [discriminate|].
        injection Es as <- <-. rewrite <- Hr. now destruct p1.
    + destruct (Z.land d0 0xF0 =? 0x20).
      * destruct (IH n (acc ++ slice_from (data r) 1) p1) as [post H1].
        exists post. now rewrite H1, Hr.
      * exists []. simpl. now rewrite Hr, app_nil_r.
Qed.

(** A read over CAN sends the request first, whatever the address. *)
Lemma can_read_data_sends (p : t) (address n : Z) :
  is_connected p = true -> bus (can p) = true ->
  exists post,
    can_sent (snd (read_data address n p)) = can_sent p ++ read_msg address :: post.
Proof.
  intros Hc Hb. unfold read_data. rewrite Hc. simpl negb. cbv iota.
  unfold try_except, bind at 1, gets. rewrite Hb.
  unfold _read_data_can. fold (read_msg address).
  unfold bind at 1.
  destruct (canio_send_open p (read_msg address) Hb) as (p1 & -> & Hs & Hb1 & Hrx).
  unfold bind at 1, gets. unfold bind.
  match goal with |- context [read_frames ?f ?m ?a ?q] =>
    destruct (read_frames_appends f m a q) as [post Hp];
    destruct (read_frames f m a q) as [[resp|e] p2] end;
    simpl in Hp |- *; exists post; rewrite Hp, Hs; now rewrite <- app_assoc.
Qed.
End SiemensFacts.

(** ** What the protocol methods do to the [connected] flag *)

Section FlagFacts.
Context {S : Type} (flag : S -> bool).

Lemma keeps_ret {A} (a : A) : keeps flag (ret a).
Proof. now intros s. Qed.
Lemma keeps_raise {A} e : keeps flag (@raise S A e).
Proof. now intros s. Qed.
Lemma keeps_gets {A} (f : S -> A) : keeps flag (gets f).
Proof. now intros s. Qed.
Lemma keeps_lift_res {A} (r : res A) : keeps flag (lift_res r).
Proof. now intros s. Qed.
Lemma keeps_bind {A B} (m : M S A) (k : A -> M S B) :
  keeps flag m -> (forall a, keeps flag (k a)) -> keeps flag (bind m k).
Proof.
  intros Hm Hk s. unfold bind. specialize (Hm s).
  destruct (m s) as [[a|e] s1]; simpl in Hm; [|exact Hm].
  now rewrite Hk.
Qed.
Lemma keeps_try {A} (m : M S A) (h : exn -> M S A) :
  keeps flag m -> (forall e, keeps flag (h e)) -> keeps flag (try_except m h).
Proof.
  intros Hm Hh s. unfold try_except. specialize (Hm s).
  destruct (m s) as [[a|e] s1]; simpl in Hm; [exact Hm|].
  now rewrite Hh.
Qed.
Lemma keeps_if {A} (b : bool) (m1 m2 : M S A) :
  keeps flag m1 -> keeps flag m2 -> keeps flag (if b then m1 else m2).
Proof. now destruct b. Qed.
Lemma keeps_zoom {T A} (get : S -> T) (set : T -> S -> S) (m : M T A) :
  (forall t s, flag (set t s) = flag s) -> keeps flag (zoom get set m).
Proof. intros H s. unfold zoom. destruct (m (get s)). simpl. apply H. Qed.

Lemma sets_ret_false {A} (ok : A -> bool) (a : A) : ok a = false -> sets flag ok (ret a).
Proof. intros H s a' s' E Ht. injection E as <- <-. congruence. Qed.
Lemma sets_bind {A B} (ok : B -> bool) (m : M S A) (k : A -> M S B) :
  (forall a, sets flag ok (k a)) -> sets flag ok (bind m k).
Proof.
  intros Hk s b s' E Ht. unfold bind in E.
  destruct (m s) as [[a|e] s1]; [|discriminate].
  exact (Hk a s1 b s' E Ht).
Qed.
Lemma sets_try {A} (ok : A -> bool) (m : M S A) (h : exn -> M S A) :
  sets flag ok m -> (forall e, sets flag ok (h e)) -> sets flag ok (try_except m h).
Proof.
  intros Hm Hh s a s' E Ht. unfold try_except in E.
  destruct (m s) as [[a1|e] s1] eqn:Em.
  - injection E as <- <-. exact (Hm s a1 s1 Em Ht).
  - exact (Hh e s1 a s' E Ht).
Qed.
Lemma sets_if {A} (ok : A -> bool) (b : bool) (m1 m2 : M S A) :
  sets flag ok m1 -> sets flag ok m2 -> sets flag ok (if b then m1 else m2).
Proof. now destruct b. Qed.
End FlagFacts.

Create HintDb flag.
#[local] Hint Resolve keeps_ret keeps_raise keeps_gets keeps_lift_res keeps_bind keeps_try
  keeps_if sets_bind sets_try sets_if : flag.

(** Denso *)
Lemma Denso_io_keeps {A} (m : M SerialLink A) : keeps Denso.is_connected (Denso.io m).
Proof. apply keeps_zoom. reflexivity. Qed.

Lemma Denso_read_response_keeps : keeps Denso.is_connected Denso._read_response.
Proof.
  intros p. unfold Denso._read_response. destruct (negb _); [reflexivity|].
  apply (keeps_try Denso.is_connected); auto using Denso_io_keeps with flag.
Qed.

Lemma Denso_connect_sets : sets Denso.is_connected id Denso.connect.
Proof.
  unfold Denso.connect.
  apply sets_try; [|intros; now apply sets_ret_false].
  repeat (apply sets_bind; intros).
  apply sets_if; [|now apply sets_ret_false].
  repeat (apply sets_bind; intros).
  apply sets_if; [|now apply sets_ret_false].
  intros ? ? ? E _. unfold bind, modify, ret in E. injection E as <- <-. reflexivity.
Qed.

Lemma Denso_get_ecu_info_keeps : keeps Denso.is_connected Denso.get_ecu_info.
Proof.
  intros p. unfold Denso.get_ecu_info. destruct (negb _); [reflexivity|].
  apply (keeps_try Denso.is_connected);
    auto 10 using Denso_io_keeps, Denso_read_response_keeps with flag.
Qed.

(** Bosch *)
Lemma Bosch_io_keeps {A} (m : M SerialLink A) : keeps Bosch.is_connected (Bosch.io m).
Proof. apply keeps_zoom. reflexivity. Qed.

Lemma Bosch_read_response_keeps : keeps Bosch.is_connected Bosch._read_response.
Proof.
  intros p. unfold Bosch._read_response. destruct (negb _); [reflexivity|].
  apply (keeps_try Bosch.is_connected); auto using Bosch_io_keeps with flag.
Qed.

Lemma Bosch_connect_sets : sets Bosch.is_connected id Bosch.connect.
Proof.
  unfold Bosch.connect.
  apply sets_try; [|intros; now apply sets_ret_false].
  repeat (apply sets_bind; intros).
  apply sets_if; [|now apply sets_ret_false].
  intros ? ? ? E _. unfold bind, modify, ret in E. injection E as <- <-. reflexivity.
Qed.

Lemma Bosch_get_ecu_info_keeps : keeps Bosch.is_connected Bosch.get_ecu_info.
Proof.
  intros p. unfold Bosch.get_ecu_info. destruct (negb _); [reflexivity|].
  apply (keeps_try Bosch.is_connected);
    auto 10 using Bosch_io_keeps, Bosch_read_response_keeps with flag.
Qed.

(** Siemens *)
Lemma Siemens_io_keeps {A} (m : M SerialLink A) : keeps Siemens.is_connected (Siemens.io m).
Proof. apply keeps_zoom. reflexivity. Qed.

Lemma Siemens_canio_keeps {A} (m : M CanLink A) : keeps Siemens.is_connected (Siemens.canio m).
Proof. apply keeps_zoom. reflexivity. Qed.

Lemma Siemens_connect_sets : sets Siemens.is_connected id Siemens.connect.
Proof.
  unfold Siemens.connect.
  apply sets_try; [|intros; now apply sets_ret_false].
  apply sets_bind. intros c.
  destruct (connection_type c); try (now apply sets_ret_false).
  - unfold Siemens._connect_serial.
    apply sets_try; [|intros; now apply sets_ret_false].
    repeat (apply sets_bind; intros).
    apply sets_if; [|now apply sets_ret_false].
    intros ? ? ? E _. unfold bind, modify, ret in E. injection E as <- <-. reflexivity.
  - unfold Siemens._connect_can.
    apply sets_try; [|intros; now apply sets_ret_false].
    repeat (apply sets_bind; intros).
    apply sets_if; [|now apply sets_ret_false].
    intros ? ? ? E _. unfold bind, modify, ret in E. injection E as <- <-. reflexivity.
Qed.

Lemma Siemens_read_frames_keeps fuel : forall n acc,
  keeps Siemens.is_connected (Siemens.read_frames fuel n acc).
Proof.
  induction fuel as [|fuel IH]; intros n acc; simpl.
  - apply keeps_if; auto with flag.
  - apply keeps_if; auto with flag.
    apply keeps_bind; [apply Siemens_canio_keeps|].
    intros [r|]; auto with flag.
    apply keeps_if; auto with flag.
    apply keeps_bind; auto with flag. intros d0.
    apply keeps_if.
    + apply keeps_bind; auto with flag. intros d1.
      apply keeps_bind; [apply Siemens_canio_keeps | auto].
    + apply keeps_if; auto with flag.
Qed.

Lemma Siemens_read_data_keeps a n : keeps Siemens.is_connected (Siemens.read_data a n).
Proof.
  intros p. unfold Siemens.read_data. destruct (negb _); [reflexivity|].
  apply (keeps_try Siemens.is_connected); auto with flag.
  apply keeps_bind; auto with flag. intros has_bus.
  apply keeps_if.
  - unfold Siemens._read_data_can.
    apply keeps_bind; [apply Siemens_canio_keeps|]. intros _.
    apply keeps_bind; auto with flag. intros k.
    apply keeps_bind; auto using Siemens_read_frames_keeps with flag.
  - unfold Siemens._read_data_serial.
    apply keeps_bind; [apply Siemens_io_keeps|]. intros _.
    apply keeps_bind; [apply Siemens_io_keeps|]. intros r.
    apply keeps_if; auto with flag.
Qed.

Lemma Siemens_read_did_keeps did key f info :
  keeps Siemens.is_connected (Siemens.read_did did key f info).
Proof.
  unfold Siemens.read_did. apply keeps_try; auto with flag.
  apply keeps_bind; [apply Siemens_read_data_keeps|].
  intros [|]; auto with flag.
Qed.

Lemma Siemens_get_ecu_info_keeps : keeps Siemens.is_connected Siemens.get_ecu_info.
Proof.
  intros p. unfold Siemens.get_ecu_info. destruct (negb _); [reflexivity|].
  apply (keeps_try Siemens.is_connected); auto with flag.
  repeat (apply keeps_bind; [first [apply Siemens_read_did_keeps | auto with flag]|]; intros).
  auto with flag.
Qed.

(** Any registered object *)
Lemma connect_sets : sets (connected (P := protocol)) id (connect (P := protocol)).
Proof.
  intros [p|p|p] a o' E Ht; simpl in E.
  - destruct (Bosch.connect p) as [r p'] eqn:Ec. injection E as -> <-.
    exact (Bosch_connect_sets p a p' Ec Ht).
  - destruct (Siemens.connect p) as [r p'] eqn:Ec. injection E as -> <-.
    exact (Siemens_connect_sets p a p' Ec Ht).
  - destruct (Denso.connect p) as [r p'] eqn:Ec. injection E as -> <-.
    exact (Denso_connect_sets p a p' Ec Ht).
Qed.

Lemma get_ecu_info_keeps : keeps (connected (P := protocol)) (get_ecu_info (P := protocol)).
Proof.
  intros [p|p|p]; simpl.
  - pose proof (Bosch_get_ecu_info_keeps p) as H.
    destruct (Bosch.get_ecu_info p). exact H.
  - pose proof (Siemens_get_ecu_info_keeps p) as H.
    destruct (Siemens.get_ecu_info p). exact H.
  - pose proof (Denso_get_ecu_info_keeps p) as H.
    destruct (Denso.get_ecu_info p). exact H.
Qed.

(** ** The manager and the bridge *)

#[local] Arguments connect : simpl never.
#[local] Arguments disconnect : simpl never.
#[local] Arguments get_ecu_info : simpl never.
#[local] Arguments connected : simpl never.
#[local] Arguments config : simpl never.

Lemma connect_ecu_true (k : ECUType) (s s' : ECUManager.t) :
  ECUManager.connect_ecu k s = (Ok true, s') ->
  exists o o',
    ECUManager._protocols s !! k = Some o /\
    connect o = (Ok true, o') /\
    s' = {| ECUManager._protocols := <[k := o']> (ECUManager._protocols s);
            ECUManager._active_ecu := Some k |}.
Proof.
  unfold ECUManager.connect_ecu.
  destruct (ECUManager._protocols s !! k) as [o|] eqn:Hk; [|discriminate].
  unfold try_except, bind, ECUManager.on_protocol. rewrite Hk.
  destruct (connect o) as [[[|]|e] o'] eqn:Ec; simpl; intros E; try discriminate.
  injection E as <-. now exists o, o'.
Qed.


(** ** The loops always have fuel left *)

(** With more fuel than bytes on the wire, the STX loop of the Denso
    reader ends by itself: its result does not depend on the fuel. *)
Lemma find_stx_fuel (fuel1 : nat) : forall (fuel2 : nat) (l : SerialLink),
  (length (rx (wire l)) < fuel1)%nat -> (length (rx (wire l)) < fuel2)%nat ->
  Denso.find_stx fuel1 l = Denso.find_stx fuel2 l.
Proof.
  induction fuel1 as [|fuel1 IH]; intros [|fuel2] l H1 H2; try lia.
  simpl. unfold bind, ser_read.
  destruct l as [[h|] [pr r t]]; simpl in *; [|reflexivity].
  destruct (is_open h); [|reflexivity].
  change (Z.to_nat 1) with 1%nat.
  destruct r as [|[b|] r]; simpl; try reflexivity.
  destruct (b =? 2); [reflexivity|].
  apply IH; simpl in *; lia.
Qed.

Lemma canio_recv_shorter (p p1 : Siemens.t) (m : CanMessage) :
  Siemens.canio can_recv p = (Ok (Some m), p1) ->
  (length (can_rx (can_wire (Siemens.can p1))) < length (can_rx (can_wire (Siemens.can p))))%nat.
Proof.
  unfold Siemens.canio, zoom, can_recv.
  destruct p as [c conn [b [pr r t]] l sq]; simpl.
  destruct b; [|discriminate]. destruct r as [|x r]; [discriminate|].
  intros E. injection E as _ <-. simpl. lia.
Qed.

Lemma canio_send_rx (p p1 : Siemens.t) (msg : CanMessage) (r : res unit) :
  Siemens.canio (can_send msg) p = (r, p1) ->
  can_rx (can_wire (Siemens.can p1)) = can_rx (can_wire (Siemens.can p)).
Proof.
  unfold Siemens.canio, zoom, can_send.
  destruct p as [c conn [b [pr rx0 t]] l sq]; simpl.
  destruct b; intros E; injection E as _ <-; reflexivity.
Qed.

(** The same for the reassembly loop of the Siemens reader and the frames
    on the channel. *)
Lemma read_frames_fuel (fuel1 : nat) : forall (fuel2 : nat) (n : Z) (acc : bytes) (p : Siemens.t),
  (length (can_rx (can_wire (Siemens.can p))) < fuel1)%nat ->
  (length (can_rx (can_wire (Siemens.can p))) < fuel2)%nat ->
  Siemens.read_frames fuel1 n acc p = Siemens.read_frames fuel2 n acc p.
Proof.
  induction fuel1 as [|fuel1 IH]; intros [|fuel2] n acc p H1 H2; try lia.
  simpl. destruct (negb (len acc <? n)); [reflexivity|].
  unfold bind, lift_res.
  destruct (Siemens.canio can_recv p) as [[[m|]|e] p1] eqn:E; try reflexivity.
  apply canio_recv_shorter in E.
  destruct (negb (arbitration_id m =? Siemens.RESPONSE_ID)); [reflexivity|].
  destruct (item_res (data m) 0) as [d0|e]; [|reflexivity].
  destruct (Z.land d0 240 =? 16).
  - destruct (item_res (data m) 1) as [d1|e]; [|reflexivity].
    destruct (Siemens.canio (can_send _) p1) as [[[]|e] p2] eqn:Es; [|reflexivity].
    apply canio_send_rx in Es. apply IH; rewrite Es; lia.
  - destruct (Z.land d0 240 =? 32); [|reflexivity].
    apply IH; lia.
Qed.

(** * What fits a frame *)

Module DensoLimits.
Import Denso DensoSpec DensoFacts.

Lemma _build_frame_too_long (command : Z) (payload : bytes) :
  255 <= len payload -> _build_frame command payload = Raise ValueError.
Proof.
  intros H. unfold _build_frame, byte_of.
  destruct ((0 <=? command) && (command <? 256)); [|reflexivity].
  destruct (Z.ltb_spec (len (command :: payload)) 256) as [Hl|Hl].
  - unfold len in *. simpl length in Hl. lia.
  - now rewrite andb_false_r.
Qed.

(** The write proper is given up before anything is written when the
    address does not fit 32 bits or the payload does not fit one frame. *)
Lemma write_tail_refused (p : t) (address : Z) (payload : bytes) :
  ~ (0 <= address < 2 ^ 32) \/ 248 < len payload ->
  write_tail address payload p = (Ok false, p).
Proof.
  intros Hbad. unfold write_tail, try_except, bind, lift_res, ret.
  unfold struct_pack_I.
  destruct (Z.leb_spec 0 address); destruct (Z.ltb_spec address (2 ^ 32));
    simpl; try reflexivity.
  destruct Hbad as [Hbad|Hbad]; [lia|].
  destruct (struct_pack_H (len payload)) as [len_bytes|e] eqn:E; [|reflexivity].
  rewrite _build_frame_too_long; [reflexivity|].
  unfold struct_pack_H in E. destruct (_ && _); [|discriminate]. injection E as <-.
  unfold len in *. rewrite ?length_app. simpl length. lia.
Qed.

(** A write to a ROM-class address with a payload that does not fit one
    frame: the erase has been sent; the write frame cannot be built. *)
Lemma write_data_rom_refused (p : t) (address : Z) (payload : bytes) :
  is_connected p = true -> ser_is_open (link p) = true ->
  ROM_BASE <= address < RAM_BASE -> 248 < len payload ->
  write_data address payload p = (Ok false, snd (_erase_sector address p)) /\
  sent (snd (write_data address payload p)) = sent p ++ [erase_frame address].
Proof.
  intros Hc Ho Ha Hl.
  rewrite write_data_unfold by auto using has_serial_open.
  unfold write_command.
  destruct (Z.leb_spec ROM_BASE address); [|lia].
  destruct (Z.ltb_spec address RAM_BASE); [|lia]. simpl.
  rewrite write_tail_refused by (right; exact Hl).
  split; [reflexivity|].
  destruct (_erase_sector_spec p address Ho) as (ok & r & ->).
  { unfold ROM_BASE, RAM_BASE in Ha. lia. }
  reflexivity.
Qed.
End DensoLimits.

Module SiemensLimits.
Import Siemens SiemensSpec SiemensFacts.

(** A write over CAN of at most three bytes sends its single frame. *)
Lemma can_write_data_sends (p : t) (address : Z) (payload : bytes) :
  is_connected p = true -> bus (can p) = true ->
  is_bytes payload -> len payload <= 3 ->
  can_sent (snd (write_data address payload p)) = can_sent p ++ [write_msg address payload].
Proof.
  intros Hc Hb Hp Hl.
  unfold write_data. rewrite Hc. simpl negb. cbv iota.
  unfold try_except, bind, gets, lift_res, ret. cbv beta iota. rewrite Hb.
  destruct (Z.leb_spec (len payload) 3) as [_|Hl']; [|lia].
  rewrite bytes_of_ok.
  2:{ cbn [app].
      constructor; [unfold is_byte, len in *; lia|].
      constructor; [cbv; split; congruence|].
      constructor; [apply land_byte|].
      constructor; [apply land_byte | exact Hp]. }
  cbv beta iota zeta.
  match goal with
  | |- context [canio (can_send ?m) p] =>
      destruct (canio_send_open p m Hb) as (p1 & -> & Hs & _ & _)
  end.
  pose proof (canio_recv_sent p1) as Hr.
  destruct (canio can_recv p1) as [[r|e] p2]; simpl in Hr |- *;
    [destruct (positive r 110)|]; simpl; now rewrite Hr, Hs.
Qed.
End SiemensLimits.

(** * Routing of family-less calls *)



(** * The memory-programming sequence (Denso) *)

Section DensoProgramming.
Import Denso DensoSpec DensoFacts.

(** C2, as stated, fails: the device refuses the sector erase (NAK),
    [_erase_sector] reports the failure, and [write_data] sends the write
    frame all the same and returns [True]. *)
Lemma C2_write_sent_after_failed_erase :
  let p := denso_session (denso_reply [RESP_NAK; 0x01] ++ denso_reply [RESP_ACK]
                          ++ denso_reply [RESP_DATA; 0; 0; 0; 0]) in
  fst (_erase_sector 0x1050 p) = Ok false /\
  fst (write_data 0x1050 [0xAA] p) = Ok true /\
  sent (snd (write_data 0x1050 [0xAA] p))
  = [erase_frame 0x1050; write_frame 0x1050 [0xAA]; checksum_request 0x1050 1].
Proof. vm_compute. repeat split; reflexivity. Qed.

(** C2, amended. For a write to a ROM-class address on a connected
    session, the sector-erase frame is written first and the write
    proper runs next, whatever the device answers to the erase; the
    result of [write_data] is the result of the write and its
    verification, run after the erase.  With a payload of at most 248
    bytes, which is what fits one frame, the write frame is written
    right after the erase frame.  With a longer payload the write frame
    cannot be built: nothing is written after the erase frame and
    [write_data] returns [False]. *)
Theorem C2_erase_first_write_regardless (p : t) (address : Z) (payload : bytes) :
  is_connected p = true -> ser_is_open (link p) = true ->
  ROM_BASE <= address < RAM_BASE ->
  write_data address payload p = write_tail address payload (snd (_erase_sector address p)) /\
  (len payload <= 248 ->
   exists post,
     sent (snd (write_data address payload p))
     = sent p ++ erase_frame address :: write_frame address payload :: post) /\
  (248 < len payload ->
   write_data address payload p = (Ok false, snd (_erase_sector address p)) /\
   sent (snd (write_data address payload p)) = sent p ++ [erase_frame address]).
Proof.
  intros Hc Ho Ha. split; [|split].
  - rewrite write_data_unfold by auto using has_serial_open.
    unfold write_command.
    destruct (Z.leb_spec ROM_BASE address); [|lia].
    destruct (Z.ltb_spec address RAM_BASE); [|lia]. reflexivity.
  - intros Hl. now apply write_data_rom_writes_anyway.
  - intros Hl. now apply DensoLimits.write_data_rom_refused.
Qed.

Lemma C2_witness :
  let p := denso_session (denso_reply [RESP_NAK; 0x01]) in
  write_data 0x1050 [0xAA] p = write_tail 0x1050 [0xAA] (snd (_erase_sector 0x1050 p)) /\
  (len [0xAA] <= 248 ->
   exists post,
     sent (snd (write_data 0x1050 [0xAA] p))
     = sent p ++ erase_frame 0x1050 :: write_frame 0x1050 [0xAA] :: post) /\
  (248 < len [0xAA] ->
   write_data 0x1050 [0xAA] p = (Ok false, snd (_erase_sector 0x1050 p)) /\
   sent (snd (write_data 0x1050 [0xAA] p)) = sent p ++ [erase_frame 0x1050]).
Proof.
  apply (C2_erase_first_write_regardless
           (denso_session (denso_reply [RESP_NAK; 0x01])) 0x1050 [0xAA]).
  - reflexivity.
  - reflexivity.
  - unfold ROM_BASE, RAM_BASE. lia.
Defined.

(** C8. For a write to a ROM-class address [a], the first frame written
    is the sector-erase command for [a] with its low 12 bits cleared,
    that is for [a - a mod 0x1000]. *)
Theorem C8_erase_targets_sector_start (p : t) (address : Z) (payload : bytes) :
  is_connected p = true -> ser_is_open (link p) = true ->
  ROM_BASE <= address < RAM_BASE ->
  let sector := address - address mod 0x1000 in
  Z.land sector 0xFFF = 0 /\
  Z.shiftr sector 12 = Z.shiftr address 12 /\
  exists post,
    sent (snd (write_data address payload p))
    = sent p ++ framed (CMD_ERASE_SECTOR :: be_bytes 4 sector) :: post.
Proof.
  intros Hc Ho Ha sector.
  assert (Hs : sector = sector_of address).
  { unfold sector. rewrite sector_of_align.
    pose proof (Z.div_mod address 0x1000 ltac:(lia)). lia. }
  assert (Hm : sector = 0x1000 * (address / 0x1000))
    by (rewrite Hs; apply sector_of_align).
  repeat split.
  - change 0xFFF with (Z.ones 12). rewrite Z.land_ones by lia.
    rewrite Hm. change (2 ^ 12) with 0x1000.
    rewrite Z.mul_comm. apply Z.mod_mul. lia.
  - rewrite !Z.shiftr_div_pow2 by lia. change (2 ^ 12) with 0x1000.
    rewrite Hm, Z.mul_comm. apply Z.div_mul. lia.
  - rewrite Hs. now apply write_data_rom_erases_first.
Qed.

(** At [0x1050] the erase goes to [0x1000]. *)
Lemma C8_witness :
  let sector := 0x1050 - 0x1050 mod 0x1000 in
  Z.land sector 0xFFF = 0 /\
  Z.shiftr sector 12 = Z.shiftr 0x1050 12 /\
  exists post,
    sent (snd (write_data 0x1050 [0xAA] (denso_session [])))
    = sent (denso_session []) ++ framed (CMD_ERASE_SECTOR :: be_bytes 4 sector) :: post.
Proof.
  apply (C8_erase_targets_sector_start (denso_session []) 0x1050 [0xAA]).
  - reflexivity.
  - reflexivity.
  - unfold ROM_BASE, RAM_BASE. lia.
Defined.

Example erase_at_0x1050 :
  erase_frame 0x1050 = [0x02; 5; CMD_ERASE_SECTOR; 0x00; 0x00; 0x10; 0x00; 0xEB; 0x03].
Proof. reflexivity. Qed.

(** C3: the code at the failing input. The device acknowledges the write
    and then answers the checksum request; [write_data] returns [True]
    for two different reported checksums, neither of which is the
    checksum of the written byte. *)
Theorem C3_verification_compares_nothing :
  let written := [0xAA] in
  let run reported :=
    fst (write_data RAM_BASE written
           (denso_session (denso_reply [RESP_ACK]
                           ++ denso_reply (RESP_DATA :: reported)))) in
  _calculate_checksum written = 0x56 /\
  run [0xDE; 0xAD; 0xBE; 0xEF] = Ok true /\
  run [0x00; 0x00; 0x00; 0x00] = Ok true.
Proof. vm_compute. repeat split; reflexivity. Qed.

(** The verification step accepts any data frame of five bytes or more. *)
Lemma _verify_checksum_accepts_any (p : t) (address n : Z) (reported : bytes)
    (rest : list (option Z)) :
  ser_is_open (link p) = true ->
  0 <= address < 2 ^ 32 -> 0 <= n < 2 ^ 16 ->
  4 <= len reported ->
  rx (wire (link p)) = denso_reply (RESP_DATA :: reported) ++ rest ->
  fst (_verify_checksum address n p) = Ok true.
Proof.
  intros Ho Ha Hl Hr Hrx.
  unfold _verify_checksum, try_except, bind, lift_res.
  rewrite (struct_pack_I_ok _ Ha), (struct_pack_H_ok _ Hl).
  rewrite _build_frame_ok by (cbv; first [split; congruence | reflexivity]).
  rewrite io_write_open by exact Ho.
  rewrite (_read_response_roundtrip _ (RESP_DATA :: reported) rest); auto.
  - change (head_is (RESP_DATA :: reported) RESP_DATA) with true. simpl andb.
    destruct (Z.leb_spec 5 (len (RESP_DATA :: reported))); [reflexivity|].
    unfold len in *. simpl in *. lia.
  - unfold len. simpl. lia.
Qed.

(** C6: the code at the failing input. With [retries = 3], a response
    with a wrong checksum makes [read_data] raise after the single
    request it wrote; the well-formed response that follows is left
    unread.  A NAK is raised at once with the device's code. *)
Theorem C6_no_retry_after_checksum_mismatch :
  let corrupted := map Some [0x02; 4; RESP_DATA; 0; 1; 0x55; 0x00; 0x03] in
  let valid := denso_reply [RESP_DATA; 0; 1; 0x55] in
  let p := denso_session (corrupted ++ valid) in
  retries (cfg p) = 3 /\
  fst (read_data 0x1000 1 (denso_session valid)) = Ok [0x55] /\
  fst (read_data 0x1000 1 p) = Raise NoResponse /\
  sent (snd (read_data 0x1000 1 p)) = [read_request 0x1000 1] /\
  rx (wire (link (snd (read_data 0x1000 1 p)))) = valid /\
  fst (read_data 0x1000 1 (denso_session [])) = Raise NoResponse /\
  sent (snd (read_data 0x1000 1 (denso_session []))) = [read_request 0x1000 1] /\
  fst (read_data 0x1000 1 (denso_session (denso_reply [RESP_NAK; 0x22])))
    = Raise (DeviceNAK (Some 0x22)).
Proof. vm_compute. repeat split; reflexivity. Qed.

End DensoProgramming.

(** * The frame codecs *)

Section FrameCodecs.

(** C4, as stated, fails. Bosch: the decoder never verifies the checksum,
    so a frame with a changed payload byte is returned as data.  Denso: a
    frame whose STX was changed is skipped byte by byte, and a later
    [0x02] inside the payload starts a frame of its own, which is accepted
    here; a frame whose LEN was changed from 3 to 1 is cut short and its
    first bytes pass as a frame. *)
Lemma C4_changed_byte_accepted :
  Bosch._build_kwp2000_frame [0x50; 0x01] = Ok [0x02; 0x50; 0x01; 0x53] /\
  fst (Bosch._read_response
         (bosch_session (map Some (<[2%nat := 0xFE]> [0x02; 0x50; 0x01; 0x53]))))
  = Ok [0x02; 0x50; 0xFE; 0x53] /\
  Denso._build_frame 0x10 [0x02; 0x01; 0x80; 0x80; 0x03]
  = Ok [0x02; 6; 0x10; 0x02; 0x01; 0x80; 0x80; 0x03; 0xEA; 0x03] /\
  fst (Denso._read_response
         (denso_session
            (map Some (<[0%nat := 0xFD]>
                         [0x02; 6; 0x10; 0x02; 0x01; 0x80; 0x80; 0x03; 0xEA; 0x03]))))
  = Ok [0x80] /\
  Denso._build_frame 0x10 [0xF0; 0x03] = Ok [0x02; 3; 0x10; 0xF0; 0x03; 0xFD; 0x03] /\
  fst (Denso._read_response
         (denso_session
            (map Some (<[1%nat := 1]> [0x02; 3; 0x10; 0xF0; 0x03; 0xFD; 0x03]))))
  = Ok [0x10].
Proof. vm_compute. repeat split; reflexivity. Qed.

(** C4, amended. For an opcode and a payload of at most 254 bytes, with
    the encoded frame followed by anything on the wire:
    - Denso: decoding the encoded frame yields the opcode followed by the
      payload, and a frame with one byte changed at the position of the
      opcode, the payload, the checksum or ETX is rejected (no frame);
    - Bosch: the decoder returns the whole frame (length byte, opcode and
      payload, checksum) after checking its length only, and returns a
      frame with any byte after the length byte changed just the same. *)
Theorem C4_codec_round_trip_and_rejection
    (pd : Denso.t) (pb : Bosch.t) (command : Z) (payload : bytes)
    (rest : list (option Z)) (i_d i_b : nat) (b' : Z) :
  ser_is_open (Denso.link pd) = true -> ser_is_open (Bosch.link pb) = true ->
  is_byte command -> is_bytes payload -> len payload < 255 ->
  let frame_d := DensoSpec.framed (command :: payload) in
  let frame_b := BoschSpec.framed (command :: payload) in
  (2 <= i_d < length frame_d)%nat -> is_byte b' -> frame_d !! i_d <> Some b' ->
  (1 <= i_b < length frame_b)%nat ->
  Denso._build_frame command payload = Ok frame_d /\
  Bosch._build_kwp2000_frame (command :: payload) = Ok frame_b /\
  Denso._read_response (DensoSpec.with_rx (map Some frame_d ++ rest) pd)
    = (Ok (command :: payload), DensoSpec.with_rx rest pd) /\
  Denso._read_response (DensoSpec.with_rx (map Some (<[i_d := b']> frame_d) ++ rest) pd)
    = (Ok [], DensoSpec.with_rx rest pd) /\
  Bosch._read_response (BoschSpec.with_rx (map Some frame_b ++ rest) pb)
    = (Ok frame_b, BoschSpec.with_rx rest pb) /\
  Bosch._read_response (BoschSpec.with_rx (map Some (<[i_b := b']> frame_b) ++ rest) pb)
    = (Ok (<[i_b := b']> frame_b), BoschSpec.with_rx rest pb).
Proof.
  intros Hod Hob Hc Hp Hl frame_d frame_b [Hi1 Hi2] Hb' Hne [Hj1 Hj2].
  assert (Hpos : 0 < len (command :: payload)) by (unfold len; simpl; lia).
  assert (Hlen : len (command :: payload) < 256) by (unfold len in *; simpl; lia).
  set (tail_b := (command :: payload)
                 ++ [Z.land (sum (command :: payload) + len (command :: payload)) 0xFF]).
  assert (Ht : forall x : bytes,
             length x = length tail_b -> len x = len (command :: payload) + 1).
  { intros x Hx. unfold len. rewrite Hx. unfold tail_b. rewrite length_app. simpl. lia. }
  repeat split.
  - now apply DensoFacts._build_frame_framed.
  - now apply BoschFacts._build_kwp2000_frame_ok.
  - exact (DensoFacts._read_response_roundtrip
             (DensoSpec.with_rx (map Some frame_d ++ rest) pd) (command :: payload) rest
             Hod eq_refl Hpos).
  - destruct i_d as [|[|j]]; [lia | lia |].
    unfold Denso._read_response.
    rewrite (DensoFacts.has_serial_open (DensoSpec.with_rx _ pd) Hod). simpl negb. cbv iota.
    unfold try_except, Denso.io, zoom.
    rewrite (DensoFacts.read_frame_flipped _ (command :: payload) rest j b');
      first [reflexivity | assumption | idtac].
    + now constructor.
    + unfold frame_d, DensoSpec.framed in Hi2. rewrite !length_app in Hi2.
      simpl in Hi2 |- *. lia.
  - exact (BoschFacts._read_response_on
             (BoschSpec.with_rx (map Some frame_b ++ rest) pb)
             (len (command :: payload)) tail_b rest Hob eq_refl Hpos (Ht _ eq_refl)).
  - destruct i_b as [|j]; [lia|].
    exact (BoschFacts._read_response_on
             (BoschSpec.with_rx (map Some (<[S j := b']> frame_b) ++ rest) pb)
             (len (command :: payload)) (<[j := b']> tail_b) rest
             Hob eq_refl Hpos (Ht _ (length_insert tail_b j b'))).
Qed.

(** The opcode [0x01] with the payload [0xAB]; the changed byte is the
    payload byte, set to [0xFF]. *)
Lemma C4_witness :
  let pd := denso_session [] in
  let pb := bosch_session [] in
  let frame_d := DensoSpec.framed [0x01; 0xAB] in
  let frame_b := BoschSpec.framed [0x01; 0xAB] in
  Denso._build_frame 0x01 [0xAB] = Ok frame_d /\
  Bosch._build_kwp2000_frame [0x01; 0xAB] = Ok frame_b /\
  Denso._read_response (DensoSpec.with_rx (map Some frame_d ++ []) pd)
    = (Ok [0x01; 0xAB], DensoSpec.with_rx [] pd) /\
  Denso._read_response (DensoSpec.with_rx (map Some (<[3%nat := 0xFF]> frame_d) ++ []) pd)
    = (Ok [], DensoSpec.with_rx [] pd) /\
  Bosch._read_response (BoschSpec.with_rx (map Some frame_b ++ []) pb)
    = (Ok frame_b, BoschSpec.with_rx [] pb) /\
  Bosch._read_response (BoschSpec.with_rx (map Some (<[2%nat := 0xFF]> frame_b) ++ []) pb)
    = (Ok (<[2%nat := 0xFF]> frame_b), BoschSpec.with_rx [] pb).
Proof.
  apply (C4_codec_round_trip_and_rejection (denso_session []) (bosch_session [])
           0x01 [0xAB] [] 3 2 0xFF).
  - reflexivity.
  - reflexivity.
  - unfold is_byte. lia.
  - repeat constructor; unfold is_byte; lia.
  - unfold len. simpl. lia.
  - simpl. lia.
  - unfold is_byte. lia.
  - simpl. discriminate.
  - simpl. lia.
Defined.

End FrameCodecs.

(** * The DTC codec *)

Section DTCCodec.

(** C5, as stated, fails for Bosch: the code [0x4123] has top bits [01]
    and low 14 bits [0x0123], so the stated format gives ["C0123"]; the
    Bosch implementation returns ["P4123"]. *)
Lemma C5_bosch_formats_all_16_bits_after_P :
  fst (Bosch.get_dtc_codes (bosch_session (bosch_reply [0x59; 0x41; 0x23]))) = Ok ["P4123"%string]
  /\ dtc_text 0x4123 = "C0123"%string.
Proof. vm_compute. split; reflexivity. Qed.

(** C5, amended. With [body] the bytes of the DTC list in a response:
    - Denso ([body] after the response code, the 2-byte length and the
      count byte): the first [count] complete 2-byte big-endian codes,
      zero skipped, each as the letter of its top two bits
      (0:P, 1:C, 2:B, 3:U) and its low 14 bits in four uppercase
      hexadecimal digits;
    - Bosch ([body] after the first two bytes of the raw frame): every
      complete 2-byte big-endian code, zero skipped, each as ["P"] and all
      16 bits in four uppercase hexadecimal digits;
    - Siemens over CAN ([body] after the first three bytes of the
      positive response): every complete 3-byte record, none skipped,
      each as ["P"], the first byte in two digits and the other two in
      four. *)
Theorem C5_dtc_decoding
    (pd : Denso.t) (pb : Bosch.t) (ps : Siemens.t) (body : bytes)
    (l1 l2 count n b1 d0 d2 : Z)
    (rest_d rest_b : list (option Z)) (rest_s : list (option CanMessage)) :
  is_bytes body ->
  Denso.is_connected pd = true -> ser_is_open (Denso.link pd) = true ->
  0 <= count ->
  rx (wire (Denso.link pd))
    = denso_reply ([Denso.RESP_DATA; l1; l2; count] ++ body) ++ rest_d ->
  Bosch.is_connected pb = true -> ser_is_open (Bosch.link pb) = true ->
  0 < n -> len body = n ->
  rx (wire (Bosch.link pb)) = map Some (n :: b1 :: body) ++ rest_b ->
  Siemens.is_connected ps = true -> bus (Siemens.can ps) = true ->
  can_rx (can_wire (Siemens.can ps))
    = Some {| arbitration_id := Siemens.RESPONSE_ID; data := d0 :: 0x59 :: d2 :: body;
              is_extended_id := false |} :: rest_s ->
  fst (Denso.get_dtc_codes pd)
    = Ok (map dtc_text (filter (fun c => c <> 0) (take (Z.to_nat count) (be16_codes body)))) /\
  fst (Bosch.get_dtc_codes pb)
    = Ok (map bosch_dtc_text (filter (fun c => c <> 0) (be16_codes body))) /\
  fst (Siemens.get_dtc_codes ps) = Ok (map siemens_dtc_text (be24_codes body)).
Proof.
  intros Hb Hcd Hod Hcount Hrd Hcb Hob Hn Hlen Hrb Hcs Hbus Hrs.
  repeat split.
  - unfold Denso.get_dtc_codes. rewrite Hcd. simpl negb. cbv iota.
    unfold try_except, bind, lift_res.
    rewrite DensoFacts._build_frame_ok by (cbv; first [split; congruence | reflexivity]).
    rewrite DensoFacts.io_write_open by exact Hod.
    rewrite (DensoFacts._read_response_roundtrip _
               ([Denso.RESP_DATA; l1; l2; count] ++ body) rest_d);
      [| exact Hod | exact Hrd | unfold len; simpl; lia].
    change (head_is ([Denso.RESP_DATA; l1; l2; count] ++ body) Denso.RESP_DATA) with true.
    destruct (Z.ltb_spec 3 (len ([Denso.RESP_DATA; l1; l2; count] ++ body)));
      [|unfold len in *; simpl in *; lia].
    change (slice_from ([Denso.RESP_DATA; l1; l2; count] ++ body) 3) with (count :: body).
    unfold ret. cbn [fst andb]. now rewrite Denso_parse_dtc.
  - unfold Bosch.get_dtc_codes. rewrite Hcb. simpl negb. cbv iota.
    unfold try_except, bind, lift_res.
    rewrite BoschFacts._build_kwp2000_frame_ok by (cbv; reflexivity).
    rewrite BoschFacts.kwp_io_write_open by exact Hob.
    rewrite (BoschFacts._read_response_on _ n (b1 :: body) rest_b);
      [| exact Hob | exact Hrb | exact Hn | unfold len in *; simpl; lia].
    destruct (Z.ltb_spec 2 (len (n :: b1 :: body)));
      [|unfold len in *; simpl in *; lia].
    change (slice_from (n :: b1 :: body) 2) with body.
    unfold ret. cbn [fst]. now rewrite Bosch_parse_dtc.
  - destruct ps as [c conn [b [pr crx ctx]] l sq]. simpl in Hcs, Hbus, Hrs. subst conn b crx.
    unfold Siemens.get_dtc_codes. cbn [Siemens.is_connected negb].
    unfold try_except, bind, gets, Siemens.canio, zoom, can_send, can_recv, ret.
    cbn [Siemens.can bus can_wire can_rx can_tx can_present Siemens.set_can fst snd].
    rewrite (positive_response _ 0x59 d0 (d2 :: body)) by reflexivity.
    change (slice_from (d0 :: 0x59 :: d2 :: body) 3) with body.
    now rewrite Siemens_parse_dtc.
Qed.

Lemma C5_witness :
  fst (Denso.get_dtc_codes
         (denso_session (denso_reply ([Denso.RESP_DATA; 0; 5; 2] ++ [0x41; 0x23; 0x00; 0x00]))))
    = Ok (map dtc_text (filter (fun c => c <> 0)
                          (take (Z.to_nat 2) (be16_codes [0x41; 0x23; 0x00; 0x00])))) /\
  fst (Bosch.get_dtc_codes
         (bosch_session (map Some [4; 0x59; 0x41; 0x23; 0x00; 0x00])))
    = Ok (map bosch_dtc_text (filter (fun c => c <> 0) (be16_codes [0x41; 0x23; 0x00; 0x00]))) /\
  fst (Siemens.get_dtc_codes
         (siemens_session
            [Some {| arbitration_id := Siemens.RESPONSE_ID;
                     data := [0x07; 0x59; 0x02; 0x41; 0x23; 0x00; 0x00];
                     is_extended_id := false |}]))
    = Ok (map siemens_dtc_text (be24_codes [0x41; 0x23; 0x00; 0x00])).
Proof.
  apply (C5_dtc_decoding _ _ _ [0x41; 0x23; 0x00; 0x00] 0 5 2 4 0x59 0x07 0x02 [] [] []);
    try reflexivity; try lia.
  repeat constructor; unfold is_byte; lia.
Defined.

End DTCCodec.

(** * Memory requests and the memory map *)

Section MemoryRequests.

(** C9. Over CAN, a Siemens write of more than 3 bytes sends nothing; a
    write of at most 3 bytes sends one single-frame message. *)
Theorem C9_siemens_can_write_single_frame_only
    (p : Siemens.t) (address : Z) (payload : bytes) :
  Siemens.is_connected p = true -> bus (Siemens.can p) = true -> is_bytes payload ->
  SiemensSpec.can_sent (snd (Siemens.write_data address payload p))
  = SiemensSpec.can_sent p
      ++ (if len payload <=? 3 then [SiemensSpec.write_msg address payload] else []).
Proof.
  intros Hc Hb Hp.
  unfold Siemens.write_data. rewrite Hc. simpl negb. cbv iota.
  unfold try_except, bind, gets, lift_res, ret. cbv beta iota. rewrite Hb.
  destruct (Z.leb_spec (len payload) 3) as [Hl|Hl].
  - rewrite SiemensFacts.bytes_of_ok.
    2:{ cbn [app].
        constructor; [unfold is_byte, len in *; lia|].
        constructor; [cbv; split; congruence|].
        constructor; [apply SiemensFacts.land_byte|].
        constructor; [apply SiemensFacts.land_byte | exact Hp]. }
    cbv beta iota zeta.
    match goal with
    | |- context [Siemens.canio (can_send ?m) p] =>
        destruct (SiemensFacts.canio_send_open p m Hb) as (p1 & -> & Hs & _ & _)
    end.
    pose proof (SiemensFacts.canio_recv_sent p1) as Hr.
    destruct (Siemens.canio can_recv p1) as [[r|e] p2]; simpl in Hr |- *;
      [destruct (Siemens.positive r 110)|]; simpl; now rewrite Hr, Hs.
  - rewrite app_nil_r.
    pose proof (SiemensFacts.canio_recv_sent p) as Hr.
    destruct (Siemens.canio can_recv p) as [[r|e] p1]; simpl in Hr |- *;
      [destruct (Siemens.positive r 110)|]; exact Hr.
Qed.

(** Four bytes: nothing is sent. *)
Lemma C9_witness :
  SiemensSpec.can_sent (snd (Siemens.write_data 0x123400 [1; 2; 3; 4] (siemens_session [])))
  = SiemensSpec.can_sent (siemens_session [])
      ++ (if len [1; 2; 3; 4] <=? 3 then [SiemensSpec.write_msg 0x123400 [1; 2; 3; 4]] else []).
Proof.
  apply (C9_siemens_can_write_single_frame_only (siemens_session []) 0x123400 [1; 2; 3; 4]).
  - reflexivity.
  - reflexivity.
  - repeat constructor; unfold is_byte; lia.
Defined.

Example siemens_write_of_3_bytes :
  SiemensSpec.can_sent (snd (Siemens.write_data 0x123400 [1; 2; 3] (siemens_session [])))
  = [Message Siemens.REQUEST_ID [6; 0x2E; 0x12; 0x34; 1; 2; 3]].
Proof. reflexivity. Qed.

(** C1, as stated, fails: [0x80000] lies just above the Denso ROM region
    and [0x700000] above the Bosch flash regions, so
    [validate_address_range] rejects both ranges; the read requests are
    written nonetheless, the Denso read even returns the byte the device
    supplies, and a Denso write there sends its erase and write frames. *)
Lemma C1_out_of_map_requests_are_sent :
  validate_address_range 0x80000 16 (ranges_of (memory_map DENSO_SH705X)) = false /\
  (let p := denso_session (denso_reply [Denso.RESP_DATA; 0; 1; 0x55]) in
   fst (Denso.read_data 0x80000 16 p) = Ok [0x55] /\
   DensoSpec.sent (snd (Denso.read_data 0x80000 16 p))
   = [DensoSpec.read_request 0x80000 16]) /\
  DensoSpec.sent (snd (Denso.write_data 0x80000 [0xAA] (denso_session [])))
  = [DensoSpec.erase_frame 0x80000; DensoSpec.write_frame 0x80000 [0xAA]] /\
  validate_address_range 0x700000 4 (ranges_of (memory_map BOSCH_ME17)) = false /\
  BoschSpec.sent (snd (Bosch.read_data 0x700000 4 (bosch_session [])))
  = [BoschSpec.read_request 0x700000 4].
Proof. vm_compute. repeat split; reflexivity. Qed.

(** C1, amended. [read_data] and [write_data] do not consult the
    memory-region table. On a connected session the request is written
    to the transport, inside the memory map or not, whenever it can be
    encoded: for Denso an address that fits 32 bits, a length that fits
    16 bits, a payload of at most 248 bytes; for Bosch an address that
    fits 24 bits, a length that fits 16 bits, a payload of at most 251
    bytes; for Siemens over CAN any address and any length, and a
    payload of at most 3 bytes.  A Denso write sends its erase frame
    first when the address is below the RAM base.  Only an address or a
    length that does not fit its field stops a Denso or Bosch read
    before anything is written, with the encoding error. *)
Theorem C1_requests_sent_without_map_validation
    (pd : Denso.t) (pb : Bosch.t) (ps : Siemens.t)
    (address_d address_b address_s n n_s : Z) (payload_d payload_b payload_s : bytes) :
  Denso.is_connected pd = true -> ser_is_open (Denso.link pd) = true ->
  Bosch.is_connected pb = true -> ser_is_open (Bosch.link pb) = true ->
  Siemens.is_connected ps = true -> bus (Siemens.can ps) = true ->
  0 <= address_d < 2 ^ 32 -> 0 <= address_b < 2 ^ 24 ->
  0 <= n < 2 ^ 16 ->
  len payload_d <= 248 -> len payload_b <= 251 ->
  is_bytes payload_s -> len payload_s <= 3 ->
  DensoSpec.sent (snd (Denso.read_data address_d n pd))
    = DensoSpec.sent pd ++ [DensoSpec.read_request address_d n] /\
  (exists post,
      DensoSpec.sent (snd (Denso.write_data address_d payload_d pd))
      = DensoSpec.sent pd
          ++ (if address_d <? Denso.RAM_BASE then [DensoSpec.erase_frame address_d] else [])
          ++ DensoSpec.write_frame address_d payload_d :: post) /\
  BoschSpec.sent (snd (Bosch.read_data address_b n pb))
    = BoschSpec.sent pb ++ [BoschSpec.read_request address_b n] /\
  BoschSpec.sent (snd (Bosch.write_data address_b payload_b pb))
    = BoschSpec.sent pb ++ [BoschSpec.write_request address_b payload_b] /\
  (exists post,
      SiemensSpec.can_sent (snd (Siemens.read_data address_s n_s ps))
      = SiemensSpec.can_sent ps ++ SiemensSpec.read_msg address_s :: post) /\
  SiemensSpec.can_sent (snd (Siemens.write_data address_s payload_s ps))
    = SiemensSpec.can_sent ps ++ [SiemensSpec.write_msg address_s payload_s] /\
  (forall a m, ~ (0 <= a < 2 ^ 32) \/ ~ (0 <= m < 2 ^ 16) ->
     Denso.read_data a m pd = (Raise StructError, pd)) /\
  (forall a m, ~ (0 <= a < 2 ^ 24) \/ ~ (0 <= m < 2 ^ 16) ->
     Bosch.read_data a m pb = (Raise OverflowError, pb)).
Proof.
  intros Hcd Hod Hcb Hob Hcs Hbs Had Hab Hn Hld Hlb Hps Hls.
  repeat split.
  - now apply DensoFacts.read_data_sends.
  - destruct (Z.ltb_spec address_d Denso.RAM_BASE) as [Hrom|Hram].
    + destruct (DensoFacts.write_data_rom_writes_anyway pd address_d payload_d)
        as [post Hp]; auto.
      { unfold Denso.ROM_BASE. lia. }
      exists post. exact Hp.
    + destruct (DensoFacts.write_data_ram_sends pd address_d payload_d)
        as [post Hp]; auto.
      { lia. }
      exists post. exact Hp.
  - now apply BoschFacts.kwp_read_data_sends.
  - now apply BoschFacts.write_data_sends.
  - now apply SiemensFacts.can_read_data_sends.
  - now apply SiemensLimits.can_write_data_sends.
  - intros a m Hbad. apply DensoFacts.read_data_unencodable; auto.
    now apply DensoFacts.has_serial_open.
  - intros a m Hbad. apply BoschFacts.kwp_read_data_unencodable; auto.
    now apply BoschFacts.kwp_has_serial_open.
Qed.

Lemma C1_witness :
  let pd := denso_session [] in
  let pb := bosch_session [] in
  let ps := siemens_session [] in
  DensoSpec.sent (snd (Denso.read_data 0x80000 16 pd))
    = DensoSpec.sent pd ++ [DensoSpec.read_request 0x80000 16] /\
  (exists post,
      DensoSpec.sent (snd (Denso.write_data 0x80000 [0xAA] pd))
      = DensoSpec.sent pd
          ++ (if 0x80000 <? Denso.RAM_BASE then [DensoSpec.erase_frame 0x80000] else [])
          ++ DensoSpec.write_frame 0x80000 [0xAA] :: post) /\
  BoschSpec.sent (snd (Bosch.read_data 0x700000 16 pb))
    = BoschSpec.sent pb ++ [BoschSpec.read_request 0x700000 16] /\
  BoschSpec.sent (snd (Bosch.write_data 0x700000 [0xAA] pb))
    = BoschSpec.sent pb ++ [BoschSpec.write_request 0x700000 [0xAA]] /\
  (exists post,
      SiemensSpec.can_sent (snd (Siemens.read_data 0x300000 16 ps))
      = SiemensSpec.can_sent ps ++ SiemensSpec.read_msg 0x300000 :: post) /\
  SiemensSpec.can_sent (snd (Siemens.write_data 0x300000 [0xAA] ps))
    = SiemensSpec.can_sent ps ++ [SiemensSpec.write_msg 0x300000 [0xAA]] /\
  (forall a m, ~ (0 <= a < 2 ^ 32) \/ ~ (0 <= m < 2 ^ 16) ->
     Denso.read_data a m pd = (Raise StructError, pd)) /\
  (forall a m, ~ (0 <= a < 2 ^ 24) \/ ~ (0 <= m < 2 ^ 16) ->
     Bosch.read_data a m pb = (Raise OverflowError, pb)).
Proof.
  apply (C1_requests_sent_without_map_validation
           (denso_session []) (bosch_session []) (siemens_session [])
           0x80000 0x700000 0x300000 16 16 [0xAA] [0xAA] [0xAA]).
  - reflexivity.
  - reflexivity.
  - reflexivity.
  - reflexivity.
  - reflexivity.
  - reflexivity.
  - lia.
  - lia.
  - lia.
  - unfold len. simpl. lia.
  - unfold len. simpl. lia.
  - repeat constructor; unfold is_byte; lia.
  - unfold len. simpl. lia.
Defined.

End MemoryRequests.

(** * The coordinator *)

Section Coordinator.




(** C10. Disconnecting with no family argument while no family is active
    returns [True] and leaves the whole bridge (protocol objects, their
    transports, session table, active pointer) as it was. *)
Theorem C10_disconnect_without_active (b : ECUBridge.t) :
  ECUManager._active_ecu (ECUBridge.manager b) = None ->
  ECUBridge.disconnect None b = (Ok true, b).
Proof.
  intros Hnone. destruct b as [[protos active] sess]. simpl in Hnone. subst active.
  reflexivity.
Qed.

Lemma C10_witness :
  ECUBridge.disconnect None idle_bridge = (Ok true, idle_bridge).
Proof. apply C10_disconnect_without_active. reflexivity. Defined.

(** The manager alone behaves the same way. *)
Lemma disconnect_ecu_without_active (s : ECUManager.t) :
  ECUManager._active_ecu s = None ->
  ECUManager.disconnect_ecu None s = (Ok true, s).
Proof. intros H. unfold ECUManager.disconnect_ecu, ECUManager.target. now rewrite H. Qed.

End Coordinator.

(** * More properties of the protocol engine and the coordinator *)

(** ** What the calls leave untouched *)

Section Preservation.
Context {S X : Type} (f : S -> X).

Lemma preserves_ret {A} (a : A) : preserves f (ret a).
Proof. now intros s. Qed.
Lemma preserves_raise {A} e : preserves f (@raise S A e).
Proof. now intros s. Qed.
Lemma preserves_gets {A} (g : S -> A) : preserves f (gets g).
Proof. now intros s. Qed.
Lemma preserves_lift_res {A} (r : res A) : preserves f (lift_res r).
Proof. now intros s. Qed.
Lemma preserves_bind {A B} (m : M S A) (k : A -> M S B) :
  preserves f m -> (forall a, preserves f (k a)) -> preserves f (bind m k).
Proof.
  intros Hm Hk s. unfold bind. specialize (Hm s).
  destruct (m s) as [[a|e] s1]; simpl in Hm; [|exact Hm].
  now rewrite Hk.
Qed.
Lemma preserves_try {A} (m : M S A) (h : exn -> M S A) :
  preserves f m -> (forall e, preserves f (h e)) -> preserves f (try_except m h).
Proof.
  intros Hm Hh s. unfold try_except. specialize (Hm s).
  destruct (m s) as [[a|e] s1]; simpl in Hm; [exact Hm|].
  now rewrite Hh.
Qed.
Lemma preserves_if {A} (b : bool) (m1 m2 : M S A) :
  preserves f m1 -> preserves f m2 -> preserves f (if b then m1 else m2).
Proof. now destruct b. Qed.
(** A computation on a component that [f] does not look at. *)
Lemma preserves_zoom_other {T A} (get : S -> T) (set : T -> S -> S) (m : M T A) :
  (forall t s, f (set t s) = f s) -> preserves f (zoom get set m).
Proof. intros H s. unfold zoom. destruct (m (get s)). simpl. apply H. Qed.
(** A computation on the component that [f] looks at, through [g]. *)
Lemma preserves_zoom_same {T A} (get : S -> T) (set : T -> S -> S) (g : T -> X) (m : M T A) :
  (forall t s, f (set t s) = g t) -> (forall s, f s = g (get s)) ->
  preserves g m -> preserves f (zoom get set m).
Proof.
  intros H1 H2 Hm s. unfold zoom. specialize (Hm (get s)).
  destruct (m (get s)) as [r t]. simpl in *. now rewrite H1, Hm, H2.
Qed.
End Preservation.

Create HintDb pres.
#[local] Hint Resolve preserves_ret preserves_raise preserves_gets preserves_lift_res
  preserves_bind preserves_try preserves_if : pres.

(** Reading and writing leave the port handle as it is; sending and
    receiving leave the bus as it is. *)
Lemma ser_read_handle n : preserves handle (ser_read n).
Proof.
  intros [h w]. unfold ser_read. simpl. destruct h as [h|]; [|reflexivity].
  destruct (is_open h); [|reflexivity]. now destruct (take_bytes _ _).
Qed.
Lemma ser_write_handle d : preserves handle (ser_write d).
Proof.
  intros [h w]. unfold ser_write. simpl. destruct h as [h|]; [|reflexivity].
  now destruct (is_open h).
Qed.
Lemma can_send_bus msg : preserves bus (can_send msg).
Proof. intros [b w]. unfold can_send. simpl. now destruct b. Qed.
Lemma can_recv_bus : preserves bus can_recv.
Proof.
  intros [b w]. unfold can_recv. simpl. destruct b; [|reflexivity].
  now destruct (can_rx w).
Qed.
#[local] Hint Resolve ser_read_handle ser_write_handle can_send_bus can_recv_bus : pres.

Module DensoKeeps.
Import Denso DensoSpec DensoFacts DensoObs.

Lemma io_port {A} (m : M SerialLink A) : preserves handle m -> preserves port (io m).
Proof. intros H. now apply (preserves_zoom_same port link set_link handle). Qed.

Lemma io_connected {A} (m : M SerialLink A) : preserves is_connected (io m).
Proof. now apply preserves_zoom_other. Qed.

Lemma find_stx_handle fuel : preserves handle (find_stx fuel).
Proof.
  induction fuel as [|fuel IH]; simpl; auto with pres.
  apply preserves_bind; auto with pres. intros [|b bs]; auto with pres.
Qed.

Lemma read_frame_handle : preserves handle read_frame.
Proof.
  unfold read_frame.
  apply preserves_bind; auto with pres. intros n.
  apply preserves_bind; [apply find_stx_handle|]. intros found.
  apply preserves_if; auto with pres.
  apply preserves_bind; auto with pres. intros [|length bs]; auto 10 with pres.
Qed.

Section Observation.
Context {X : Type} (f : t -> X).
Hypothesis f_io : forall A (m : M SerialLink A), preserves handle m -> preserves f (io m).

Lemma _read_response_preserves : preserves f _read_response.
Proof.
  intros p. unfold _read_response. destruct (negb _); [reflexivity|].
  apply (preserves_try f); auto using read_frame_handle with pres.
Qed.

Lemma _verify_checksum_preserves a n : preserves f (_verify_checksum a n).
Proof.
  unfold _verify_checksum.
  apply preserves_try; auto 20 using _read_response_preserves with pres.
Qed.

Lemma read_data_preserves a n : preserves f (read_data a n).
Proof.
  intros p. unfold read_data. destruct (_ || _); [reflexivity|].
  apply (preserves_try f); auto with pres.
  apply preserves_bind; [auto with pres|]; intros addr_bytes.
  apply preserves_bind; [auto with pres|]; intros len_bytes.
  apply preserves_bind; [auto with pres|]; intros frame.
  apply preserves_bind; [auto with pres|]; intros _.
  apply preserves_bind; [apply _read_response_preserves|]; intros [|r0 resp];
    auto 10 with pres.
Qed.

Lemma get_ecu_info_preserves : preserves f get_ecu_info.
Proof.
  intros p. unfold get_ecu_info. destruct (negb _); [reflexivity|].
  apply (preserves_try f); auto 20 using _read_response_preserves with pres.
Qed.

Lemma get_dtc_codes_preserves : preserves f get_dtc_codes.
Proof.
  intros p. unfold get_dtc_codes. destruct (negb _); [reflexivity|].
  apply (preserves_try f); auto 20 using _read_response_preserves with pres.
Qed.

Lemma clear_dtc_codes_preserves : preserves f clear_dtc_codes.
Proof.
  intros p. unfold clear_dtc_codes. destruct (negb _); [reflexivity|].
  apply (preserves_try f); auto 20 using _read_response_preserves with pres.
Qed.

Hypothesis f_erase : forall a, preserves f (_erase_sector a).

Lemma write_data_preserves a d : preserves f (write_data a d).
Proof.
  intros p. unfold write_data. destruct (_ || _); [reflexivity|].
  apply (preserves_try f); auto with pres.
  apply preserves_bind; [apply preserves_if; auto with pres|]; intros _.
  apply preserves_bind; [auto with pres|]; intros addr_bytes.
  apply preserves_bind; [auto with pres|]; intros len_bytes.
  apply preserves_bind; [auto with pres|]; intros frame.
  apply preserves_bind; [auto with pres|]; intros _.
  apply preserves_bind; [apply _read_response_preserves|]; intros response.
  apply preserves_if; auto with pres.
  apply preserves_bind; auto using _verify_checksum_preserves with pres.
Qed.
End Observation.

(** The sector erase raises the timeout of the port for the wait and
    puts the original value back: the handle is as before. *)
Lemma _erase_sector_port a : preserves port (_erase_sector a).
Proof.
  intros p. unfold _erase_sector, try_except, bind at 1, lift_res.
  destruct (struct_pack_I _) as [addr_bytes|e]; [|reflexivity].
  unfold bind at 1. destruct (_build_frame _ _) as [frame|e]; [|reflexivity].
  unfold bind at 1.
  destruct (ser_is_open (link p)) eqn:Ho.
  - rewrite io_write_open by exact Ho.
    destruct p as [c conn [[h|] w] act]; [|discriminate Ho].
    simpl in Ho. unfold bind, io, zoom, ser_get_timeout, ser_set_timeout; simpl.
    response_step resp r. simpl. unfold port. simpl. now rewrite handle_eta.
  - pose proof (io_port (ser_write frame) (ser_write_handle frame) p) as Hw.
    destruct (io (ser_write frame) p) as [[[]|e] p1] eqn:Ew; [|exact Hw].
    exfalso. unfold io, zoom, ser_write, ser_is_open in *.
    destruct (handle (link p)) as [h|]; [|discriminate].
    rewrite Ho in Ew. discriminate.
Qed.

Lemma _erase_sector_connected a : preserves is_connected (_erase_sector a).
Proof.
  unfold _erase_sector.
  apply preserves_try; auto with pres.
  apply preserves_bind; [auto with pres|]; intros addr_bytes.
  apply preserves_bind; [auto with pres|]; intros frame.
  apply preserves_bind; [apply io_connected|]; intros _.
  apply preserves_bind; [apply io_connected|]; intros original_timeout.
  apply preserves_bind; [apply io_connected|]; intros _.
  apply preserves_bind; [apply _read_response_preserves; intros; apply io_connected|].
  intros response. apply preserves_bind; [apply io_connected | auto with pres].
Qed.

Lemma write_data_port a d : preserves port (write_data a d).
Proof. apply write_data_preserves; [apply @io_port | apply _erase_sector_port]. Qed.

Lemma write_data_connected a d : preserves is_connected (write_data a d).
Proof.
  apply write_data_preserves; [intros; apply io_connected | apply _erase_sector_connected].
Qed.
End DensoKeeps.

Module BoschKeeps.
Import Bosch BoschSpec BoschFacts BoschObs.

Lemma kwp_io_port {A} (m : M SerialLink A) : preserves handle m -> preserves port (io m).
Proof. intros H. now apply (preserves_zoom_same port link set_link handle). Qed.

Lemma kwp_io_connected {A} (m : M SerialLink A) : preserves is_connected (io m).
Proof. now apply preserves_zoom_other. Qed.

Lemma kwp_read_frame_handle : preserves handle read_frame.
Proof.
  unfold read_frame.
  apply preserves_bind; auto with pres. intros [|length bs]; auto 10 with pres.
Qed.

Section Observation.
Context {X : Type} (f : t -> X).
Hypothesis f_io : forall A (m : M SerialLink A), preserves handle m -> preserves f (io m).

Lemma kwp_read_response_preserves : preserves f _read_response.
Proof.
  intros p. unfold _read_response. destruct (negb _); [reflexivity|].
  apply (preserves_try f); auto using kwp_read_frame_handle with pres.
Qed.

Lemma kwp_read_data_preserves a n : preserves f (read_data a n).
Proof.
  intros p. unfold read_data. destruct (_ || _); [reflexivity|].
  apply (preserves_try f); auto 20 using kwp_read_response_preserves with pres.
Qed.

Lemma kwp_write_data_preserves a d : preserves f (write_data a d).
Proof.
  intros p. unfold write_data. destruct (_ || _); [reflexivity|].
  apply (preserves_try f); auto 20 using kwp_read_response_preserves with pres.
Qed.

Lemma kwp_get_ecu_info_preserves : preserves f get_ecu_info.
Proof.
  intros p. unfold get_ecu_info. destruct (negb _); [reflexivity|].
  apply (preserves_try f); auto 20 using kwp_read_response_preserves with pres.
Qed.

Lemma kwp_get_dtc_codes_preserves : preserves f get_dtc_codes.
Proof.
  intros p. unfold get_dtc_codes. destruct (negb _); [reflexivity|].
  apply (preserves_try f); auto 20 using kwp_read_response_preserves with pres.
Qed.

Lemma kwp_clear_dtc_codes_preserves : preserves f clear_dtc_codes.
Proof.
  intros p. unfold clear_dtc_codes. destruct (negb _); [reflexivity|].
  apply (preserves_try f); auto 20 using kwp_read_response_preserves with pres.
Qed.
End Observation.
End BoschKeeps.

Module SiemensKeeps.
Import Siemens SiemensSpec SiemensFacts SiemensObs.

Lemma uds_io_port {A} (m : M SerialLink A) : preserves handle m -> preserves port (io m).
Proof. intros H. now apply (preserves_zoom_same port link set_link handle). Qed.
Lemma uds_canio_port {A} (m : M CanLink A) : preserves port (canio m).
Proof. now apply preserves_zoom_other. Qed.
Lemma uds_io_bus {A} (m : M SerialLink A) : preserves has_bus (io m).
Proof. now apply preserves_zoom_other. Qed.
Lemma uds_canio_bus {A} (m : M CanLink A) : preserves bus m -> preserves has_bus (canio m).
Proof. intros H. now apply (preserves_zoom_same has_bus can set_can bus). Qed.
Lemma uds_io_connected {A} (m : M SerialLink A) : preserves is_connected (io m).
Proof. now apply preserves_zoom_other. Qed.
Lemma uds_canio_connected {A} (m : M CanLink A) : preserves is_connected (canio m).
Proof. now apply preserves_zoom_other. Qed.

Section Observation.
Context {X : Type} (f : t -> X).
Hypothesis f_io : forall A (m : M SerialLink A), preserves handle m -> preserves f (io m).
Hypothesis f_canio : forall A (m : M CanLink A), preserves bus m -> preserves f (canio m).

Lemma read_frames_preserves fuel : forall n acc, preserves f (read_frames fuel n acc).
Proof.
  induction fuel as [|fuel IH]; intros n acc; simpl.
  - apply preserves_if; auto with pres.
  - apply preserves_if; auto with pres.
    apply preserves_bind; [auto with pres|].
    intros [r|]; auto 20 with pres.
Qed.

Lemma uds_read_data_preserves a n : preserves f (read_data a n).
Proof.
  intros p. unfold read_data. destruct (negb _); [reflexivity|].
  apply (preserves_try f); auto with pres.
  apply preserves_bind; auto with pres. intros has_bus.
  apply preserves_if.
  - unfold _read_data_can.
    apply preserves_bind; [auto with pres|]. intros _.
    apply preserves_bind; auto with pres. intros k.
    apply preserves_bind; auto using read_frames_preserves with pres.
  - unfold _read_data_serial.
    apply preserves_bind; [auto with pres|]. intros _.
    apply preserves_bind; [auto with pres|]. intros r.
    apply preserves_if; auto with pres.
Qed.

Lemma uds_write_data_preserves a d : preserves f (write_data a d).
Proof.
  intros p. unfold write_data. destruct (negb _); [reflexivity|].
  apply (preserves_try f); auto with pres.
  apply preserves_bind; auto with pres. intros has_bus.
  apply preserves_if.
  - apply preserves_bind; [apply preserves_if; auto 10 with pres|]. intros _.
    apply preserves_bind; auto with pres.
  - auto 20 with pres.
Qed.

Lemma read_did_preserves did key g info : preserves f (read_did did key g info).
Proof.
  unfold read_did. apply preserves_try; auto with pres.
  apply preserves_bind; [apply uds_read_data_preserves|].
  intros [|]; auto with pres.
Qed.

Lemma uds_get_ecu_info_preserves : preserves f get_ecu_info.
Proof.
  intros p. unfold get_ecu_info. destruct (negb _); [reflexivity|].
  apply (preserves_try f); auto with pres.
  repeat (apply preserves_bind;
          [first [apply read_did_preserves | auto with pres]|]; intros).
  auto with pres.
Qed.

Lemma uds_get_dtc_codes_preserves : preserves f get_dtc_codes.
Proof.
  intros p. unfold get_dtc_codes. destruct (negb _); [reflexivity|].
  apply (preserves_try f); auto with pres.
  apply preserves_bind; auto with pres. intros has_bus.
  apply preserves_if; auto with pres.
  apply preserves_bind; [auto with pres|]. intros _.
  apply preserves_bind; [auto with pres|]. intros [r|]; auto with pres.
Qed.

Lemma uds_clear_dtc_codes_preserves : preserves f clear_dtc_codes.
Proof.
  intros p. unfold clear_dtc_codes. destruct (negb _); [reflexivity|].
  apply (preserves_try f); auto 20 with pres.
Qed.
End Observation.
End SiemensKeeps.

(** ** Ending a session *)

Lemma Denso_disconnect_spec (p : Denso.t) :
  let p' := snd (Denso.disconnect p) in
  fst (Denso.disconnect p) = Ok true /\
  Denso.is_connected p' = false /\ Denso._session_active p' = false /\
  ser_is_open (Denso.link p') = false /\
  DensoSpec.sent p' = DensoSpec.sent p ++
     (if ser_is_open (Denso.link p) && Denso._session_active p
      then [DensoSpec.framed [Denso.CMD_RESET]] else []) /\
  rx (wire (Denso.link p')) = rx (wire (Denso.link p)) /\ Denso.cfg p' = Denso.cfg p.
Proof.
  destruct p as [c conn [[[[|] tmo]|] [pr r t]] [|]]; cbn; rewrite ?app_nil_r;
    repeat split; reflexivity.
Qed.

Lemma Bosch_disconnect_spec (p : Bosch.t) :
  let p' := snd (Bosch.disconnect p) in
  fst (Bosch.disconnect p) = Ok true /\
  Bosch.is_connected p' = false /\
  ser_is_open (Bosch.link p') = false /\
  BoschSpec.sent p' = BoschSpec.sent p ++
     (if ser_is_open (Bosch.link p) then [BoschSpec.framed Bosch.CMD_DISCONNECT] else []) /\
  rx (wire (Bosch.link p')) = rx (wire (Bosch.link p)) /\ Bosch.cfg p' = Bosch.cfg p.
Proof.
  destruct p as [c conn [[[[|] tmo]|] [pr r t]]]; cbn; rewrite ?app_nil_r;
    repeat split; reflexivity.
Qed.

Lemma Siemens_disconnect_spec (p : Siemens.t) :
  let p' := snd (Siemens.disconnect p) in
  fst (Siemens.disconnect p) = Ok true /\
  Siemens.is_connected p' = false /\
  bus (Siemens.can p') = false /\
  ser_is_open (Siemens.link p') = false /\
  SiemensSpec.can_sent p' = SiemensSpec.can_sent p ++
     (if bus (Siemens.can p)
      then [Message Siemens.REQUEST_ID
              [0x02; Siemens.CMD_DIAGNOSTIC_SESSION; Siemens.SESSION_DEFAULT]]
      else []) /\
  Siemens.cfg p' = Siemens.cfg p.
Proof.
  destruct p as [c conn [[|] [pr r t]] [[[o tmo]|] w] sq]; cbn; rewrite ?app_nil_r;
    repeat split; reflexivity.
Qed.

(** Over a transport that does not fail, whatever the class of the
    object and whatever its state, [disconnect] returns [True] and
    leaves the object not connected. *)
Lemma disconnect_ok (o : protocol) :
  exists o', disconnect o = (Ok true, o') /\ connected o' = false /\ config o' = config o.
Proof.
  destruct o as [p|p|p].
  - destruct (Bosch_disconnect_spec p) as (H1 & H2 & _ & _ & _ & H3).
    exists (PBosch (snd (Bosch.disconnect p))). repeat split; [|exact H2|exact H3].
    change (disconnect (PBosch p))
      with (let '(r, p') := Bosch.disconnect p in (r, PBosch p')).
    destruct (Bosch.disconnect p) as [r p']. simpl in H1. now subst r.
  - destruct (Siemens_disconnect_spec p) as (H1 & H2 & _ & _ & _ & H3).
    exists (PSiemens (snd (Siemens.disconnect p))). repeat split; [|exact H2|exact H3].
    change (disconnect (PSiemens p))
      with (let '(r, p') := Siemens.disconnect p in (r, PSiemens p')).
    destruct (Siemens.disconnect p) as [r p']. simpl in H1. now subst r.
  - destruct (Denso_disconnect_spec p) as (H1 & H2 & _ & _ & _ & _ & H3).
    exists (PDenso (snd (Denso.disconnect p))). repeat split; [|exact H2|exact H3].
    change (disconnect (PDenso p))
      with (let '(r, p') := Denso.disconnect p in (r, PDenso p')).
    destruct (Denso.disconnect p) as [r p']. simpl in H1. now subst r.
Qed.

Lemma try_except_ret_ok {S A} (m : M S A) (h : exn -> A) (s : S) :
  exists a s', try_except m (fun e => ret (h e)) s = (Ok a, s').
Proof. unfold try_except, ret. destruct (m s) as [[a|e] s']; eauto. Qed.

(** [get_ecu_info] never raises, whatever the class and state of the
    object. *)
Lemma get_ecu_info_ok (o : protocol) : exists i o', get_ecu_info o = (Ok i, o').
Proof.
  destruct o as [p|p|p].
  - change (get_ecu_info (PBosch p))
      with (let '(r, p') := Bosch.get_ecu_info p in (r, PBosch p')).
    unfold Bosch.get_ecu_info. destruct (negb _); [eauto|].
    match goal with |- context [try_except ?m (fun e => ret (@?h e)) p] =>
      destruct (try_except_ret_ok m h p) as (a & s' & ->) end. eauto.
  - change (get_ecu_info (PSiemens p))
      with (let '(r, p') := Siemens.get_ecu_info p in (r, PSiemens p')).
    unfold Siemens.get_ecu_info. destruct (negb _); [eauto|].
    match goal with |- context [try_except ?m (fun e => ret (@?h e)) p] =>
      destruct (try_except_ret_ok m h p) as (a & s' & ->) end. eauto.
  - change (get_ecu_info (PDenso p))
      with (let '(r, p') := Denso.get_ecu_info p in (r, PDenso p')).
    unfold Denso.get_ecu_info. destruct (negb _); [eauto|].
    match goal with |- context [try_except ?m (fun e => ret (@?h e)) p] =>
      destruct (try_except_ret_ok m h p) as (a & s' & ->) end. eauto.
Qed.


(** ** Opening and ending a session *)

Lemma preserves_modify {S X} (f : S -> X) (g : S -> S) :
  (forall s, f (g s) = f s) -> preserves f (modify g).
Proof. intros H s. apply H. Qed.

Module DensoSession.
Import Denso DensoSpec DensoFacts DensoObs DensoKeeps.

Lemma io_open (p : t) (tmo : Q) :
  present (wire (link p)) = true ->
  io (ser_open tmo) p =
    (Ok tt, set_link {| handle := Some {| is_open := true; ser_timeout := tmo |};
                        wire := wire (link p) |} p).
Proof. intros H. unfold io, zoom, ser_open. now rewrite H. Qed.

(** A port that cannot be opened: [connect] returns [False] and the
    object is as before. *)
Lemma connect_absent (p : t) :
  present (wire (link p)) = false -> connect p = (Ok false, p).
Proof.
  intros Hp. unfold connect, try_except, bind, gets, io, zoom, ser_open. rewrite Hp.
  now destruct p as [c conn [h w] act].
Qed.

(** A port that can be opened is open after [connect], whatever the
    device answers. *)
Lemma connect_opens (p : t) :
  present (wire (link p)) = true -> ser_is_open (link (snd (connect p))) = true.
Proof.
  intros Hp. unfold connect, try_except, bind at 1, gets.
  unfold bind at 1. rewrite (io_open p _ Hp).
  match goal with |- context [bind ?m ?k ?s] =>
    assert (H : port (snd (bind m k s)) = port s);
    [|destruct (bind m k s) as [[a|e] s']; unfold port, ser_is_open in *; simpl in *;
      now rewrite H]
  end.
  apply (preserves_bind port); [apply io_port; auto with pres|]; intros _.
  apply preserves_bind; [auto with pres|]; intros init_frame.
  apply preserves_bind; [apply io_port; auto with pres|]; intros _.
  apply preserves_bind; [apply _read_response_preserves, @io_port|]; intros response.
  apply preserves_if; auto with pres.
  apply preserves_bind; [auto with pres|]; intros wake_up.
  apply preserves_bind; [apply io_port; auto with pres|]; intros _.
  apply preserves_bind; [apply _read_response_preserves, @io_port|]; intros response2.
  apply preserves_if; auto with pres.
  apply preserves_bind; [now apply preserves_modify|]; intros _.
  apply preserves_bind; [now apply preserves_modify | auto with pres].
Qed.
End DensoSession.

Module BoschSession.
Import Bosch BoschSpec BoschFacts BoschObs BoschKeeps.

Lemma kwp_io_open (p : t) (tmo : Q) :
  present (wire (link p)) = true ->
  io (ser_open tmo) p =
    (Ok tt, set_link {| handle := Some {| is_open := true; ser_timeout := tmo |};
                        wire := wire (link p) |} p).
Proof. intros H. unfold io, zoom, ser_open. now rewrite H. Qed.

Lemma kwp_connect_absent (p : t) :
  present (wire (link p)) = false -> connect p = (Ok false, p).
Proof.
  intros Hp. unfold connect, try_except, bind, gets, io, zoom, ser_open. rewrite Hp.
  now destruct p as [c conn [h w]].
Qed.

Lemma kwp_connect_opens (p : t) :
  present (wire (link p)) = true -> ser_is_open (link (snd (connect p))) = true.
Proof.
  intros Hp. unfold connect, try_except, bind at 1, gets.
  unfold bind at 1. rewrite (kwp_io_open p _ Hp).
  match goal with |- context [bind ?m ?k ?s] =>
    assert (H : port (snd (bind m k s)) = port s);
    [|destruct (bind m k s) as [[a|e] s']; unfold port, ser_is_open in *; simpl in *;
      now rewrite H]
  end.
  apply (preserves_bind port); [apply kwp_io_port; auto with pres|]; intros _.
  apply preserves_bind; [auto with pres|]; intros connect_frame.
  apply preserves_bind; [apply kwp_io_port; auto with pres|]; intros _.
  apply preserves_bind; [apply kwp_read_response_preserves, @kwp_io_port|]; intros response.
  apply preserves_if; auto with pres.
  apply preserves_bind; [now apply preserves_modify | auto with pres].
Qed.
End BoschSession.

Module SiemensSession.
Import Siemens SiemensSpec SiemensFacts SiemensObs SiemensKeeps.

Lemma connect_can_absent (p : t) :
  can_present (can_wire (can p)) = false -> _connect_can p = (Ok false, p).
Proof.
  intros Hp. unfold _connect_can, try_except, bind, canio, zoom, can_open. rewrite Hp.
  now destruct p as [c conn [b cw] l sq].
Qed.

Lemma connect_serial_absent (p : t) :
  present (wire (link p)) = false -> _connect_serial p = (Ok false, p).
Proof.
  intros Hp. unfold _connect_serial, try_except, bind, gets, io, zoom, ser_open. rewrite Hp.
  now destruct p as [c conn cl [h w] sq].
Qed.

Lemma connect_can_opens (p : t) :
  can_present (can_wire (can p)) = true -> bus (can (snd (_connect_can p))) = true.
Proof.
  intros Hp. unfold _connect_can, try_except, bind at 1.
  unfold canio at 1, zoom, can_open. rewrite Hp.
  match goal with |- context [bind ?m ?k ?s] =>
    assert (H : has_bus (snd (bind m k s)) = has_bus s);
    [|destruct (bind m k s) as [[a|e] s']; unfold has_bus in *; simpl in *; now rewrite H]
  end.
  apply (preserves_bind has_bus); [apply uds_canio_bus; auto with pres|]; intros _.
  apply preserves_bind; [apply uds_canio_bus; auto with pres|]; intros response.
  apply preserves_if; auto with pres.
  apply preserves_bind; [now apply preserves_modify | auto with pres].
Qed.

Lemma connect_serial_opens (p : t) :
  present (wire (link p)) = true -> ser_is_open (link (snd (_connect_serial p))) = true.
Proof.
  intros Hp. unfold _connect_serial, try_except, bind at 1, gets.
  unfold bind at 1, io at 1, zoom, ser_open. rewrite Hp.
  match goal with |- context [bind ?m ?k ?s] =>
    assert (H : port (snd (bind m k s)) = port s);
    [|destruct (bind m k s) as [[a|e] s']; unfold port, ser_is_open in *; simpl in *;
      now rewrite H]
  end.
  apply (preserves_bind port); [apply uds_io_port; auto with pres|]; intros _.
  apply preserves_bind; [apply uds_io_port; auto with pres|]; intros _.
  apply preserves_bind; [apply uds_io_port; auto with pres|]; intros response.
  apply preserves_if; auto with pres.
  apply preserves_bind; [now apply preserves_modify | auto with pres].
Qed.

(** [connect] is the method of the connection type; the handler around
    it is never reached. *)
Lemma connect_by_type (p : t) :
  connect p = match connection_type (cfg p) with
              | CAN_BUS => _connect_can p
              | SERIAL => _connect_serial p
              | _ => (Ok false, p)
              end.
Proof.
  unfold connect, try_except, bind, gets.
  destruct (connection_type (cfg p)); try reflexivity.
  - unfold _connect_serial.
    match goal with |- context [try_except ?m (fun e => ret (@?h e)) p] =>
      destruct (try_except_ret_ok m h p) as (a & s' & ->) end. reflexivity.
  - unfold _connect_can.
    match goal with |- context [try_except ?m (fun e => ret (@?h e)) p] =>
      destruct (try_except_ret_ok m h p) as (a & s' & ->) end. reflexivity.
Qed.
End SiemensSession.

(** [connect] of any protocol object: either the device cannot be opened
    and the object is as before, or the transport is open afterwards,
    whatever the device answered. *)
Lemma connect_outcome (o : protocol) :
  (transport_present o = false /\ connect o = (Ok false, o)) \/
  (transport_present o = true /\ transport_open (snd (connect o)) = true).
Proof.
  destruct o as [p|p|p]; unfold transport_present.
  - change (connect (PBosch p)) with (let '(r, p') := Bosch.connect p in (r, PBosch p')).
    destruct (present (wire (Bosch.link p))) eqn:Hp.
    + right. split; [reflexivity|].
      pose proof (BoschSession.kwp_connect_opens p Hp) as H.
      now destruct (Bosch.connect p).
    + left. now rewrite BoschSession.kwp_connect_absent.
  - change (connect (PSiemens p)) with (let '(r, p') := Siemens.connect p in (r, PSiemens p')).
    rewrite SiemensSession.connect_by_type.
    destruct (connection_type (Siemens.cfg p)); try (left; split; reflexivity).
    + destruct (present (wire (Siemens.link p))) eqn:Hp.
      * right. split; [reflexivity|].
        pose proof (SiemensSession.connect_serial_opens p Hp) as H.
        destruct (Siemens._connect_serial p). simpl in *. rewrite H. apply orb_true_r.
      * left. now rewrite SiemensSession.connect_serial_absent.
    + destruct (can_present (can_wire (Siemens.can p))) eqn:Hp.
      * right. split; [reflexivity|].
        pose proof (SiemensSession.connect_can_opens p Hp) as H.
        destruct (Siemens._connect_can p). simpl in *. now rewrite H.
      * left. now rewrite SiemensSession.connect_can_absent.
  - change (connect (PDenso p)) with (let '(r, p') := Denso.connect p in (r, PDenso p')).
    destruct (present (wire (Denso.link p))) eqn:Hp.
    + right. split; [reflexivity|].
      pose proof (DensoSession.connect_opens p Hp) as H.
      now destruct (Denso.connect p).
    + left. now rewrite DensoSession.connect_absent.
Qed.

(** The calls other than [connect] and [disconnect] change neither the
    [connected] flag nor the transport an object holds. *)
Lemma is_open_port (l l' : SerialLink) : handle l' = handle l -> ser_is_open l' = ser_is_open l.
Proof. unfold ser_is_open. now intros ->. Qed.

Lemma Denso_call_keeps (p : Denso.t) (c : call) :
  c <> Connect -> c <> Disconnect ->
  exists p', after (PDenso p) c = PDenso p' /\
             Denso.is_connected p' = Denso.is_connected p /\
             DensoObs.port p' = DensoObs.port p.
Proof.
  intros H1 H2. destruct c; try congruence; unfold after.
  - change (read_data address length (PDenso p))
      with (let '(r, p') := Denso.read_data address length p in (r, PDenso p')).
    pose proof (DensoKeeps.read_data_preserves _ (fun A m _ => DensoKeeps.io_connected m)
                  address length p).
    pose proof (DensoKeeps.read_data_preserves _ (@DensoKeeps.io_port) address length p).
    destruct (Denso.read_data address length p). eauto.
  - change (write_data address payload (PDenso p))
      with (let '(r, p') := Denso.write_data address payload p in (r, PDenso p')).
    pose proof (DensoKeeps.write_data_connected address payload p).
    pose proof (DensoKeeps.write_data_port address payload p).
    destruct (Denso.write_data address payload p). eauto.
  - change (get_ecu_info (PDenso p))
      with (let '(r, p') := Denso.get_ecu_info p in (r, PDenso p')).
    pose proof (DensoKeeps.get_ecu_info_preserves _ (fun A m _ => DensoKeeps.io_connected m) p).
    pose proof (DensoKeeps.get_ecu_info_preserves _ (@DensoKeeps.io_port) p).
    destruct (Denso.get_ecu_info p). eauto.
  - change (get_dtc_codes (PDenso p))
      with (let '(r, p') := Denso.get_dtc_codes p in (r, PDenso p')).
    pose proof (DensoKeeps.get_dtc_codes_preserves _ (fun A m _ => DensoKeeps.io_connected m) p).
    pose proof (DensoKeeps.get_dtc_codes_preserves _ (@DensoKeeps.io_port) p).
    destruct (Denso.get_dtc_codes p). eauto.
  - change (clear_dtc_codes (PDenso p))
      with (let '(r, p') := Denso.clear_dtc_codes p in (r, PDenso p')).
    pose proof (DensoKeeps.clear_dtc_codes_preserves _
                  (fun A m _ => DensoKeeps.io_connected m) p).
    pose proof (DensoKeeps.clear_dtc_codes_preserves _ (@DensoKeeps.io_port) p).
    destruct (Denso.clear_dtc_codes p). eauto.
Qed.

Lemma Bosch_call_keeps (p : Bosch.t) (c : call) :
  c <> Connect -> c <> Disconnect ->
  exists p', after (PBosch p) c = PBosch p' /\
             Bosch.is_connected p' = Bosch.is_connected p /\
             BoschObs.port p' = BoschObs.port p.
Proof.
  intros H1 H2. destruct c; try congruence; unfold after.
  - change (read_data address length (PBosch p))
      with (let '(r, p') := Bosch.read_data address length p in (r, PBosch p')).
    pose proof (BoschKeeps.kwp_read_data_preserves _
                  (fun A m _ => BoschKeeps.kwp_io_connected m) address length p).
    pose proof (BoschKeeps.kwp_read_data_preserves _ (@BoschKeeps.kwp_io_port)
                  address length p).
    destruct (Bosch.read_data address length p). eauto.
  - change (write_data address payload (PBosch p))
      with (let '(r, p') := Bosch.write_data address payload p in (r, PBosch p')).
    pose proof (BoschKeeps.kwp_write_data_preserves _
                  (fun A m _ => BoschKeeps.kwp_io_connected m) address payload p).
    pose proof (BoschKeeps.kwp_write_data_preserves _ (@BoschKeeps.kwp_io_port)
                  address payload p).
    destruct (Bosch.write_data address payload p). eauto.
  - change (get_ecu_info (PBosch p))
      with (let '(r, p') := Bosch.get_ecu_info p in (r, PBosch p')).
    pose proof (BoschKeeps.kwp_get_ecu_info_preserves _
                  (fun A m _ => BoschKeeps.kwp_io_connected m) p).
    pose proof (BoschKeeps.kwp_get_ecu_info_preserves _ (@BoschKeeps.kwp_io_port) p).
    destruct (Bosch.get_ecu_info p). eauto.
  - change (get_dtc_codes (PBosch p))
      with (let '(r, p') := Bosch.get_dtc_codes p in (r, PBosch p')).
    pose proof (BoschKeeps.kwp_get_dtc_codes_preserves _
                  (fun A m _ => BoschKeeps.kwp_io_connected m) p).
    pose proof (BoschKeeps.kwp_get_dtc_codes_preserves _ (@BoschKeeps.kwp_io_port) p).
    destruct (Bosch.get_dtc_codes p). eauto.
  - change (clear_dtc_codes (PBosch p))
      with (let '(r, p') := Bosch.clear_dtc_codes p in (r, PBosch p')).
    pose proof (BoschKeeps.kwp_clear_dtc_codes_preserves _
                  (fun A m _ => BoschKeeps.kwp_io_connected m) p).
    pose proof (BoschKeeps.kwp_clear_dtc_codes_preserves _ (@BoschKeeps.kwp_io_port) p).
    destruct (Bosch.clear_dtc_codes p). eauto.
Qed.

Lemma Siemens_call_keeps (p : Siemens.t) (c : call) :
  c <> Connect -> c <> Disconnect ->
  exists p', after (PSiemens p) c = PSiemens p' /\
             Siemens.is_connected p' = Siemens.is_connected p /\
             SiemensObs.port p' = SiemensObs.port p /\
             SiemensObs.has_bus p' = SiemensObs.has_bus p.
Proof.
  intros H1 H2. destruct c; try congruence; unfold after.
  - change (read_data address length (PSiemens p))
      with (let '(r, p') := Siemens.read_data address length p in (r, PSiemens p')).
    pose proof (SiemensKeeps.uds_read_data_preserves _
                  (fun A m _ => SiemensKeeps.uds_io_connected m)
                  (fun A m _ => SiemensKeeps.uds_canio_connected m) address length p).
    pose proof (SiemensKeeps.uds_read_data_preserves _ (@SiemensKeeps.uds_io_port)
                  (fun A m _ => SiemensKeeps.uds_canio_port m) address length p).
    pose proof (SiemensKeeps.uds_read_data_preserves _
                  (fun A m _ => SiemensKeeps.uds_io_bus m)
                  (@SiemensKeeps.uds_canio_bus) address length p).
    destruct (Siemens.read_data address length p). eauto.
  - change (write_data address payload (PSiemens p))
      with (let '(r, p') := Siemens.write_data address payload p in (r, PSiemens p')).
    pose proof (SiemensKeeps.uds_write_data_preserves _
                  (fun A m _ => SiemensKeeps.uds_io_connected m)
                  (fun A m _ => SiemensKeeps.uds_canio_connected m) address payload p).
    pose proof (SiemensKeeps.uds_write_data_preserves _ (@SiemensKeeps.uds_io_port)
                  (fun A m _ => SiemensKeeps.uds_canio_port m) address payload p).
    pose proof (SiemensKeeps.uds_write_data_preserves _
                  (fun A m _ => SiemensKeeps.uds_io_bus m)
                  (@SiemensKeeps.uds_canio_bus) address payload p).
    destruct (Siemens.write_data address payload p). eauto.
  - change (get_ecu_info (PSiemens p))
      with (let '(r, p') := Siemens.get_ecu_info p in (r, PSiemens p')).
    pose proof (SiemensKeeps.uds_get_ecu_info_preserves _
                  (fun A m _ => SiemensKeeps.uds_io_connected m)
                  (fun A m _ => SiemensKeeps.uds_canio_connected m) p).
    pose proof (SiemensKeeps.uds_get_ecu_info_preserves _ (@SiemensKeeps.uds_io_port)
                  (fun A m _ => SiemensKeeps.uds_canio_port m) p).
    pose proof (SiemensKeeps.uds_get_ecu_info_preserves _
                  (fun A m _ => SiemensKeeps.uds_io_bus m)
                  (@SiemensKeeps.uds_canio_bus) p).
    destruct (Siemens.get_ecu_info p). eauto.
  - change (get_dtc_codes (PSiemens p))
      with (let '(r, p') := Siemens.get_dtc_codes p in (r, PSiemens p')).
    pose proof (SiemensKeeps.uds_get_dtc_codes_preserves _
                  (fun A m _ => SiemensKeeps.uds_canio_connected m) p).
    pose proof (SiemensKeeps.uds_get_dtc_codes_preserves _
                  (fun A m _ => SiemensKeeps.uds_canio_port m) p).
    pose proof (SiemensKeeps.uds_get_dtc_codes_preserves _ (@SiemensKeeps.uds_canio_bus) p).
    destruct (Siemens.get_dtc_codes p). eauto.
  - change (clear_dtc_codes (PSiemens p))
      with (let '(r, p') := Siemens.clear_dtc_codes p in (r, PSiemens p')).
    pose proof (SiemensKeeps.uds_clear_dtc_codes_preserves _
                  (fun A m _ => SiemensKeeps.uds_canio_connected m) p).
    pose proof (SiemensKeeps.uds_clear_dtc_codes_preserves _
                  (fun A m _ => SiemensKeeps.uds_canio_port m) p).
    pose proof (SiemensKeeps.uds_clear_dtc_codes_preserves _ (@SiemensKeeps.uds_canio_bus) p).
    destruct (Siemens.clear_dtc_codes p). eauto.
Qed.

Lemma call_keeps (o : protocol) (c : call) :
  c <> Connect -> c <> Disconnect ->
  connected (after o c) = connected o /\ transport_open (after o c) = transport_open o.
Proof.
  intros H1 H2. destruct o as [p|p|p].
  - destruct (Bosch_call_keeps p c H1 H2) as (p' & -> & Hc & Hp).
    split; [exact Hc|]. apply is_open_port. exact Hp.
  - destruct (Siemens_call_keeps p c H1 H2) as (p' & -> & Hc & Hp & Hb).
    split; [exact Hc|]. unfold transport_open.
    unfold SiemensObs.has_bus in Hb. rewrite Hb. f_equal. apply is_open_port. exact Hp.
  - destruct (Denso_call_keeps p c H1 H2) as (p' & -> & Hc & Hp).
    split; [exact Hc|]. apply is_open_port. exact Hp.
Qed.

(** One call keeps the invariant. *)
Lemma after_keeps_invariant (o : protocol) (c : call) :
  (connected o = true -> transport_open o = true) ->
  connected (after o c) = true -> transport_open (after o c) = true.
Proof.
  intros Hinv.
  destruct c;
    try (match goal with |- context [after o ?c] =>
           destruct (call_keeps o c ltac:(discriminate) ltac:(discriminate)) as [-> ->]
         end; exact Hinv).
  - unfold after. destruct (connect_outcome o) as [[_ ->] | [_ H]]; [exact Hinv | now intros _].
  - unfold after. destruct (disconnect_ok o) as (o' & -> & Hc & _). simpl. congruence.
Qed.

Module DensoHandshake.
Import Denso DensoSpec DensoFacts DensoSession.

(** The object after the connection sequence, for a device that answers
    the initialisation with [body1] and the wake-up with [body2]. *)
Lemma connect_run (p : t) (body1 body2 : bytes) (rest : list (option Z)) :
  present (wire (link p)) = true ->
  rx (wire (link p)) = denso_reply body1 ++ denso_reply body2 ++ rest ->
  0 < len body1 -> 0 < len body2 ->
  let ack1 := head_is body1 RESP_ACK in
  let ack2 := head_is body2 RESP_ACK in
  connect p =
    (Ok (ack1 && ack2),
     {| cfg := cfg p;
        is_connected := (ack1 && ack2) || is_connected p;
        link :=
          {| handle := Some {| is_open := true; ser_timeout := timeout (cfg p) |};
             wire :=
               {| present := true;
                  rx := if ack1 then rest else denso_reply body2 ++ rest;
                  tx := tx (wire (link p))
                        ++ [SYNC_PATTERN; framed [CMD_INIT]]
                        ++ (if ack1 then [framed [0x81; 0x01; 0x02; 0x03]] else []) |} |};
        _session_active := (ack1 && ack2) || _session_active p |}).
Proof.
  intros Hp Hrx H1 H2 ack1 ack2.
  unfold connect, try_except, bind at 1, gets.
  unfold bind at 1. rewrite (io_open p _ Hp).
  set (p1 := set_link _ p).
  assert (Ho1 : ser_is_open (link p1) = true) by reflexivity.
  unfold bind at 1. rewrite (io_write_open _ p1 Ho1).
  unfold bind at 1, lift_res. change (_build_frame CMD_INIT []) with (Ok (framed [CMD_INIT])).
  unfold bind at 1. rewrite io_write_open by exact Ho1.
  unfold bind at 1.
  rewrite (_read_response_roundtrip _ body1 (denso_reply body2 ++ rest));
    [|reflexivity|exact Hrx|exact H1].
  fold ack1. destruct ack1.
  - unfold bind at 1.
    change (_build_frame 129 [1; 2; 3]) with (Ok (framed [0x81; 0x01; 0x02; 0x03])).
    unfold bind at 1. rewrite io_write_open by reflexivity.
    unfold bind at 1.
    rewrite (_read_response_roundtrip _ body2 rest); [|reflexivity|reflexivity|exact H2].
    fold ack2. subst p1. destruct ack2;
      destruct p as [c conn [h [pr r t]] act]; cbn in Hp |- *; subst pr;
      unfold with_rx, with_tx, link_rx, link_tx, set_link, set_connected,
        set_session_active, set_rx; cbn;
      rewrite <- ?app_assoc; reflexivity.
  - subst p1. destruct p as [c conn [h [pr r t]] act]; cbn in Hp |- *; subst pr.
    unfold with_rx, with_tx, link_rx, link_tx, set_link, set_rx; cbn.
    rewrite <- ?app_assoc; reflexivity.
Qed.
End DensoHandshake.

(** * Sessions of a protocol object *)

Section Sessions.

(** X1. Denso [connect] is a two-stage handshake.  On a port that can be
    opened, with a device that answers the initialisation frame with
    [body1] and the wake-up frame with [body2], the synchronisation
    pattern and the initialisation frame are written, the wake-up frame
    is written only after an ACK to the initialisation, and [connect]
    returns [True] exactly when both answers start with ACK.  Only then
    are [connected] and [_session_active] set; they are never cleared,
    and the port is left open also when the handshake fails. *)
Theorem Denso_connect_handshake (p : Denso.t) (body1 body2 : bytes) (rest : list (option Z)) :
  present (wire (Denso.link p)) = true ->
  rx (wire (Denso.link p)) = denso_reply body1 ++ denso_reply body2 ++ rest ->
  0 < len body1 < 256 -> 0 < len body2 < 256 ->
  let ack1 := head_is body1 Denso.RESP_ACK in
  let ack2 := head_is body2 Denso.RESP_ACK in
  let p' := snd (Denso.connect p) in
  fst (Denso.connect p) = Ok (ack1 && ack2) /\
  DensoSpec.sent p' =
    DensoSpec.sent p ++ [Denso.SYNC_PATTERN; DensoSpec.framed [Denso.CMD_INIT]]
      ++ (if ack1 then [DensoSpec.framed [0x81; 0x01; 0x02; 0x03]] else []) /\
  Denso.is_connected p' = (ack1 && ack2) || Denso.is_connected p /\
  Denso._session_active p' = (ack1 && ack2) || Denso._session_active p /\
  ser_is_open (Denso.link p') = true /\
  rx (wire (Denso.link p')) = (if ack1 then rest else denso_reply body2 ++ rest).
Proof.
  intros Hp Hrx [H1 _] [H2 _] ack1 ack2 p'. subst p'.
  rewrite (DensoHandshake.connect_run p body1 body2 rest Hp Hrx H1 H2).
  repeat split.
Qed.

(** A device that acknowledges the initialisation and refuses the
    wake-up. *)
Lemma Denso_connect_witness :
  let p := Denso.init denso_config
             {| present := true;
                rx := denso_reply [Denso.RESP_ACK] ++ denso_reply [Denso.RESP_NAK; 0x10] ++ [];
                tx := [] |} in
  let p' := snd (Denso.connect p) in
  fst (Denso.connect p) = Ok (true && false) /\
  DensoSpec.sent p' =
    DensoSpec.sent p ++ [Denso.SYNC_PATTERN; DensoSpec.framed [Denso.CMD_INIT]]
      ++ [DensoSpec.framed [0x81; 0x01; 0x02; 0x03]] /\
  Denso.is_connected p' = (true && false) || Denso.is_connected p /\
  Denso._session_active p' = (true && false) || Denso._session_active p /\
  ser_is_open (Denso.link p') = true /\
  rx (wire (Denso.link p')) = [].
Proof.
  apply (Denso_connect_handshake
           (Denso.init denso_config
              {| present := true;
                 rx := denso_reply [Denso.RESP_ACK] ++ denso_reply [Denso.RESP_NAK; 0x10] ++ [];
                 tx := [] |})
           [Denso.RESP_ACK] [Denso.RESP_NAK; 0x10] []).
  - reflexivity.
  - reflexivity.
  - unfold len. simpl. lia.
  - unfold len. simpl. lia.
Defined.

(** X2. A [disconnect] that returns [True] ends the session, whatever
    the class and the state of the object: the object is left not
    connected, with no open transport and with its configuration.  A
    further [disconnect] then finds nothing to send or to close and
    leaves the object and its wires as they are. *)
Theorem successful_disconnect_ends_session (o o' : protocol) :
  disconnect o = (Ok true, o') ->
  connected o' = false /\ transport_open o' = false /\ config o' = config o /\
  snd (disconnect o') = o'.
Proof.
  intros H.
  destruct o as [p|p|p].
  - change (disconnect (PBosch p))
      with (let '(r, p') := Bosch.disconnect p in (r, PBosch p')) in H.
    destruct (Bosch.disconnect p) as [r p'] eqn:E. injection H as _ <-.
    apply (f_equal snd) in E. simpl in E. subst p'.
    destruct p as [c conn [[[[|] tmo]|] [pr r0 t]]]; repeat split.
  - change (disconnect (PSiemens p))
      with (let '(r, p') := Siemens.disconnect p in (r, PSiemens p')) in H.
    destruct (Siemens.disconnect p) as [r p'] eqn:E. injection H as _ <-.
    apply (f_equal snd) in E. simpl in E. subst p'.
    destruct p as [c conn [[|] [pr r0 t]] [[[op tmo]|] w] sq]; repeat split.
  - change (disconnect (PDenso p))
      with (let '(r, p') := Denso.disconnect p in (r, PDenso p')) in H.
    destruct (Denso.disconnect p) as [r p'] eqn:E. injection H as _ <-.
    apply (f_equal snd) in E. simpl in E. subst p'.
    destruct p as [c conn [[[[|] tmo]|] [pr r0 t]] [|]]; repeat split.
Qed.

(** A connected Denso session: the reset frame is written, the port is
    closed. *)
Lemma successful_disconnect_witness :
  let o := PDenso (denso_session []) in
  let o' := snd (disconnect o) in
  connected o' = false /\ transport_open o' = false /\ config o' = config o /\
  snd (disconnect o') = o'.
Proof.
  apply (successful_disconnect_ends_session
           (PDenso (denso_session [])) (snd (disconnect (PDenso (denso_session []))))).
  reflexivity.
Defined.

(** X3. The invariant of a protocol object: starting from an object that is
    not connected, after any sequence of calls of the interface an
    object whose [connected] flag is set holds an open transport (an
    open serial port, or a CAN bus). *)
Theorem connected_object_holds_open_transport (o0 : protocol) (calls : list call) :
  connected o0 = false ->
  connected (foldl after o0 calls) = true ->
  transport_open (foldl after o0 calls) = true.
Proof.
  intros H0.
  assert (Hinv : connected o0 = true -> transport_open o0 = true) by congruence.
  clear H0. revert o0 Hinv.
  induction calls as [|c calls IH]; intros o Hinv; simpl; [exact Hinv|].
  apply IH. now apply after_keeps_invariant.
Qed.

(** A Denso object that is connected, read from, reconnected without
    an answer and written to. *)
Lemma connected_object_witness :
  let o0 := PDenso (Denso.init denso_config
                      {| present := true;
                         rx := denso_reply [Denso.RESP_ACK] ++ denso_reply [Denso.RESP_ACK];
                         tx := [] |}) in
  let calls := [Connect; ReadData 0x1000 1; Connect; WriteData 0x1050 [0xAA]] in
  transport_open (foldl after o0 calls) = true.
Proof.
  apply (connected_object_holds_open_transport
           (PDenso (Denso.init denso_config
                      {| present := true;
                         rx := denso_reply [Denso.RESP_ACK] ++ denso_reply [Denso.RESP_ACK];
                         tx := [] |}))
           [Connect; ReadData 0x1000 1; Connect; WriteData 0x1050 [0xAA]]).
  - reflexivity.
  - vm_compute. reflexivity.
Defined.

(** X4. Connecting a family whose device cannot be opened returns [False]
    and leaves the whole bridge as it was: no protocol object changes,
    nothing is written, and the active pointer and the sessions stay. *)
Theorem connect_without_device (now : Q) (k : ECUType) (o : protocol) (b : ECUBridge.t) :
  ECUManager._protocols (ECUBridge.manager b) !! k = Some o ->
  transport_present o = false ->
  connect o = (Ok false, o) /\
  ECUBridge.connect now k b = (Ok false, b).
Proof.
  intros Hk Hp.
  destruct (connect_outcome o) as [[_ Hc] | [Hq _]]; [|congruence].
  split; [exact Hc|].
  unfold ECUBridge.connect, try_except, bind, ECUBridge.mgr, zoom, ECUManager.connect_ecu.
  rewrite Hk. unfold try_except, bind, ECUManager.on_protocol, ret. rewrite Hk, Hc.
  destruct b as [[protos active] ss]. cbn in Hk |- *.
  unfold ECUBridge.set_manager, ECUManager.set_protocols. cbn.
  now rewrite (insert_id protos k o Hk).
Qed.

Lemma connect_without_device_witness :
  let b := ECUBridge.init {| present := false; rx := []; tx := [] |}
             idle_can idle_wire idle_wire in
  let o := PBosch (Bosch.init bosch_config {| present := false; rx := []; tx := [] |}) in
  connect o = (Ok false, o) /\
  ECUBridge.connect (100 # 1) BOSCH_ME17 b = (Ok false, b).
Proof.
  apply (connect_without_device (100 # 1) BOSCH_ME17
           (PBosch (Bosch.init bosch_config {| present := false; rx := []; tx := [] |}))
           (ECUBridge.init {| present := false; rx := []; tx := [] |}
              idle_can idle_wire idle_wire)).
  - vm_compute. reflexivity.
  - reflexivity.
Defined.

End Sessions.


(** ** Denso: memory requests and the reader, end to end *)

Lemma lor_shift8 (hi lo : Z) : 0 <= lo < 256 -> Z.lor (Z.shiftl hi 8) lo = hi * 256 + lo.
Proof.
  intros H. rewrite Z.shiftl_mul_pow2 by lia. change (2 ^ 8) with 256.
  assert (H0 : Z.land (hi * 256) lo = 0).
  { apply Z.bits_inj'; intros n Hn. rewrite Z.land_spec, Z.bits_0.
    destruct (Z_lt_le_dec n 8).
    - change 256 with (2 ^ 8). now rewrite Z.mul_pow2_bits_low by lia.
    - rewrite (Z.bits_above_log2 lo n); [apply andb_false_r | lia |].
      destruct (Z.eq_dec lo 0) as [->|]; [simpl; lia|].
      apply Z.lt_le_trans with 8; [apply Z.log2_lt_pow2; lia | lia]. }
  now rewrite (Z.add_nocarry_lxor _ _ H0), (Z.lxor_lor _ _ H0).
Qed.

(** [struct.unpack('>H', struct.pack('>H', v))] gives [v] back. *)
Lemma unpack_pack_H (v : Z) : 0 <= v < 2 ^ 16 -> struct_unpack_H (be_bytes 2 v) = Ok v.
Proof.
  intros H. change (be_bytes 2 v) with [Z.land (Z.shiftr v 8) 0xFF; Z.land v 0xFF].
  unfold struct_unpack_H. f_equal.
  change 0xFF with (Z.ones 8). rewrite !Z.land_ones by lia.
  rewrite Z.shiftr_div_pow2 by lia. change (2 ^ 8) with 256.
  rewrite lor_shift8 by (apply Z.mod_pos_bound; lia).
  rewrite (Z.mod_small (v / 256)).
  - pose proof (Z.div_mod v 256 ltac:(lia)). lia.
  - split; [apply Z.div_pos; lia | apply Z.div_lt_upper_bound; lia].
Qed.

Lemma slice_cons {A} (x : A) (l : list A) (i j : Z) :
  0 < i -> slice (x :: l) i j = slice l (i - 1) (j - 1).
Proof.
  intros H. unfold slice. replace (Z.to_nat i) with (S (Z.to_nat (i - 1))) by lia.
  simpl. do 2 f_equal. lia.
Qed.

Lemma slice_0_app {A} (l1 l2 : list A) (n : Z) :
  n = len l1 -> slice (l1 ++ l2) 0 n = l1.
Proof. intros ->. apply slice_app_exact. Qed.

Lemma slice_skip {A} (l1 l2 : list A) (i j : Z) :
  i = len l1 -> slice (l1 ++ l2) i j = slice l2 0 (j - i).
Proof.
  intros ->. unfold slice, len. rewrite Nat2Z.id, drop_app_length.
  change (Z.to_nat 0) with 0%nat. rewrite drop_0. do 2 f_equal. lia.
Qed.

Module DensoRequestFacts.
Import Denso DensoSpec DensoFacts DensoObs.

(** One exchange of [read_data] with a device that answers with a
    well-formed frame. *)
Lemma read_data_run (p : t) (address length : Z) (body : bytes) (rest : list (option Z)) :
  is_connected p = true -> ser_is_open (link p) = true ->
  0 <= address < 2 ^ 32 -> 0 <= length < 2 ^ 16 ->
  rx (wire (link p)) = denso_reply body ++ rest -> 0 < len body ->
  read_data address length p =
    (read_outcome body, with_rx rest (with_tx [read_request address length] p)).
Proof.
  intros Hc Ho Ha Hl Hrx Hb.
  pose proof (_build_frame_ok (read_command address)
                (be_bytes 4 address ++ be_bytes 2 length) (read_command_byte _)) as Hf.
  specialize (Hf ltac:(cbv; reflexivity)).
  unfold read_data. rewrite Hc, (has_serial_open p Ho). simpl negb. simpl orb. cbv iota.
  fold (read_command address).
  unfold try_except, bind, lift_res.
  rewrite (struct_pack_I_ok _ Ha), (struct_pack_H_ok _ Hl), Hf.
  rewrite io_write_open by exact Ho.
  rewrite (_read_response_roundtrip _ body rest); [|exact Ho|exact Hrx|exact Hb].
  unfold read_outcome, raise, ret.
  destruct body as [|r0 body']; [reflexivity|].
  repeat case_match; simplify_eq; reflexivity.
Qed.

(** A data frame that carries the bytes it declares. *)
Lemma read_outcome_data (payload extra : bytes) :
  len payload < 2 ^ 16 ->
  read_outcome (RESP_DATA :: be_bytes 2 (len payload) ++ payload ++ extra) = Ok payload.
Proof.
  intros H. unfold read_outcome. change (RESP_DATA =? RESP_DATA) with true. cbv iota.
  rewrite slice_cons by lia. change (1 - 1) with 0. change (3 - 1) with 2.
  rewrite slice_0_app by reflexivity.
  rewrite unpack_pack_H by (unfold len in *; lia).
  destruct (Z.leb_spec (3 + len payload)
              (len (RESP_DATA :: be_bytes 2 (len payload) ++ payload ++ extra))) as [_|Hn].
  - f_equal. rewrite slice_cons by lia.
    rewrite slice_skip by reflexivity.
    apply slice_0_app. change (len (be_bytes 2 (len payload))) with 2. lia.
  - exfalso. revert Hn. unfold len. simpl length. rewrite !length_app. simpl length. lia.
Qed.

(** A data frame that is too short for its header, or that declares more
    bytes than it carries. *)
Lemma read_outcome_malformed (body : bytes) :
  is_bytes body -> head_is body RESP_DATA = true ->
  len body < 3 \/ len body - 3 < item body 1 * 256 + item body 2 ->
  read_outcome body = Raise (if len body <? 3 then StructError else IncompleteData).
Proof.
  intros Hb Hh Hbad. unfold read_outcome.
  destruct body as [|r0 body]; [discriminate|]. simpl in Hh. rewrite Hh.
  destruct body as [|hi [|lo tail]]; try reflexivity.
  assert (Hl : 3 <= len (r0 :: hi :: lo :: tail)) by (unfold len; simpl length; lia).
  destruct (Z.ltb_spec (len (r0 :: hi :: lo :: tail)) 3); [lia|].
  destruct Hbad as [|Hbad]; [lia|].
  change (slice (r0 :: hi :: lo :: tail) 1 3) with [hi; lo]. unfold struct_unpack_H.
  change (item (r0 :: hi :: lo :: tail) 1) with hi in Hbad.
  change (item (r0 :: hi :: lo :: tail) 2) with lo in Hbad.
  rewrite lor_shift8.
  - destruct (Z.leb_spec (3 + (hi * 256 + lo)) (len (r0 :: hi :: lo :: tail))); [lia|].
    reflexivity.
  - inversion Hb as [|? ? _ Hb1]. inversion Hb1 as [|? ? _ Hb2]. now inversion Hb2.
Qed.

End DensoRequestFacts.

Module DensoReaderFacts.
Import Denso DensoSpec DensoFacts.

(** The search for STX passes over bytes other than [0x02]. *)
Lemma find_stx_skips (noise : bytes) : forall (fuel : nat) (l : SerialLink) (r' : list (option Z)),
  Forall (fun b => b <> 0x02) noise -> (length noise < fuel)%nat ->
  ser_is_open l = true ->
  rx (wire l) = map Some noise ++ Some 0x02 :: r' ->
  find_stx fuel l = (Ok true, link_rx r' l).
Proof.
  induction noise as [|b noise IH]; intros [|fuel] l r' Hn Hf Ho Hrx; simpl in Hf; try lia.
  - simpl. unfold bind. rewrite (ser_read_open 1 l Ho), Hrx. reflexivity.
  - simpl. unfold bind. rewrite (ser_read_open 1 l Ho), Hrx. simpl.
    inversion Hn as [|? ? Hb Hn']; subst.
    destruct (Z.eqb_spec b 2); [contradiction|].
    rewrite (IH fuel _ r'); auto; lia.
Qed.

(** The search ends without a frame where the wait times out. *)
Lemma find_stx_timeout (noise : bytes) : forall (fuel : nat) (l : SerialLink) (r' : list (option Z)),
  Forall (fun b => b <> 0x02) noise -> (length noise < fuel)%nat ->
  ser_is_open l = true ->
  rx (wire l) = map Some noise ++ None :: r' ->
  find_stx fuel l = (Ok false, link_rx r' l).
Proof.
  induction noise as [|b noise IH]; intros [|fuel] l r' Hn Hf Ho Hrx; simpl in Hf; try lia.
  - simpl. unfold bind. rewrite (ser_read_open 1 l Ho), Hrx. reflexivity.
  - simpl. unfold bind. rewrite (ser_read_open 1 l Ho), Hrx. simpl.
    inversion Hn as [|? ? Hb Hn']; subst.
    destruct (Z.eqb_spec b 2); [contradiction|].
    rewrite (IH fuel _ r'); auto; lia.
Qed.

Lemma read_frame_noise (l : SerialLink) (noise : bytes) (r' : list (option Z)) :
  Forall (fun b => b <> 0x02) noise -> ser_is_open l = true ->
  rx (wire l) = map Some noise ++ Some 0x02 :: r' ->
  read_frame l = read_frame (link_rx (Some 0x02 :: r') l).
Proof.
  intros Hn Ho Hrx. unfold read_frame, bind, gets.
  rewrite (find_stx_skips noise _ l r' Hn);
    [|rewrite Hrx, length_app, length_map; lia|exact Ho|exact Hrx].
  rewrite (find_stx_skips [] _ (link_rx (Some 2 :: r') l) r');
    [reflexivity|constructor|simpl; lia|exact Ho|reflexivity].
Qed.

Lemma read_frame_timeout (l : SerialLink) (noise : bytes) (r' : list (option Z)) :
  Forall (fun b => b <> 0x02) noise -> ser_is_open l = true ->
  rx (wire l) = map Some noise ++ None :: r' ->
  read_frame l = (Ok [], link_rx r' l).
Proof.
  intros Hn Ho Hrx. unfold read_frame, bind, gets.
  rewrite (find_stx_timeout noise _ l r' Hn); [reflexivity| |exact Ho|exact Hrx].
  rewrite Hrx, length_app, length_map. lia.
Qed.
End DensoReaderFacts.


(** * Denso: what a user of the memory calls can rely on *)

Section DensoRequests.
Import Denso DensoSpec DensoFacts DensoObs.

(** X5. [read_data] returns the bytes the device declares in its data frame:
    when the device answers the request with a data frame that declares
    [len payload] bytes and carries [payload] (and possibly more), the
    result is exactly [payload], whatever number of bytes was asked for;
    one request frame was written and the response frame, and nothing
    after it, was consumed. *)
Theorem Denso_read_returns_declared_payload
    (p : t) (address length : Z) (payload extra : bytes) (rest : list (option Z)) :
  is_connected p = true -> ser_is_open (link p) = true ->
  0 <= address < 2 ^ 32 -> 0 <= length < 2 ^ 16 ->
  3 + len payload + len extra < 256 ->
  read_data address length
    (with_rx (denso_reply (RESP_DATA :: be_bytes 2 (len payload) ++ payload ++ extra) ++ rest) p)
  = (Ok payload, with_rx rest (with_tx [read_request address length] p)).
Proof.
  intros Hc Ho Ha Hl Hlen.
  rewrite (DensoRequestFacts.read_data_run _ address length
             (RESP_DATA :: be_bytes 2 (len payload) ++ payload ++ extra) rest);
    [|exact Hc|exact Ho|exact Ha|exact Hl|reflexivity|unfold len; simpl; lia].
  rewrite DensoRequestFacts.read_outcome_data by (unfold len in *; lia). reflexivity.
Qed.

(** Sixteen bytes are asked for; the device sends two. *)
Lemma Denso_read_witness :
  read_data 0x1000 16
    (with_rx (denso_reply (RESP_DATA :: be_bytes 2 (len [0xCA; 0xFE]) ++ [0xCA; 0xFE] ++ []) ++ [])
       (denso_session []))
  = (Ok [0xCA; 0xFE], with_rx [] (with_tx [read_request 0x1000 16] (denso_session []))).
Proof.
  apply (Denso_read_returns_declared_payload (denso_session []) 0x1000 16 [0xCA; 0xFE] [] []).
  - reflexivity.
  - reflexivity.
  - lia.
  - lia.
  - unfold len. simpl. lia.
Defined.

(** X6. A data frame whose header is cut short makes [read_data] raise
    [struct.error]; a data frame that declares more bytes than it
    carries makes it raise "Incomplete data received".  In both cases
    nothing of the frame is returned as data. *)
Theorem Denso_read_rejects_malformed_data
    (p : t) (address length : Z) (body : bytes) (rest : list (option Z)) :
  is_connected p = true -> ser_is_open (link p) = true ->
  0 <= address < 2 ^ 32 -> 0 <= length < 2 ^ 16 ->
  is_bytes body -> 0 < len body < 256 -> head_is body RESP_DATA = true ->
  len body < 3 \/ len body - 3 < item body 1 * 256 + item body 2 ->
  read_data address length (with_rx (denso_reply body ++ rest) p)
  = (Raise (if len body <? 3 then StructError else IncompleteData),
     with_rx rest (with_tx [read_request address length] p)).
Proof.
  intros Hc Ho Ha Hl Hb [Hpos _] Hh Hbad.
  rewrite (DensoRequestFacts.read_data_run _ address length body rest);
    [|exact Hc|exact Ho|exact Ha|exact Hl|reflexivity|exact Hpos].
  now rewrite DensoRequestFacts.read_outcome_malformed.
Qed.

(** The device declares four bytes and sends one. *)
Lemma Denso_read_malformed_witness :
  read_data 0x1000 4 (with_rx (denso_reply [RESP_DATA; 0; 4; 0x55] ++ []) (denso_session []))
  = (Raise IncompleteData, with_rx [] (with_tx [read_request 0x1000 4] (denso_session []))).
Proof.
  apply (Denso_read_rejects_malformed_data (denso_session []) 0x1000 4
           [RESP_DATA; 0; 4; 0x55] []).
  - reflexivity.
  - reflexivity.
  - lia.
  - lia.
  - repeat constructor; unfold is_byte, RESP_DATA; lia.
  - unfold len. simpl. lia.
  - reflexivity.
  - right. unfold len, item. simpl. lia.
Defined.

(** X7. A write that cannot be encoded returns [False] and writes no write
    frame: an address that does not fit 32 bits, or a payload of more
    than 248 bytes (the frame length must fit one byte).  For a
    ROM-class address the sector erase has been sent by then, so the
    sector is erased and nothing is written to it. *)
Theorem Denso_write_refused_after_erase (p : t) (address : Z) (payload : bytes) :
  is_connected p = true -> ser_is_open (link p) = true ->
  ~ (0 <= address < 2 ^ 32) \/ 248 < len payload ->
  fst (write_data address payload p) = Ok false /\
  sent (snd (write_data address payload p))
  = sent p ++ (if (0 <=? address) && (address <? RAM_BASE) then [erase_frame address] else []).
Proof.
  intros Hc Ho Hbad.
  rewrite write_data_unfold by auto using has_serial_open.
  unfold write_command, ROM_BASE.
  destruct (Z.leb_spec 0 address) as [H0|H0]; destruct (Z.ltb_spec address RAM_BASE) as [H1|H1];
    cbn [andb].
  - change (CMD_WRITE_ROM =? CMD_WRITE_ROM) with true. cbv iota.
    destruct (_erase_sector_spec p address Ho) as (ok & r & ->).
    { unfold RAM_BASE in H1. lia. }
    rewrite DensoLimits.write_tail_refused by exact Hbad. split; reflexivity.
  - destruct (RAM_BASE <=? address);
      change (CMD_WRITE_RAM =? CMD_WRITE_ROM) with false; cbv iota;
      rewrite DensoLimits.write_tail_refused by exact Hbad;
      rewrite app_nil_r; split; reflexivity.
  - destruct (RAM_BASE <=? address);
      change (CMD_WRITE_RAM =? CMD_WRITE_ROM) with false; cbv iota;
      rewrite DensoLimits.write_tail_refused by exact Hbad;
      rewrite app_nil_r; split; reflexivity.
  - destruct (RAM_BASE <=? address);
      change (CMD_WRITE_RAM =? CMD_WRITE_ROM) with false; cbv iota;
      rewrite DensoLimits.write_tail_refused by exact Hbad;
      rewrite app_nil_r; split; reflexivity.
Qed.

(** 249 bytes for the ROM address [0x1050]. *)
Lemma Denso_write_refused_witness :
  let p := denso_session [] in
  fst (write_data 0x1050 (replicate 249 0xFF) p) = Ok false /\
  sent (snd (write_data 0x1050 (replicate 249 0xFF) p)) = sent p ++ [erase_frame 0x1050].
Proof.
  apply (Denso_write_refused_after_erase (denso_session []) 0x1050 (replicate 249 0xFF)).
  - reflexivity.
  - reflexivity.
  - right. vm_compute. reflexivity.
Defined.

(** X8. [write_data] leaves the serial port as it found it.  The sector
    erase raises the read timeout to ten seconds for its wait and puts
    the original value back on every path, so that after the call the
    port has the open flag and the timeout it had before, and the
    [connected] flag is unchanged. *)
Theorem Denso_write_restores_port (p : t) (address : Z) (payload : bytes) :
  handle (link (snd (write_data address payload p))) = handle (link p) /\
  handle (link (snd (_erase_sector address p))) = handle (link p) /\
  is_connected (snd (write_data address payload p)) = is_connected p.
Proof.
  repeat split.
  - apply (DensoKeeps.write_data_port address payload p).
  - apply (DensoKeeps._erase_sector_port address p).
  - apply (DensoKeeps.write_data_connected address payload p).
Qed.

(** X9. The reader resynchronises on STX.  Bytes other than [0x02] that
    arrive before a frame are skipped and the frame is returned; when
    the wait times out during the search, the reader returns no frame
    and what arrives later stays on the wire. *)
Theorem Denso_reader_skips_noise
    (p : t) (noise body : bytes) (rest : list (option Z)) :
  ser_is_open (link p) = true ->
  Forall (fun b => b <> 0x02) noise -> 0 < len body < 256 ->
  _read_response (with_rx (map Some noise ++ denso_reply body ++ rest) p)
    = (Ok body, with_rx rest p) /\
  _read_response (with_rx (map Some noise ++ None :: rest) p)
    = (Ok [], with_rx rest p).
Proof.
  intros Ho Hn [Hb _]. split.
  - unfold _read_response. rewrite (has_serial_open (with_rx _ p) Ho). simpl negb. cbv iota.
    unfold try_except, io, zoom.
    rewrite (DensoReaderFacts.read_frame_noise _ noise
               (Some (len body) :: map Some (body ++ [_calculate_checksum body; 0x03]) ++ rest));
      [|exact Hn|exact Ho|reflexivity].
    rewrite (read_frame_roundtrip _ body rest); [reflexivity|exact Ho|reflexivity|exact Hb].
  - unfold _read_response. rewrite (has_serial_open (with_rx _ p) Ho). simpl negb. cbv iota.
    unfold try_except, io, zoom.
    rewrite (DensoReaderFacts.read_frame_timeout _ noise rest); auto.
Qed.

(** Two bytes of noise before an ACK frame. *)
Lemma Denso_reader_witness :
  _read_response (with_rx (map Some [0xFF; 0x00] ++ denso_reply [RESP_ACK] ++ [])
                    (denso_session []))
    = (Ok [RESP_ACK], with_rx [] (denso_session [])) /\
  _read_response (with_rx (map Some [0xFF; 0x00] ++ None :: []) (denso_session []))
    = (Ok [], with_rx [] (denso_session [])).
Proof.
  apply (Denso_reader_skips_noise (denso_session []) [0xFF; 0x00] [RESP_ACK] []).
  - reflexivity.
  - repeat constructor; lia.
  - unfold len. simpl. lia.
Defined.

End DensoRequests.


(** ** Bosch: memory requests, end to end *)

Module BoschRequestFacts.
Import Bosch BoschSpec BoschFacts.

(** [needle in haystack] for a needle of one byte *)
Lemma contains_byte (x : Z) (l : bytes) : contains [x] l = bool_decide (x ∈ l).
Proof.
  induction l as [|b l IH].
  - reflexivity.
  - cbn [contains is_prefix]. rewrite IH, andb_true_r.
    destruct (Z.eqb_spec x b) as [->|Hne].
    + symmetry. apply bool_decide_eq_true_2. left.
    + cbn [orb]. apply bool_decide_ext. rewrite elem_of_cons. intuition congruence.
Qed.

Lemma _build_kwp2000_frame_too_long (payload : bytes) :
  256 <= len payload -> _build_kwp2000_frame payload = Raise ValueError.
Proof.
  intros H. unfold _build_kwp2000_frame, byte_of.
  destruct (Z.ltb_spec (len payload) 256); [lia|]. now rewrite andb_false_r.
Qed.
End BoschRequestFacts.

(** * Bosch: what a user of the memory calls can rely on *)

Section BoschRequests.
Import Bosch BoschSpec BoschFacts.

(** X10. [read_data] returns everything that follows the first two bytes of
    the received frame: for a device that answers with the frame of
    [sid :: payload], the result is [payload] followed by the checksum
    byte of the frame.  The service byte is dropped, the checksum byte is
    part of the data, and the number of bytes asked for plays no role. *)
Theorem Bosch_read_returns_payload_and_checksum
    (p : t) (address length sid : Z) (payload : bytes) (rest : list (option Z)) :
  is_connected p = true -> ser_is_open (link p) = true ->
  0 <= address < 2 ^ 24 -> 0 <= length < 2 ^ 16 ->
  len payload < 255 ->
  read_data address length (with_rx (bosch_reply (sid :: payload) ++ rest) p)
  = (Ok (payload ++ [Z.land (sum (sid :: payload) + len (sid :: payload)) 0xFF]),
     with_rx rest (with_tx [read_request address length] p)).
Proof.
  intros Hc Ho Ha Hl Hp.
  unfold read_data. cbn [is_connected with_rx set_link].
  rewrite Hc, (kwp_has_serial_open (with_rx _ p) Ho). simpl negb. simpl orb. cbv iota.
  unfold try_except, bind, lift_res.
  rewrite (to_bytes_big_ok 3 address Ha), (to_bytes_big_ok 2 length Hl).
  rewrite _build_kwp2000_frame_ok by (cbv; reflexivity).
  rewrite kwp_io_write_open by exact Ho.
  rewrite (_read_response_on _ (len (sid :: payload))
             ((sid :: payload)
                ++ [Z.land (sum (sid :: payload) + len (sid :: payload)) 0xFF]) rest);
    [|exact Ho|reflexivity|unfold len; simpl; lia
     |unfold len; rewrite length_app; simpl; lia].
  destruct (Z.ltb_spec 2 (len (len (sid :: payload)
                              :: (sid :: payload)
                                 ++ [Z.land (sum (sid :: payload) + len (sid :: payload)) 0xFF])))
    as [_|Hn].
  - reflexivity.
  - exfalso. revert Hn. unfold len. simpl. rewrite length_app. simpl. lia.
Qed.

(** Four bytes are asked for; the device answers with [0x63 0xAB]. *)
Lemma Bosch_read_witness :
  read_data 0x1000 4 (with_rx (bosch_reply [0x63; 0xAB] ++ []) (bosch_session []))
  = (Ok ([0xAB] ++ [Z.land (sum [0x63; 0xAB] + len [0x63; 0xAB]) 0xFF]),
     with_rx [] (with_tx [read_request 0x1000 4] (bosch_session []))).
Proof.
  apply (Bosch_read_returns_payload_and_checksum (bosch_session []) 0x1000 4 0x63 [0xAB] []).
  - reflexivity.
  - reflexivity.
  - lia.
  - lia.
  - unfold len. simpl. lia.
Defined.

(** X11. The positive-response test of [write_data] and [clear_dtc_codes] is
    a substring test on the whole received frame: the call returns
    [True] exactly when the byte [0x50] occurs somewhere in the frame,
    be it the length byte, a byte of a negative response or the
    checksum byte. *)
Theorem Bosch_success_is_any_0x50
    (p : t) (address n : Z) (payload tail : bytes) (rest : list (option Z)) :
  is_connected p = true -> ser_is_open (link p) = true ->
  0 <= address < 2 ^ 24 -> len payload <= 251 ->
  0 < n < 256 -> len tail = n + 1 ->
  let q := with_rx (map Some (n :: tail) ++ rest) p in
  fst (write_data address payload q) = Ok (bool_decide (0x50 ∈ n :: tail)) /\
  fst (clear_dtc_codes q) = Ok (bool_decide (0x50 ∈ n :: tail)).
Proof.
  intros Hc Ho Ha Hl [Hn _] Ht q. subst q. split.
  - unfold write_data. cbn [is_connected with_rx set_link].
    rewrite Hc, (kwp_has_serial_open (with_rx _ p) Ho). simpl negb. simpl orb. cbv iota.
    unfold try_except, bind, lift_res.
    rewrite (to_bytes_big_ok 3 address Ha).
    rewrite _build_kwp2000_frame_ok
      by (unfold len in *; rewrite !length_app; simpl; lia).
    rewrite kwp_io_write_open by exact Ho.
    rewrite (_read_response_on _ n tail rest); auto.
    unfold RESPONSE_OK. rewrite BoschRequestFacts.contains_byte. now destruct (bool_decide _).
  - unfold clear_dtc_codes. cbn [is_connected with_rx set_link].
    rewrite Hc. simpl negb. cbv iota.
    unfold try_except, bind, lift_res.
    rewrite _build_kwp2000_frame_ok by (cbv; reflexivity).
    rewrite kwp_io_write_open by exact Ho.
    rewrite (_read_response_on _ n tail rest); auto.
    unfold RESPONSE_OK. rewrite BoschRequestFacts.contains_byte. now destruct (bool_decide _).
Qed.

(** A negative response ([0x7F]) to a write whose checksum byte is
    [0x50]. *)
Lemma Bosch_success_witness :
  let q := with_rx (map Some (3 :: [0x7F; 0x3D; 0x91; 0x50]) ++ []) (bosch_session []) in
  fst (write_data 0x1000 [0xAA] q) = Ok (bool_decide (0x50 ∈ 3 :: [0x7F; 0x3D; 0x91; 0x50])) /\
  fst (clear_dtc_codes q) = Ok (bool_decide (0x50 ∈ 3 :: [0x7F; 0x3D; 0x91; 0x50])).
Proof.
  apply (Bosch_success_is_any_0x50 (bosch_session []) 0x1000 3 [0xAA]
           [0x7F; 0x3D; 0x91; 0x50] []).
  - reflexivity.
  - reflexivity.
  - lia.
  - unfold len. simpl. lia.
  - lia.
  - reflexivity.
Defined.

(** X12. A write that cannot be encoded returns [False] and leaves the
    object and the wire untouched: an address that does not fit 24 bits,
    or a payload of more than 251 bytes (the frame length must fit one
    byte). *)
Theorem Bosch_write_refused (p : t) (address : Z) (payload : bytes) :
  is_connected p = true -> ser_is_open (link p) = true ->
  ~ (0 <= address < 2 ^ 24) \/ 251 < len payload ->
  write_data address payload p = (Ok false, p).
Proof.
  intros Hc Ho Hbad.
  unfold write_data. rewrite Hc, (kwp_has_serial_open p Ho). simpl negb. simpl orb. cbv iota.
  unfold try_except, bind, lift_res, ret, to_bytes_big.
  change (2 ^ (8 * Z.of_nat 3)) with (2 ^ 24).
  destruct (Z.leb_spec 0 address); destruct (Z.ltb_spec address (2 ^ 24));
    simpl; try reflexivity.
  destruct Hbad as [Hbad|Hbad]; [lia|].
  rewrite BoschRequestFacts._build_kwp2000_frame_too_long; [reflexivity|].
  unfold len in *. rewrite ?length_app. simpl. lia.
Qed.

Lemma Bosch_write_refused_witness :
  write_data 0x1000000 [0xAA] (bosch_session []) = (Ok false, bosch_session []).
Proof.
  apply (Bosch_write_refused (bosch_session []) 0x1000000 [0xAA]).
  - reflexivity.
  - reflexivity.
  - left. lia.
Defined.

End BoschRequests.


(** ** Siemens: reading over CAN *)

Module SiemensReadFacts.
Import Siemens SiemensSpec SiemensFacts SiemensFrames.

Lemma with_can_rx_id (p : t) : with_can_rx (can_rx (can_wire (can p))) p = p.
Proof. now destruct p as [c conn [b [pr r t]] l sq]. Qed.

Lemma canio_recv_run (p : t) (m : option CanMessage) (rest : list (option CanMessage)) :
  bus (can p) = true -> can_rx (can_wire (can p)) = m :: rest ->
  canio can_recv p = (Ok m, with_can_rx rest p).
Proof.
  intros Hb Hrx. unfold canio, zoom, can_recv. rewrite Hb, Hrx.
  unfold with_can_rx. now rewrite Hb.
Qed.

Lemma canio_send_run (p : t) (msg : CanMessage) :
  bus (can p) = true -> canio (can_send msg) p = (Ok tt, with_can_tx [msg] p).
Proof.
  intros Hb. unfold canio, zoom, can_send. rewrite Hb. unfold with_can_tx. now rewrite Hb.
Qed.

(** The loop over consecutive frames: when the length asked for is
    reached only with the last of them, all are taken and their bytes
    are appended in order. *)
Lemma read_frames_consecutive (cfs : list CanMessage) :
  forall (fuel : nat) (n : Z) (acc : bytes) (p : t) (rest : list (option CanMessage)),
  bus (can p) = true ->
  can_rx (can_wire (can p)) = map Some cfs ++ rest ->
  (length cfs < fuel)%nat ->
  Forall is_consecutive cfs ->
  (forall k, (k < length cfs)%nat ->
     len (acc ++ concat (map (fun m => slice_from (data m) 1) (take k cfs))) < n) ->
  n <= len (acc ++ concat (map (fun m => slice_from (data m) 1) cfs)) ->
  read_frames fuel n acc p
  = (Ok (acc ++ concat (map (fun m => slice_from (data m) 1) cfs)), with_can_rx rest p).
Proof.
  induction cfs as [|c cfs IH]; intros fuel n acc p rest Hb Hrx Hf Hc Hk Hn.
  - simpl in *. rewrite app_nil_r in *.
    destruct fuel as [|fuel]; [lia|]. simpl.
    destruct (Z.ltb_spec (len acc) n); [lia|]. cbn [negb].
    unfold ret. now rewrite <- Hrx, with_can_rx_id.
  - destruct fuel as [|fuel]; [simpl in Hf; lia|].
    pose proof (Hk 0%nat ltac:(simpl; lia)) as H0. simpl in H0. rewrite app_nil_r in H0.
    simpl read_frames.
    destruct (Z.ltb_spec (len acc) n); [|lia]. cbn [negb].
    unfold bind at 1. rewrite (canio_recv_run p (Some c) (map Some cfs ++ rest) Hb Hrx).
    inversion Hc as [|? ? [Hid (d0 & more & Hd & Hpci)] Hc']; subst.
    rewrite Hid, Z.eqb_refl. cbn [negb].
    unfold bind at 1, lift_res. rewrite Hd.
    change (item_res (d0 :: more) 0) with (Ok (A := Z) d0). cbv iota beta.
    rewrite Hpci. change (32 =? 16) with false. change (32 =? 32) with true. cbv iota.
    rewrite (IH fuel n (acc ++ slice_from (d0 :: more) 1) _ rest); try assumption.
    + cbn [map concat]. rewrite Hd, <- app_assoc. reflexivity.
    + reflexivity.
    + simpl in Hf. lia.
    + intros k Hlt. specialize (Hk (S k) ltac:(simpl; lia)).
      cbn [take map concat] in Hk. rewrite Hd, app_assoc in Hk. exact Hk.
    + cbn [map concat] in Hn. rewrite Hd, app_assoc in Hn. exact Hn.
Qed.
End SiemensReadFacts.

Module SiemensReadFacts2.
Import Siemens SiemensSpec SiemensFacts SiemensFrames SiemensReadFacts.

(** The loop on a first frame followed by consecutive frames. *)
Lemma read_frames_segmented (ff : CanMessage) (cfs : list CanMessage)
    (fuel : nat) (n : Z) (p : t) (rest : list (option CanMessage)) :
  bus (can p) = true ->
  can_rx (can_wire (can p)) = Some ff :: map Some cfs ++ rest ->
  (S (length cfs) < fuel)%nat ->
  is_first ff -> Forall is_consecutive cfs ->
  0 < n ->
  (forall k, (k < length cfs)%nat -> len (assembled ff (take k cfs)) < n) ->
  n <= len (assembled ff cfs) ->
  read_frames fuel n [] p
  = (Ok (assembled ff cfs), with_can_rx rest (with_can_tx [flow_control] p)).
Proof.
  intros Hb Hrx Hf [Hid (d0 & d1 & more & Hd & Hpci)] Hc Hn Hk Hlen.
  destruct fuel as [|fuel]; [lia|]. simpl read_frames.
  destruct (Z.ltb_spec (len (@nil Z)) n) as [_|H]; [|unfold len in H; simpl in H; lia].
  cbn [negb].
  unfold bind at 1. rewrite (canio_recv_run p (Some ff) (map Some cfs ++ rest) Hb Hrx).
  rewrite Hid, Z.eqb_refl. cbn [negb].
  unfold bind at 1, lift_res. rewrite Hd.
  change (item_res (d0 :: d1 :: more) 0) with (Ok (A := Z) d0). cbv iota beta.
  rewrite Hpci. change (16 =? 16) with true. cbv iota.
  unfold bind at 1. change (item_res (d0 :: d1 :: more) 1) with (Ok (A := Z) d1).
  cbv iota beta. unfold bind at 1.
  rewrite canio_send_run by exact Hb. fold flow_control.
  rewrite (read_frames_consecutive cfs fuel n _ _ rest);
    [ | exact Hb | reflexivity | lia | exact Hc
      | intros k Hlt; specialize (Hk k Hlt); unfold assembled in Hk; now rewrite Hd in Hk
      | unfold assembled in Hlen; now rewrite Hd in Hlen ].
  unfold assembled. rewrite Hd. reflexivity.
Qed.
End SiemensReadFacts2.

(** * Siemens: what a user of the memory calls can rely on *)

Section SiemensRequests.
Import Siemens SiemensSpec SiemensFacts SiemensFrames.

(** X13. A segmented response is reassembled in order.  When the device
    answers a read over CAN with a first frame and consecutive frames,
    and the number of bytes asked for is reached only with the last of
    them, [read_data] takes all of these frames and no other, answers
    the first frame with one flow-control message, and returns the first
    [length] bytes of the data of the first frame after its four header
    bytes followed by the data of each consecutive frame after its
    sequence byte. *)
Theorem Siemens_read_reassembles_segments
    (p : t) (address length : Z) (first : CanMessage) (consecutive : list CanMessage)
    (rest : list (option CanMessage)) :
  is_connected p = true -> bus (can p) = true ->
  is_first first -> Forall is_consecutive consecutive ->
  0 < length ->
  (forall k, (k < List.length consecutive)%nat ->
     len (assembled first (take k consecutive)) < length) ->
  length <= len (assembled first consecutive) ->
  read_data address length (with_can_rx (Some first :: map Some consecutive ++ rest) p)
  = (Ok (slice (assembled first consecutive) 0 length),
     with_can_rx rest (with_can_tx [read_msg address; flow_control] p)).
Proof.
  intros Hc Hb Hff Hcf Hn Hk Hlen.
  unfold read_data. cbn [is_connected with_can_rx set_can]. rewrite Hc. cbn [negb].
  unfold try_except, bind at 1, gets. cbn [can with_can_rx set_can bus]. rewrite Hb.
  unfold _read_data_can. fold (read_msg address).
  unfold bind at 1. rewrite SiemensReadFacts.canio_send_run by exact Hb.
  unfold bind at 1, gets. unfold bind.
  rewrite (SiemensReadFacts2.read_frames_segmented first consecutive _ length _ rest);
    [ | exact Hb | reflexivity | cbn; rewrite length_app, length_map; lia
      | exact Hff | exact Hcf | exact Hn | exact Hk | exact Hlen ].
  unfold ret. f_equal. destruct p as [c conn [b [pr r t]] l sq].
  unfold with_can_rx, with_can_tx, set_can. cbn. now rewrite <- app_assoc.
Qed.

(** Six bytes are asked for; the device sends a first frame with four
    bytes of data and one consecutive frame with four more. *)
Lemma Siemens_read_witness :
  let first := {| arbitration_id := RESPONSE_ID;
                  data := [0x10; 0x0A; 0x62; 0xF1; 0x86; 0x01; 0x02; 0x03];
                  is_extended_id := false |} in
  let consecutive := [{| arbitration_id := RESPONSE_ID;
                         data := [0x21; 0x04; 0x05; 0x06; 0x07];
                         is_extended_id := false |}] in
  read_data 0xF18600 6
    (with_can_rx (Some first :: map Some consecutive ++ []) (siemens_session []))
  = (Ok (slice (assembled first consecutive) 0 6),
     with_can_rx [] (with_can_tx [read_msg 0xF18600; flow_control] (siemens_session []))).
Proof.
  apply (Siemens_read_reassembles_segments (siemens_session []) 0xF18600 6
           {| arbitration_id := RESPONSE_ID;
              data := [0x10; 0x0A; 0x62; 0xF1; 0x86; 0x01; 0x02; 0x03];
              is_extended_id := false |}
           [{| arbitration_id := RESPONSE_ID;
               data := [0x21; 0x04; 0x05; 0x06; 0x07];
               is_extended_id := false |}] []).
  - reflexivity.
  - reflexivity.
  - split; [reflexivity|]. eexists _, _, _. split; reflexivity.
  - repeat constructor. eexists _, _. split; reflexivity.
  - lia.
  - intros [|k] Hk; simpl in Hk; [|lia]. vm_compute. reflexivity.
  - vm_compute. discriminate.
Defined.

(** X14. A read of no bytes over CAN sends its request and does not wait for
    the answer: the result is empty and whatever the device replies
    stays on the channel, where the next call will find it. *)
Theorem Siemens_read_of_nothing_leaves_reply (p : t) (address length : Z) :
  is_connected p = true -> bus (can p) = true -> length <= 0 ->
  read_data address length p = (Ok [], with_can_tx [read_msg address] p).
Proof.
  intros Hc Hb Hn.
  unfold read_data. rewrite Hc. cbn [negb].
  unfold try_except, bind at 1, gets. rewrite Hb.
  unfold _read_data_can. fold (read_msg address).
  unfold bind at 1. rewrite SiemensReadFacts.canio_send_run by exact Hb.
  unfold bind at 1, gets. unfold bind.
  assert (Hr : forall fuel q, read_frames fuel length [] q = (Ok [], q)).
  { intros [|fuel] q; simpl;
      (destruct (Z.ltb_spec (len (@nil Z)) length) as [H|_];
       [unfold len in H; simpl in H; lia | reflexivity]). }
  rewrite Hr. unfold ret, slice. rewrite drop_nil, take_nil. reflexivity.
Qed.

Lemma Siemens_read_of_nothing_witness :
  let reply := {| arbitration_id := RESPONSE_ID; data := [0x04; 0x62; 0xF1; 0x86; 0x03];
                  is_extended_id := false |} in
  read_data 0xF18600 0 (siemens_session [Some reply])
  = (Ok [], with_can_tx [read_msg 0xF18600] (siemens_session [Some reply])).
Proof.
  apply (Siemens_read_of_nothing_leaves_reply
           (siemens_session [Some {| arbitration_id := RESPONSE_ID;
                                     data := [0x04; 0x62; 0xF1; 0x86; 0x03];
                                     is_extended_id := false |}]) 0xF18600 0).
  - reflexivity.
  - reflexivity.
  - lia.
Defined.

End SiemensRequests.

Section SiemensAddressing.
Import Siemens SiemensSpec.

Lemma data_id_of_block (address : Z) :
  Z.land (Z.shiftr address 8) 0xFFFF = (address / 256) mod 65536.
Proof.
  rewrite Z.shiftr_div_pow2 by lia. change 0xFFFF with (Z.ones 16).
  now rewrite Z.land_ones by lia.
Qed.

(** X15. Siemens requests carry a 16-bit data identifier made of bits 8 to 23
    of the address.  Two addresses in the same 256-byte block, or
    addresses that differ above bit 23, cannot be told apart: [read_data]
    and [write_data] do with one exactly what they do with the other,
    over CAN and over the serial line. *)
Theorem Siemens_requests_depend_on_the_block_only
    (p : t) (address address' length : Z) (payload : bytes) :
  (address / 256) mod 65536 = (address' / 256) mod 65536 ->
  read_data address length p = read_data address' length p /\
  write_data address payload p = write_data address' payload p.
Proof.
  intros H. rewrite <- !data_id_of_block in H.
  unfold read_data, write_data, _read_data_can, _read_data_serial. cbv zeta.
  rewrite H. split; reflexivity.
Qed.

Lemma Siemens_block_witness :
  read_data 0x123456 4 (siemens_session []) = read_data 0x1123400 4 (siemens_session []) /\
  write_data 0x123456 [0xAA] (siemens_session [])
  = write_data 0x1123400 [0xAA] (siemens_session []).
Proof.
  apply (Siemens_requests_depend_on_the_block_only (siemens_session [])
           0x123456 0x1123400 4 [0xAA]).
  reflexivity.
Defined.
End SiemensAddressing.

(** ** Siemens: reading over the serial line *)

Lemma take_bytes_timeout (n : nat) (l : bytes) (rest : list (option Z)) :
  (length l < n)%nat -> take_bytes n (map Some l ++ None :: rest) = (l, rest).
Proof.
  revert n. induction l as [|b l IH]; intros [|n] H; simpl in *; try lia; try reflexivity.
  rewrite IH by lia. reflexivity.
Qed.

Section SiemensSerialLine.
Import Siemens SiemensSerial.

(** X16. Over the serial line [read_data] returns what arrives before the
    read times out, without its first three bytes and without its last
    byte.  The checksum byte is dropped unchecked and the number of
    bytes asked for plays no role; a reply of fewer than four bytes
    raises "No valid response received". *)
Theorem Siemens_serial_read_returns_reply_body
    (p : t) (address length : Z) (reply : bytes) (rest : list (option Z)) :
  is_connected p = true -> bus (can p) = false -> ser_is_open (link p) = true ->
  len reply < 256 ->
  read_data address length (with_rx (map Some reply ++ None :: rest) p)
  = (if 4 <=? len reply then Ok (slice reply 3 (len reply - 1)) else Raise NoValidResponse,
     with_rx rest (with_tx [read_request address] p)).
Proof.
  intros Hc Hb Ho Hl.
  unfold read_data. cbn [is_connected with_rx set_link]. rewrite Hc. cbn [negb].
  unfold try_except, bind at 1, gets. cbn [can with_rx set_link]. rewrite Hb.
  unfold _read_data_serial. fold (read_request address).
  unfold bind at 1, io at 1, zoom. rewrite ser_write_open by exact Ho.
  unfold bind, io, zoom. rewrite ser_read_open by exact Ho.
  cbn [link set_link link_tx link_rx wire rx set_rx with_rx].
  rewrite take_bytes_timeout by (unfold len in Hl; lia).
  cbn [fst snd].
  destruct p as [c conn cl [h [pr r t]] sq].
  destruct (4 <=? len reply); reflexivity.
Qed.

(** A reply of six bytes. *)
Lemma Siemens_serial_read_witness :
  let p := siemens_serial_session [] in
  read_data 0xF18600 16
    (with_rx (map Some [0x05; 0x62; 0xF1; 0x86; 0x03; 0x1F] ++ None :: []) p)
  = (if 4 <=? len [0x05; 0x62; 0xF1; 0x86; 0x03; 0x1F]
     then Ok (slice [0x05; 0x62; 0xF1; 0x86; 0x03; 0x1F] 3
                (len [0x05; 0x62; 0xF1; 0x86; 0x03; 0x1F] - 1))
     else Raise NoValidResponse,
     with_rx [] (with_tx [read_request 0xF18600] p)).
Proof.
  apply (Siemens_serial_read_returns_reply_body
           (siemens_serial_session []) 0xF18600 16 [0x05; 0x62; 0xF1; 0x86; 0x03; 0x1F] []).
  - reflexivity.
  - reflexivity.
  - reflexivity.
  - unfold len. simpl. lia.
Defined.
End SiemensSerialLine.

(** ** Disconnecting through the manager and the bridge *)






(** ** Connecting through the manager and the bridge *)

(** [connect_ecu] never raises; when it does not return [True], only the
    object of the family it was asked to connect may have changed. *)
Lemma connect_ecu_false (k : ECUType) (s : ECUManager.t) :
  (exists s', ECUManager.connect_ecu k s = (Ok true, s')) \/
  (exists s', ECUManager.connect_ecu k s = (Ok false, s') /\
              ECUManager._active_ecu s' = ECUManager._active_ecu s /\
              forall j, j <> k -> ECUManager._protocols s' !! j = ECUManager._protocols s !! j).
Proof.
  unfold ECUManager.connect_ecu.
  destruct (ECUManager._protocols s !! k) as [o|] eqn:Hk; [|right; eauto].
  unfold try_except, bind, ECUManager.on_protocol, modify, ret. rewrite Hk.
  destruct (connect o) as [[[|]|e] o'].
  - left. eauto.
  - right. eexists. split; [reflexivity|]. split; [reflexivity|].
    intros j Hj. cbn. now rewrite lookup_insert_ne by congruence.
  - right. eexists. split; [reflexivity|]. split; [reflexivity|].
    intros j Hj. cbn. now rewrite lookup_insert_ne by congruence.
Qed.

(** The bridge after a [connect] that succeeded. *)
Lemma bridge_connect_session (now : Q) (k : ECUType) (b b' : ECUBridge.t) :
  ECUBridge.connect now k b = (Ok true, b') ->
  exists o i,
    ECUManager._protocols (ECUBridge.manager b') !! k = Some o /\
    connected o = true /\
    ECUManager._active_ecu (ECUBridge.manager b') = Some k /\
    ECUBridge.sessions b' =
      <[k := {| ECUBridge.session_ecu_type := k; ECUBridge.session_config := config o;
                ECUBridge.info := i; ECUBridge.connected_at := now |}]>
      (ECUBridge.sessions b).
Proof.
  unfold ECUBridge.connect, try_except, bind at 1, ECUBridge.mgr, zoom.
  destruct (ECUManager.connect_ecu k (ECUBridge.manager b)) as [[[|]|e] s1] eqn:Ec;
    try discriminate.
  destruct (connect_ecu_true _ _ _ Ec) as (o & o' & Hk & Hc & ->).
  pose proof (connect_sets o true o' Hc eq_refl) as Hconn.
  unfold bind, gets, ECUManager.get_active_protocol, ECUManager.on_protocol, modify, ret.
  simpl. rewrite lookup_insert_eq. simpl. rewrite lookup_insert_eq.
  pose proof (get_ecu_info_keeps o') as Hkeep.
  destruct (get_ecu_info o') as [[i|e] o''] eqn:Ei; simpl in Hkeep |- *; [|discriminate].
  rewrite lookup_insert_eq. intros E. injection E as <-. simpl.
  exists o'', i. rewrite lookup_insert_eq. repeat split. congruence.
Qed.

(** The bridge after a [connect] that did not succeed: the active
    pointer, the session table and the objects of the other families
    are as before. *)
Lemma bridge_connect_false (now : Q) (k : ECUType) (b : ECUBridge.t) :
  (exists b', ECUBridge.connect now k b = (Ok true, b')) \/
  (exists b', ECUBridge.connect now k b = (Ok false, b') /\
              ECUManager._active_ecu (ECUBridge.manager b')
              = ECUManager._active_ecu (ECUBridge.manager b) /\
              ECUBridge.sessions b' = ECUBridge.sessions b /\
              forall j, j <> k ->
                ECUManager._protocols (ECUBridge.manager b') !! j
                = ECUManager._protocols (ECUBridge.manager b) !! j).
Proof.
  destruct (connect_ecu_false k (ECUBridge.manager b))
    as [[s' Hc] | (s' & Hc & Ha & Ho)].
  - left. unfold ECUBridge.connect, try_except, bind at 1, ECUBridge.mgr, zoom.
    rewrite Hc. destruct (connect_ecu_true _ _ _ Hc) as (o & o' & Hk & Hco & ->).
    unfold bind, gets, ECUManager.get_active_protocol, ECUManager.on_protocol, modify, ret.
    simpl. rewrite lookup_insert_eq. simpl. rewrite lookup_insert_eq.
    destruct (get_ecu_info_ok o') as (i & o'' & ->). simpl.
    rewrite lookup_insert_eq. eauto.
  - right. unfold ECUBridge.connect, try_except, bind at 1, ECUBridge.mgr, zoom.
    rewrite Hc. eexists. split; [reflexivity|]. simpl. auto.
Qed.

(** * The coordinator: sessions, routing and reconfiguration *)

Section SessionRecords.





(** X19. A [connect] of the bridge that returns [False] changes neither the
    active pointer nor the session table nor the object of any other
    family: family-less calls go where they went before. *)
Theorem failed_connect_keeps_routing (now : Q) (k : ECUType) (b : ECUBridge.t) :
  fst (ECUBridge.connect now k b) = Ok false ->
  let b' := snd (ECUBridge.connect now k b) in
  ECUManager._active_ecu (ECUBridge.manager b') = ECUManager._active_ecu (ECUBridge.manager b) /\
  ECUBridge.list_sessions b' = ECUBridge.list_sessions b /\
  ECUBridge.get_active_session b' = ECUBridge.get_active_session b /\
  forall j, j <> k ->
    ECUManager._protocols (ECUBridge.manager b') !! j
    = ECUManager._protocols (ECUBridge.manager b) !! j.
Proof.
  intros Hf b'. subst b'.
  destruct (bridge_connect_false now k b) as [[b' Hc] | (b' & Hc & Ha & Hs & Ho)];
    rewrite Hc in Hf |- *; [discriminate|].
  cbn [snd]. unfold ECUBridge.get_active_session, ECUBridge.list_sessions.
  rewrite Ha, Hs. auto.
Qed.

(** Bosch is connected and active; the Siemens device does not answer. *)
Lemma failed_connect_witness :
  let b := snd (ECUBridge.connect (100 # 1) BOSCH_ME17 two_device_bridge) in
  let b' := snd (ECUBridge.connect (200 # 1) SIEMENS_MSV b) in
  ECUManager._active_ecu (ECUBridge.manager b') = ECUManager._active_ecu (ECUBridge.manager b) /\
  ECUBridge.list_sessions b' = ECUBridge.list_sessions b /\
  ECUBridge.get_active_session b' = ECUBridge.get_active_session b /\
  forall j, j <> SIEMENS_MSV ->
    ECUManager._protocols (ECUBridge.manager b') !! j
    = ECUManager._protocols (ECUBridge.manager b) !! j.
Proof.
  apply (failed_connect_keeps_routing (200 # 1) SIEMENS_MSV
           (snd (ECUBridge.connect (100 # 1) BOSCH_ME17 two_device_bridge))).
  vm_compute. reflexivity.
Defined.

(** X20. A [connect] of the bridge that returns [True] records a session for
    the family: the record carries the family, the configuration of its
    protocol object and the time of the call, it is what
    [get_active_session] returns, and the records of the other families
    are untouched. *)
Theorem connect_records_session (now : Q) (k : ECUType) (b b' : ECUBridge.t) :
  ECUBridge.connect now k b = (Ok true, b') ->
  exists s o,
    ECUBridge.get_active_session b' = Some s /\
    ECUBridge.list_sessions b' !! k = Some s /\
    ECUBridge.session_ecu_type s = k /\
    ECUBridge.connected_at s = now /\
    ECUManager._protocols (ECUBridge.manager b') !! k = Some o /\
    ECUBridge.session_config s = config o /\
    ECUBridge.is_connected None b' = true /\
    forall j, j <> k -> ECUBridge.list_sessions b' !! j = ECUBridge.list_sessions b !! j.
Proof.
  intros Hc. destruct (bridge_connect_session now k b b' Hc) as (o & i & Ho & Hco & Ha & Hs).
  eexists _, o. unfold ECUBridge.get_active_session, ECUBridge.list_sessions,
    ECUBridge.is_connected, ECUManager.is_connected, ECUManager.target.
  rewrite Ha, Hs, Ho, lookup_insert_eq. repeat split; try reflexivity; try exact Hco.
  intros j Hj. now rewrite lookup_insert_ne by congruence.
Qed.

Lemma connect_records_witness :
  exists s o,
    let b' := snd (ECUBridge.connect (100 # 1) BOSCH_ME17 two_device_bridge) in
    ECUBridge.get_active_session b' = Some s /\
    ECUBridge.list_sessions b' !! BOSCH_ME17 = Some s /\
    ECUBridge.session_ecu_type s = BOSCH_ME17 /\
    ECUBridge.connected_at s = 100 # 1 /\
    ECUManager._protocols (ECUBridge.manager b') !! BOSCH_ME17 = Some o /\
    ECUBridge.session_config s = config o /\
    ECUBridge.is_connected None b' = true /\
    forall j, j <> BOSCH_ME17 ->
      ECUBridge.list_sessions b' !! j = ECUBridge.list_sessions two_device_bridge !! j.
Proof.
  apply (connect_records_session (100 # 1) BOSCH_ME17 two_device_bridge
           (snd (ECUBridge.connect (100 # 1) BOSCH_ME17 two_device_bridge))).
  vm_compute. reflexivity.
Defined.

End SessionRecords.

Section Reconfiguration.

Lemma configure_ecu_spec (k : ECUType) (c : ECUConfig) (w : Wire) (cw : CanWire)
    (b : ECUBridge.t) :
  ECUBridge.configure_ecu k c w cw b =
    (Ok true,
     {| ECUBridge.manager :=
          {| ECUManager._protocols :=
               <[k := fresh_protocol k c w cw]> (ECUManager._protocols (ECUBridge.manager b));
             ECUManager._active_ecu := ECUManager._active_ecu (ECUBridge.manager b) |};
        ECUBridge.sessions := ECUBridge.sessions b |}).
Proof. destruct b as [[protos active] ss]. now destruct k. Qed.

Lemma fresh_protocol_facts (k : ECUType) (c : ECUConfig) (w : Wire) (cw : CanWire) :
  let o := fresh_protocol k c w cw in
  connected o = false /\ config o = c /\
  (forall a n, read_data a n o = (Raise NotConnected, o)) /\
  (forall a d, write_data a d o = (Raise NotConnected, o)) /\
  get_ecu_info o = (Ok ∅, o) /\ get_dtc_codes o = (Ok [], o) /\
  clear_dtc_codes o = (Ok false, o).
Proof. destruct k; repeat split. Qed.

(** X21. Reconfiguring the family that is connected and active replaces its
    protocol object by a new one that is not connected, with the given
    configuration whatever family that configuration names; the active
    pointer and the session record stay.  Family-less calls are then
    routed to the new object: memory operations raise "Not connected to
    ECU" and the diagnostic calls return their empty results. *)
Theorem reconfigure_active_family (k : ECUType) (c : ECUConfig) (w : Wire) (cw : CanWire)
    (b : ECUBridge.t) :
  ECUManager._active_ecu (ECUBridge.manager b) = Some k ->
  exists b',
    ECUBridge.configure_ecu k c w cw b = (Ok true, b') /\
    ECUManager._active_ecu (ECUBridge.manager b') = Some k /\
    ECUBridge.get_active_session b' = ECUBridge.get_active_session b /\
    ECUBridge.is_connected None b' = false /\
    (exists o, ECUManager._protocols (ECUBridge.manager b') !! k = Some o /\ config o = c) /\
    (forall a n, ECUBridge.read_memory a n None b' = (Raise NotConnected, b')) /\
    (forall a d, ECUBridge.write_memory a d None b' = (Raise NotConnected, b')) /\
    ECUBridge.get_ecu_info None b' = (Ok ∅, b') /\
    ECUBridge.get_diagnostic_codes None b' = (Ok [], b') /\
    ECUBridge.clear_diagnostic_codes None b' = (Ok false, b').
Proof.
  intros Ha. eexists. split; [apply configure_ecu_spec|].
  destruct (fresh_protocol_facts k c w cw) as (Hc & Hcfg & Hr & Hw & Hi & Hd & Hcl).
  set (o := fresh_protocol k c w cw) in *.
  destruct b as [[protos active] ss]. cbn in Ha. subst active.
  unfold ECUBridge.get_active_session, ECUBridge.is_connected, ECUManager.is_connected,
    ECUBridge.read_memory, ECUBridge.write_memory, ECUBridge.get_ecu_info,
    ECUBridge.get_diagnostic_codes, ECUBridge.clear_diagnostic_codes,
    ECUBridge._get_protocol, ECUManager.get_active_protocol, ECUBridge.mgr, zoom,
    ECUManager.on_protocol.
  cbn [ECUBridge.manager ECUBridge.sessions ECUManager._active_ecu ECUManager._protocols
       ECUManager.target].
  rewrite !lookup_insert_eq.
  assert (Hid : <[k := o]> (<[k := o]> protos) = <[k := o]> protos) by apply insert_insert_eq.
  repeat split; try assumption.
  - eauto.
  - intros a n. rewrite Hr. unfold ECUBridge.set_manager, ECUManager.set_protocols. cbn.
    now rewrite Hid.
  - intros a d. rewrite Hw. unfold ECUBridge.set_manager, ECUManager.set_protocols. cbn.
    now rewrite Hid.
  - rewrite Hi. unfold ECUBridge.set_manager, ECUManager.set_protocols. cbn. now rewrite Hid.
  - rewrite Hd. unfold ECUBridge.set_manager, ECUManager.set_protocols. cbn. now rewrite Hid.
  - rewrite Hcl. unfold ECUBridge.set_manager, ECUManager.set_protocols. cbn. now rewrite Hid.
Qed.

Lemma reconfigure_witness :
  let b := snd (ECUBridge.connect (100 # 1) BOSCH_ME17 two_device_bridge) in
  exists b',
    ECUBridge.configure_ecu BOSCH_ME17 denso_config idle_wire idle_can b = (Ok true, b') /\
    ECUManager._active_ecu (ECUBridge.manager b') = Some BOSCH_ME17 /\
    ECUBridge.get_active_session b' = ECUBridge.get_active_session b /\
    ECUBridge.is_connected None b' = false /\
    (exists o, ECUManager._protocols (ECUBridge.manager b') !! BOSCH_ME17 = Some o /\
               config o = denso_config) /\
    (forall a n, ECUBridge.read_memory a n None b' = (Raise NotConnected, b')) /\
    (forall a d, ECUBridge.write_memory a d None b' = (Raise NotConnected, b')) /\
    ECUBridge.get_ecu_info None b' = (Ok ∅, b') /\
    ECUBridge.get_diagnostic_codes None b' = (Ok [], b') /\
    ECUBridge.clear_diagnostic_codes None b' = (Ok false, b').
Proof.
  apply (reconfigure_active_family BOSCH_ME17 denso_config idle_wire idle_can
           (snd (ECUBridge.connect (100 # 1) BOSCH_ME17 two_device_bridge))).
  vm_compute. reflexivity.
Defined.

End Reconfiguration.


(** ** The checksum algorithms of the utilities *)

Lemma lxor_byte (a b : Z) : is_byte a -> is_byte b -> is_byte (Z.lxor a b).
Proof.
  unfold is_byte. intros Ha Hb.
  assert (H0 : 0 <= Z.lxor a b) by (apply Z.lxor_nonneg; lia).
  split; [exact H0|].
  destruct (Z.eq_dec (Z.lxor a b) 0) as [->|Hnz]; [lia|].
  change 256 with (2 ^ 8). apply Z.log2_lt_pow2; [lia|].
  eapply Z.le_lt_trans; [apply Z.log2_lxor; lia|].
  apply Z.max_lub_lt.
  - destruct (Z.eq_dec a 0) as [->|]; [reflexivity|]. apply Z.log2_lt_pow2; lia.
  - destruct (Z.eq_dec b 0) as [->|]; [reflexivity|]. apply Z.log2_lt_pow2; lia.
Qed.

Lemma lxor_cancel_l (a b c : Z) : Z.lxor a b = Z.lxor a c -> b = c.
Proof.
  intros H. apply (f_equal (Z.lxor a)) in H.
  now rewrite <- !Z.lxor_assoc, Z.lxor_nilpotent, !Z.lxor_0_l in H.
Qed.

Lemma lxor_cancel_r (a b c : Z) : Z.lxor a c = Z.lxor b c -> a = b.
Proof. rewrite (Z.lxor_comm a), (Z.lxor_comm b). apply lxor_cancel_l. Qed.

Lemma byte_in_table (x : Z) : is_byte x -> In x (map Z.of_nat (seq 0 256)).
Proof.
  intros H. unfold is_byte in H. rewrite <- (Z2Nat.id x) by lia.
  apply in_map, in_seq. lia.
Qed.

(** One shift of the CRC can be undone: it loses nothing of a byte. *)
Lemma crc8_shift_undone (x : Z) : is_byte x -> crc8_unshift (crc8_shift x) = x.
Proof.
  intros H.
  assert (T : forallb (fun x => crc8_unshift (crc8_shift x) =? x)
                (map Z.of_nat (seq 0 256)) = true) by (vm_compute; reflexivity).
  rewrite forallb_forall in T. apply Z.eqb_eq, T, byte_in_table, H.
Qed.

Lemma crc8_shift_byte (x : Z) : is_byte (crc8_shift x).
Proof. unfold crc8_shift. apply SiemensFacts.land_byte. Qed.

Lemma crc8_shifts_byte (n : nat) (x : Z) : is_byte x -> is_byte (Nat.iter n crc8_shift x).
Proof. intros H. destruct n; simpl; [exact H | apply crc8_shift_byte]. Qed.

Lemma crc8_shifts_inj (n : nat) (x y : Z) :
  is_byte x -> is_byte y -> Nat.iter n crc8_shift x = Nat.iter n crc8_shift y -> x = y.
Proof.
  intros Hx Hy. induction n as [|n IH]; simpl; [easy|]. intros H. apply IH.
  rewrite <- (crc8_shift_undone (Nat.iter n crc8_shift x)) by now apply crc8_shifts_byte.
  rewrite <- (crc8_shift_undone (Nat.iter n crc8_shift y)) by now apply crc8_shifts_byte.
  now rewrite H.
Qed.

Lemma crc8_byte_byte (c b : Z) : is_byte (crc8_byte c b).
Proof. unfold crc8_byte. simpl. apply crc8_shift_byte. Qed.

(** A running checksum whose step loses nothing detects the change of
    one byte. *)
Section RunningChecksum.
Variable step : Z -> Z -> Z.
Hypothesis step_byte : forall c b, is_byte c -> is_byte b -> is_byte (step c b).
Hypothesis step_inj_byte :
  forall c b b', is_byte c -> is_byte b -> is_byte b' -> step c b = step c b' -> b = b'.
Hypothesis step_inj_state :
  forall c c' b, is_byte c -> is_byte c' -> is_byte b -> step c b = step c' b -> c = c'.

Lemma foldl_step_byte (data : bytes) : forall c,
  is_byte c -> is_bytes data -> is_byte (foldl step c data).
Proof.
  induction data as [|x data IH]; intros c Hc Hd; simpl; [exact Hc|].
  inversion Hd; subst. apply IH; auto.
Qed.

Lemma foldl_step_inj (data : bytes) : forall c c',
  is_byte c -> is_byte c' -> is_bytes data ->
  foldl step c data = foldl step c' data -> c = c'.
Proof.
  induction data as [|x data IH]; intros c c' Hc Hc' Hd; simpl; [easy|].
  inversion Hd; subst. intros H. apply IH in H; auto. now apply step_inj_state in H.
Qed.

Lemma foldl_step_detects (data : bytes) : forall (j : nat) (b b' c : Z),
  is_byte c -> is_bytes data -> data !! j = Some b -> is_byte b' -> b <> b' ->
  foldl step c (<[j := b']> data) <> foldl step c data.
Proof.
  induction data as [|x data IH]; intros j b b' c Hc Hd Hj Hb' Hne; [discriminate|].
  inversion Hd as [|? ? Hx Hd']; subst.
  destruct j as [|j]; simpl in *.
  - injection Hj as ->. intros H. apply foldl_step_inj in H; auto.
    apply step_inj_byte in H; auto.
  - apply IH with (b := b); auto.
Qed.
End RunningChecksum.

Lemma crc8_byte_inj_byte (c b b' : Z) :
  is_byte c -> is_byte b -> is_byte b' -> crc8_byte c b = crc8_byte c b' -> b = b'.
Proof.
  intros Hc Hb Hb' H. unfold crc8_byte in H.
  apply crc8_shifts_inj in H; auto using lxor_byte. now apply lxor_cancel_l in H.
Qed.

Lemma crc8_byte_inj_state (c c' b : Z) :
  is_byte c -> is_byte c' -> is_byte b -> crc8_byte c b = crc8_byte c' b -> c = c'.
Proof.
  intros Hc Hc' Hb H. unfold crc8_byte in H.
  apply crc8_shifts_inj in H; auto using lxor_byte. now apply lxor_cancel_r in H.
Qed.

Lemma sum_app (l1 l2 : bytes) : sum (l1 ++ l2) = sum l1 + sum l2.
Proof. unfold sum. induction l1 as [|x l1 IH]; simpl; [reflexivity | rewrite IH; lia]. Qed.

Lemma land_FF (x : Z) : Z.land x 0xFF = x mod 256.
Proof. change 0xFF with (Z.ones 8). now rewrite Z.land_ones by lia. Qed.

Lemma sum_mod_insert_neq (data : bytes) (j : nat) (b b' : Z) :
  data !! j = Some b -> is_byte b -> is_byte b' -> b <> b' ->
  sum (<[j := b']> data) mod 256 <> sum data mod 256.
Proof.
  intros Hj Hb Hb' Hne H.
  apply (DensoFacts.checksum_insert_neq data j b b' Hj Hb Hb' Hne).
  unfold Denso._calculate_checksum. now rewrite H.
Qed.

(** * The utilities *)

Section Checksums.

(** X22. Every checksum algorithm of [calculate_checksum] ("sum", "xor",
    "sum_complement", "crc8") detects the change of a single byte: a
    message and the same message with one byte replaced by a different
    byte never have the same checksum. *)
Theorem checksum_detects_single_byte_change
    (algorithm : string) (data : bytes) (j : nat) (b b' c : Z) :
  is_bytes data -> data !! j = Some b -> is_byte b' -> b <> b' ->
  calculate_checksum data algorithm = Ok c ->
  calculate_checksum (<[j := b']> data) algorithm <> Ok c.
Proof.
  intros Hd Hj Hb' Hne. unfold calculate_checksum.
  assert (Hb : is_byte b) by (eapply Forall_lookup_1; eauto).
  assert (H0 : is_byte 0) by (unfold is_byte; lia).
  destruct (String.eqb algorithm "sum").
  { rewrite !land_FF. intros E E'. injection E as <-. injection E' as E'.
    now apply (sum_mod_insert_neq data j b b'). }
  destruct (String.eqb algorithm "xor").
  { intros E E'. injection E as <-. injection E' as E'. revert E'.
    apply (foldl_step_detects Z.lxor lxor_byte
             (fun c x x' _ _ _ => lxor_cancel_l c x x')
             (fun c c' x _ _ _ => lxor_cancel_r c c' x)) with (b := b); auto. }
  destruct (String.eqb algorithm "sum_complement").
  { intros E E'. injection E as <-. injection E' as E'. revert E'.
    now apply (DensoFacts.checksum_insert_neq data j b b'). }
  destruct (String.eqb algorithm "crc8"); [|discriminate].
  intros E E'. injection E as <-. injection E' as E'. revert E'.
  apply (foldl_step_detects crc8_byte (fun c x _ _ => crc8_byte_byte c x)
           crc8_byte_inj_byte crc8_byte_inj_state) with (b := b); auto.
Qed.

(** The CRC-8 of a message of three bytes, the second of which is
    changed. *)
Lemma checksum_detects_witness :
  calculate_checksum (<[1%nat := 0x13]> [0x10; 0x12; 0x14]) "crc8" <> Ok 0xB3.
Proof.
  apply (checksum_detects_single_byte_change "crc8" [0x10; 0x12; 0x14] 1 0x12 0x13 0xB3).
  - repeat constructor; unfold is_byte; lia.
  - reflexivity.
  - unfold is_byte. lia.
  - lia.
  - vm_compute. reflexivity.
Defined.

End Checksums.

Section ChecksumResidue.

(** X23. A message followed by its own checksum has checksum zero, for the
    exclusive-or and for the CRC-8; a message followed by its
    "sum_complement" checksum, which is the checksum byte of the Denso
    and Siemens serial frames, has the "sum" checksum zero. *)
Theorem checksum_of_message_with_its_checksum (data : bytes) :
  exists x c s,
    calculate_checksum data "xor" = Ok x /\
    calculate_checksum (data ++ [x]) "xor" = Ok 0 /\
    calculate_checksum data "crc8" = Ok c /\
    calculate_checksum (data ++ [c]) "crc8" = Ok 0 /\
    calculate_checksum data "sum_complement" = Ok s /\
    s = Denso._calculate_checksum data /\
    s = Siemens._calculate_checksum data /\
    calculate_checksum (data ++ [s]) "sum" = Ok 0.
Proof.
  exists (foldl Z.lxor 0 data), (foldl crc8_byte 0 data), (Denso._calculate_checksum data).
  repeat split.
  - unfold calculate_checksum. cbn [String.eqb Ascii.eqb Bool.eqb].
    rewrite foldl_app. cbn [foldl]. now rewrite Z.lxor_nilpotent.
  - unfold calculate_checksum. cbn [String.eqb Ascii.eqb Bool.eqb].
    rewrite foldl_app. cbn [foldl]. unfold crc8_byte. now rewrite Z.lxor_nilpotent.
  - unfold calculate_checksum. cbn [String.eqb Ascii.eqb Bool.eqb].
    rewrite land_FF, sum_app. unfold Denso._calculate_checksum.
    change (sum [(256 - sum data mod 256) mod 256]) with ((256 - sum data mod 256) mod 256 + 0).
    rewrite Z.add_0_r. f_equal.
    rewrite Z.add_mod_idemp_r by lia.
    replace (sum data + (256 - sum data mod 256))
      with (sum data - sum data mod 256 + 1 * 256) by lia.
    rewrite Z.mod_add by lia.
    rewrite Zminus_mod_idemp_r, Z.sub_diag. reflexivity.
Qed.

End ChecksumResidue.

(** ** Address validation *)

Lemma validate_address_range_true (address length : Z) (ranges : list (Z * Z)) :
  validate_address_range address length ranges = true <->
  exists s e, In (s, e) ranges /\
              s <= address <= e /\ s <= address + length - 1 <= e.
Proof.
  unfold validate_address_range. rewrite existsb_exists. split.
  - intros ([s e] & Hin & H). exists s, e. split; [exact Hin|].
    rewrite !andb_true_iff, !Z.leb_le in H. lia.
  - intros (s & e & Hin & H). exists (s, e). split; [exact Hin|].
    rewrite !andb_true_iff, !Z.leb_le. lia.
Qed.

Section Validation.

(** X24. [validate_address_range], used with the ranges of a memory map,
    accepts a request of at least one byte exactly when a single region
    of the map contains every address of the request.  A request that
    runs from one region into the next is rejected even where the two
    regions are adjacent. *)
Theorem validate_accepts_requests_inside_one_region
    (m : list ECUMemoryRegion) (address length : Z) :
  1 <= length ->
  validate_address_range address length (ranges_of m) = true <->
  exists r, In r m /\
            forall x, address <= x < address + length -> region_contains r x = true.
Proof.
  intros Hn. rewrite validate_address_range_true. unfold ranges_of. split.
  - intros (s & e & Hin & Ha & He).
    apply in_map_iff in Hin. destruct Hin as (r & Hr & Hin). injection Hr as <- <-.
    exists r. split; [exact Hin|]. intros x Hx. unfold region_contains.
    rewrite andb_true_iff, !Z.leb_le. lia.
  - intros (r & Hin & Hall). exists (start r), (region_end r).
    split; [apply in_map_iff; now exists r|].
    pose proof (Hall address ltac:(lia)) as H1.
    pose proof (Hall (address + length - 1) ltac:(lia)) as H2.
    unfold region_contains in H1, H2. rewrite andb_true_iff, !Z.leb_le in H1, H2. lia.
Qed.

(** Two bytes at the last address of the Bosch internal flash, which the
    external flash follows directly. *)
Lemma validate_witness :
  validate_address_range 0x1FFFFF 2 (ranges_of BOSCH_ME17_MEMORY_MAP) = true <->
  exists r, In r BOSCH_ME17_MEMORY_MAP /\
            forall x, 0x1FFFFF <= x < 0x1FFFFF + 2 -> region_contains r x = true.
Proof.
  apply (validate_accepts_requests_inside_one_region BOSCH_ME17_MEMORY_MAP 0x1FFFFF 2). lia.
Defined.

End Validation.


(** ** The text of a trouble code *)

Lemma hex_char_inj (d d' : Z) :
  0 <= d < 16 -> 0 <= d' < 16 -> hex_char true d = hex_char true d' -> d = d'.
Proof.
  intros Hd Hd' H.
  assert (T : forallb (fun x => forallb (fun y =>
                 implb (Ascii.eqb (hex_char true x) (hex_char true y)) (x =? y))
                 (map Z.of_nat (seq 0 16))) (map Z.of_nat (seq 0 16)) = true)
    by (vm_compute; reflexivity).
  rewrite forallb_forall in T.
  assert (Hin : forall x, 0 <= x < 16 -> In x (map Z.of_nat (seq 0 16))).
  { intros x Hx. rewrite <- (Z2Nat.id x) by lia. apply in_map, in_seq. lia. }
  specialize (T d (Hin d Hd)). rewrite forallb_forall in T.
  specialize (T d' (Hin d' Hd')). rewrite H, Ascii.eqb_refl in T. simpl in T.
  now apply Z.eqb_eq.
Qed.

Lemma hex4_inj (n m : Z) : 0 <= n < 65536 -> 0 <= m < 65536 -> hex4 n = hex4 m -> n = m.
Proof.
  intros Hn Hm H. unfold hex4 in H. simpl in H.
  injection H as H3 H2 H1 H0.
  apply hex_char_inj in H3, H2, H1, H0; try (apply Z.mod_pos_bound; lia).
  pose proof (Z.div_mod n 16 ltac:(lia)). pose proof (Z.div_mod m 16 ltac:(lia)).
  pose proof (Z.div_mod (n / 16) 16 ltac:(lia)). pose proof (Z.div_mod (m / 16) 16 ltac:(lia)).
  pose proof (Z.div_mod (n / 256) 16 ltac:(lia)). pose proof (Z.div_mod (m / 256) 16 ltac:(lia)).
  pose proof (Z.div_mod (n / 4096) 16 ltac:(lia)).
  pose proof (Z.div_mod (m / 4096) 16 ltac:(lia)).
  assert (E1 : n / 16 / 16 = n / 256) by (rewrite Z.div_div by lia; reflexivity).
  assert (E2 : n / 256 / 16 = n / 4096) by (rewrite Z.div_div by lia; reflexivity).
  assert (E3 : m / 16 / 16 = m / 256) by (rewrite Z.div_div by lia; reflexivity).
  assert (E4 : m / 256 / 16 = m / 4096) by (rewrite Z.div_div by lia; reflexivity).
  assert (E5 : n / 4096 / 16 = 0) by (rewrite Z.div_div by lia; apply Z.div_small; lia).
  assert (E6 : m / 4096 / 16 = 0) by (rewrite Z.div_div by lia; apply Z.div_small; lia).
  lia.
Qed.

Lemma dtc_letter_inj (c c' : Z) :
  0 <= c < 65536 -> 0 <= c' < 65536 -> dtc_letter c = dtc_letter c' -> c / 16384 = c' / 16384.
Proof.
  intros Hc Hc' H. unfold dtc_letter in H.
  assert (Hq : 0 <= c / 16384 < 4)
    by (split; [apply Z.div_pos; lia | apply Z.div_lt_upper_bound; lia]).
  assert (Hq' : 0 <= c' / 16384 < 4)
    by (split; [apply Z.div_pos; lia | apply Z.div_lt_upper_bound; lia]).
  assert (Hx : c / 16384 = 0 \/ c / 16384 = 1 \/ c / 16384 = 2 \/ c / 16384 = 3) by lia.
  assert (Hy : c' / 16384 = 0 \/ c' / 16384 = 1 \/ c' / 16384 = 2 \/ c' / 16384 = 3) by lia.
  destruct Hx as [Ex | [Ex | [Ex | Ex]]]; destruct Hy as [Ey | [Ey | [Ey | Ey]]];
    rewrite Ex, Ey in H |- *; first [reflexivity | discriminate].
Qed.

Lemma dtc_text_inj (c c' : Z) :
  0 <= c < 65536 -> 0 <= c' < 65536 -> dtc_text c = dtc_text c' -> c = c'.
Proof.
  intros Hc Hc' H. unfold dtc_text in H.
  remember (hex4 (c mod 16384)) as h eqn:Eh. remember (hex4 (c' mod 16384)) as h' eqn:Eh'.
  injection H as Hl Hh. subst h h'.
  apply dtc_letter_inj in Hl; auto.
  apply hex4_inj in Hh;
    try (pose proof (Z.mod_pos_bound c 16384 ltac:(lia));
         pose proof (Z.mod_pos_bound c' 16384 ltac:(lia)); lia).
  pose proof (Z.div_mod c 16384 ltac:(lia)). pose proof (Z.div_mod c' 16384 ltac:(lia)). lia.
Qed.

Lemma format_hex_int_hex4 (n : Z) : 0 <= n < 65536 -> format_hex_int true 4 n = hex4 n.
Proof.
  intros H. unfold format_hex_int. destruct (Z.ltb_spec n 0); [lia|].
  now apply format_04X_hex4.
Qed.

(** The texts of [parse_dtc_code] for a 16-bit code. *)
Lemma parse_dtc_code_text (code : Z) (format_type : string) :
  0 <= code < 65536 ->
  parse_dtc_code code format_type =
    if String.eqb format_type "standard" then dtc_text code
    else if String.eqb format_type "bosch" then bosch_dtc_text code
    else if String.eqb format_type "denso" then dtc_text code
    else hex4 code.
Proof.
  intros H. unfold parse_dtc_code, dtc_text, bosch_dtc_text.
  rewrite dtc_prefix_letter, low14 by exact H.
  rewrite !format_hex_int_hex4;
    try (pose proof (Z.mod_pos_bound code 16384 ltac:(lia)); lia).
  reflexivity.
Qed.

Section TroubleCodeTexts.

(** X25. [parse_dtc_code] gives different 16-bit codes different texts, in
    each of its formats ("standard", "bosch", "denso" and the bare
    digits of any other format name). *)
Theorem parse_dtc_code_distinguishes_codes (format_type : string) (code code' : Z) :
  0 <= code < 65536 -> 0 <= code' < 65536 -> code <> code' ->
  parse_dtc_code code format_type <> parse_dtc_code code' format_type.
Proof.
  intros Hc Hc' Hne H. apply Hne. revert H.
  rewrite !parse_dtc_code_text by assumption.
  destruct (String.eqb format_type "standard"); [now apply dtc_text_inj|].
  destruct (String.eqb format_type "bosch").
  { unfold bosch_dtc_text. intros H.
    remember (hex4 code) as h eqn:Eh. remember (hex4 code') as h' eqn:Eh'.
    injection H as H. subst h h'. now apply hex4_inj. }
  destruct (String.eqb format_type "denso"); [now apply dtc_text_inj|].
  now apply hex4_inj.
Qed.

(** Two codes that differ in their top two bits only. *)
Lemma parse_dtc_code_witness :
  parse_dtc_code 0x4123 "standard" <> parse_dtc_code 0x0123 "standard".
Proof.
  apply (parse_dtc_code_distinguishes_codes "standard" 0x4123 0x0123).
  - lia.
  - lia.
  - lia.
Defined.



End TroubleCodeTexts.

(** ** Denso: the identification structure *)

Lemma lor_shiftl_add (hi lo k : Z) :
  0 <= k -> 0 <= lo < 2 ^ k -> Z.lor (Z.shiftl hi k) lo = hi * 2 ^ k + lo.
Proof.
  intros Hk H. rewrite Z.shiftl_mul_pow2 by lia.
  assert (H0 : Z.land (hi * 2 ^ k) lo = 0).
  { apply Z.bits_inj'; intros n Hn. rewrite Z.land_spec, Z.bits_0.
    destruct (Z_lt_le_dec n k).
    - now rewrite Z.mul_pow2_bits_low by lia.
    - destruct (Z.eq_dec lo 0) as [->|]; [rewrite Z.bits_0; apply andb_false_r|].
      rewrite (Z.bits_above_log2 lo n); [apply andb_false_r | lia |].
      apply Z.lt_le_trans with k; [apply Z.log2_lt_pow2; lia | lia]. }
  now rewrite (Z.add_nocarry_lxor _ _ H0), (Z.lxor_lor _ _ H0).
Qed.

(** [struct.unpack('>I', struct.pack('>I', v))] gives [v] back. *)
Lemma unpack_pack_I (v : Z) : 0 <= v < 2 ^ 32 -> struct_unpack_I (be_bytes 4 v) = Ok v.
Proof.
  intros H.
  change (be_bytes 4 v)
    with [Z.land (Z.shiftr v 24) 0xFF; Z.land (Z.shiftr v 16) 0xFF;
          Z.land (Z.shiftr v 8) 0xFF; Z.land v 0xFF].
  unfold struct_unpack_I. f_equal.
  rewrite !land_FF, !Z.shiftr_div_pow2 by lia.
  change (2 ^ 8) with 256. change (2 ^ 16) with 65536. change (2 ^ 24) with 16777216.
  pose proof (Z.mod_pos_bound v 256 ltac:(lia)).
  pose proof (Z.mod_pos_bound (v / 256) 256 ltac:(lia)).
  pose proof (Z.mod_pos_bound (v / 65536) 256 ltac:(lia)).
  pose proof (Z.mod_pos_bound (v / 16777216) 256 ltac:(lia)).
  rewrite (lor_shiftl_add _ (v mod 256) 8) by lia.
  rewrite (lor_shiftl_add _ _ 16) by lia.
  rewrite (lor_shiftl_add _ _ 24) by lia.
  change (2 ^ 8) with 256. change (2 ^ 16) with 65536. change (2 ^ 24) with 16777216.
  pose proof (Z.div_mod v 256 ltac:(lia)).
  pose proof (Z.div_mod (v / 256) 256 ltac:(lia)).
  pose proof (Z.div_mod (v / 65536) 256 ltac:(lia)).
  pose proof (Z.div_mod (v / 16777216) 256 ltac:(lia)).
  assert (E1 : v / 256 / 256 = v / 65536) by (rewrite Z.div_div by lia; reflexivity).
  assert (E2 : v / 65536 / 256 = v / 16777216) by (rewrite Z.div_div by lia; reflexivity).
  assert (E3 : v / 16777216 / 256 = 0) by (rewrite Z.div_div by lia; apply Z.div_small; lia).
  lia.
Qed.

Lemma slice_past {A} (l1 l2 : list A) (i j : Z) :
  len l1 <= i -> slice (l1 ++ l2) i j = slice l2 (i - len l1) (j - len l1).
Proof.
  intros H. unfold slice, len in *.
  rewrite drop_app.
  rewrite (drop_ge l1) by lia. simpl.
  replace (Z.to_nat i - length l1)%nat with (Z.to_nat (i - Z.of_nat (length l1))) by lia.
  do 2 f_equal. lia.
Qed.

Section DensoInfo.
Import Denso DensoSpec DensoFacts DensoObs.

(** X27. Denso [get_ecu_info]: when the device answers the information
    request with a data frame whose body, after the response code and
    two further bytes, is the 32-byte structure made of a 4-byte CPU
    identifier, the ROM and the RAM size as big-endian 32-bit numbers, a
    12-byte part number and an 8-byte software version, the returned
    dictionary gives these five fields back (the sizes as the numbers
    that were packed, the identifier in upper-case hexadecimal, the
    texts stripped), carries no hardware version, and exactly one
    request, command [0x1A] with no payload, has been sent. *)
Theorem Denso_info_structure_is_decoded
    (p : t) (h1 h2 : Z) (cpu part sw : bytes) (rom ram : Z) (rest : list (option Z)) :
  is_connected p = true -> ser_is_open (link p) = true ->
  len cpu = 4 -> len part = 12 -> len sw = 8 ->
  0 <= rom < 2 ^ 32 -> 0 <= ram < 2 ^ 32 ->
  exists info,
    get_ecu_info
      (with_rx (denso_reply (RESP_DATA :: h1 :: h2 ::
                             cpu ++ be_bytes 4 rom ++ be_bytes 4 ram ++ part ++ sw) ++ rest) p)
    = (Ok info, with_rx rest (with_tx [framed [CMD_ECU_INFO]] p))
    /\ info !! "cpu_id" = Some (VStr (bytes_hex true cpu))
    /\ info !! "rom_size" = Some (VInt rom)
    /\ info !! "ram_size" = Some (VInt ram)
    /\ info !! "part_number"
       = Some (VStr (string_of_chars (strip (decode_ascii_ignore part))))
    /\ info !! "software_version"
       = Some (VStr (string_of_chars (strip (decode_ascii_ignore sw))))
    /\ info !! "hardware_version" = None.
Proof.
  intros Hc Ho Hcpu Hpart Hsw Hrom Hram.
  set (structure := cpu ++ be_bytes 4 rom ++ be_bytes 4 ram ++ part ++ sw).
  assert (Hlen : len structure = 32).
  { unfold structure, len in *. rewrite !length_app. simpl. lia. }
  assert (S0 : slice structure 0 4 = cpu).
  { unfold structure. now apply slice_0_app. }
  assert (S1 : slice structure 4 8 = be_bytes 4 rom).
  { unfold structure. rewrite slice_past by lia. rewrite Hcpu.
    now apply slice_0_app. }
  assert (S2 : slice structure 8 12 = be_bytes 4 ram).
  { unfold structure. rewrite slice_past by lia. rewrite Hcpu.
    rewrite slice_past by (cbv; discriminate).
    now apply slice_0_app. }
  assert (S3 : slice structure 12 24 = part).
  { unfold structure. rewrite slice_past by lia. rewrite Hcpu.
    rewrite slice_past by (cbv; discriminate).
    rewrite slice_past by (cbv; discriminate).
    now apply slice_0_app. }
  assert (S4 : slice structure 24 32 = sw).
  { unfold structure. rewrite slice_past by lia. rewrite Hcpu.
    rewrite slice_past by (cbv; discriminate).
    rewrite slice_past by (cbv; discriminate).
    rewrite slice_past by (rewrite Hpart; cbv; discriminate). rewrite Hpart.
    rewrite <- (app_nil_r sw) at 1. now apply slice_0_app. }
  eexists. split.
  - pose proof (_build_frame_ok CMD_ECU_INFO [] ltac:(unfold CMD_ECU_INFO; lia)
                  ltac:(cbv; reflexivity)) as Hf.
    unfold get_ecu_info.
    replace (is_connected (with_rx _ p)) with true by (symmetry; exact Hc).
    cbn [negb]. cbv iota.
    unfold try_except, bind, lift_res. rewrite Hf.
    rewrite io_write_open by exact Ho.
    rewrite (_read_response_roundtrip _ (RESP_DATA :: h1 :: h2 :: structure) rest);
      [|exact Ho|reflexivity|unfold len; simpl; lia].
    unfold gets, parse_info.
    replace (slice_from (RESP_DATA :: h1 :: h2 :: structure) 3) with structure by reflexivity.
    replace (head_is (RESP_DATA :: h1 :: h2 :: structure) RESP_DATA) with true by reflexivity.
    replace (3 <? len (RESP_DATA :: h1 :: h2 :: structure)) with true
      by (symmetry; apply Z.ltb_lt; unfold len in *; simpl; lia).
    cbn [andb]. rewrite Hlen. cbv iota.
    replace (32 <=? 32) with true by reflexivity.
    replace (48 <=? 32) with false by reflexivity.
    rewrite S0, S1, S2, S3, S4, (unpack_pack_I rom Hrom), (unpack_pack_I ram Hram).
    cbv iota beta. reflexivity.
  - repeat split.
    all: repeat (rewrite lookup_insert_ne by discriminate); try (rewrite lookup_insert_eq; reflexivity).
Qed.

End DensoInfo.

(** A Denso device that reports an SH7055 with 512 KiB of ROM and 32 KiB
    of RAM. *)
Lemma Denso_info_witness :
  exists info,
    Denso.get_ecu_info
      (DensoSpec.with_rx
         (denso_reply (Denso.RESP_DATA :: 0 :: 32 ::
                       [0x70; 0x55; 0x00; 0x01] ++ be_bytes 4 0x80000 ++ be_bytes 4 0x8000
                       ++ [0x38; 0x39; 0x36; 0x36; 0x31; 0x2D; 0x30; 0x32; 0x42; 0x37; 0x30; 0x20]
                       ++ [0x56; 0x31; 0x2E; 0x30; 0x32; 0x20; 0x20; 0x20]) ++ [])
         (denso_session []))
    = (Ok info, DensoSpec.with_rx [] (DensoSpec.with_tx [DensoSpec.framed [Denso.CMD_ECU_INFO]]
                                        (denso_session [])))
    /\ info !! "cpu_id" = Some (VStr "70550001")
    /\ info !! "rom_size" = Some (VInt 0x80000)
    /\ info !! "ram_size" = Some (VInt 0x8000)
    /\ info !! "part_number" = Some (VStr "89661-02B70")
    /\ info !! "software_version" = Some (VStr "V1.02")
    /\ info !! "hardware_version" = None.
Proof.
  apply (Denso_info_structure_is_decoded (denso_session []) 0 32
           [0x70; 0x55; 0x00; 0x01]
           [0x38; 0x39; 0x36; 0x36; 0x31; 0x2D; 0x30; 0x32; 0x42; 0x37; 0x30; 0x20]
           [0x56; 0x31; 0x2E; 0x30; 0x32; 0x20; 0x20; 0x20] 0x80000 0x8000 []);
    first [reflexivity | lia].
Defined.

(** ** Strings in binary data *)

Lemma py_range_unit (start : Z) (n : nat) :
  py_range start (start + Z.of_nat n) 1 = map (fun k => start + 1 * Z.of_nat k) (seq 0 n).
Proof.
  unfold py_range. do 2 f_equal. rewrite Z.div_1_r. lia.
Qed.

Lemma unit_range_cons (start : Z) (n : nat) :
  map (fun k => start + 1 * Z.of_nat k) (seq 0 (S n))
  = start :: map (fun k => (start + 1) + 1 * Z.of_nat k) (seq 0 n).
Proof.
  cbn [seq map]. f_equal; [lia|].
  rewrite <- seq_shift, map_map. apply map_ext. intros k. lia.
Qed.

Lemma drop_nth_cons (l : bytes) (k : nat) :
  (k < length l)%nat -> drop k l = nth k l 0 :: drop (S k) l.
Proof.
  revert k. induction l as [|a l IH]; intros [|k] H; simpl in *; try lia; [reflexivity|].
  apply IH. lia.
Qed.

(** The search for the terminator over [n] bytes from [start]: either
    nothing is found, [end] stays and the bytes hold no zero, or the
    index of the first zero is returned. *)
Lemma find_terminator_scan (data : bytes) (n : nat) (start e : Z) :
  0 <= start -> (n <> 0%nat -> start + Z.of_nat n <= len data) ->
  exists end_,
    find_terminator data (map (fun k => start + 1 * Z.of_nat k) (seq 0 n)) e = Ok end_
    /\ ((end_ = e
         /\ until_nul (take n (drop (Z.to_nat start) data)) = take n (drop (Z.to_nat start) data))
        \/ (start <= end_ < start + Z.of_nat n
            /\ take (Z.to_nat (end_ - start)) (drop (Z.to_nat start) data)
               = until_nul (take n (drop (Z.to_nat start) data)))).
Proof.
  revert start. induction n as [|n IH]; intros start Hs Hn.
  - exists e. split; [reflexivity|]. left. split; reflexivity.
  - specialize (Hn ltac:(discriminate)).
    rewrite unit_range_cons. cbn [find_terminator].
    unfold py_item. replace (start <? 0) with false by (symmetry; apply Z.ltb_ge; lia).
    replace ((0 <=? start) && (start <? len data)) with true
      by (symmetry; apply andb_true_iff; split; [apply Z.leb_le|apply Z.ltb_lt]; lia).
    rewrite (drop_nth_cons data (Z.to_nat start)) by (unfold len in Hn; lia).
    cbn [take until_nul].
    destruct (nth (Z.to_nat start) data 0 =? 0) eqn:Hb.
    + exists start. split; [reflexivity|]. right. split; [lia|].
      now rewrite Z.sub_diag.
    + destruct (IH (start + 1) ltac:(lia) ltac:(lia)) as (end_ & Hf & Hcase).
      replace (Z.to_nat (start + 1)) with (S (Z.to_nat start)) in Hcase by lia.
      exists end_. split; [exact Hf|].
      destruct Hcase as [[-> Hu]|[Hr Ht]].
      * left. split; [reflexivity|]. now rewrite Hu.
      * right. split; [lia|].
        replace (Z.to_nat (end_ - start)) with (S (Z.to_nat (end_ - (start + 1)))) by lia.
        cbn [take]. now rewrite Ht.
Qed.

Lemma take_drop_all {A} (l : list A) (k n1 n2 : nat) :
  (length l <= k + n1)%nat -> (length l <= k + n2)%nat ->
  take n1 (drop k l) = take n2 (drop k l).
Proof.
  intros H1 H2. rewrite !take_ge by (rewrite length_drop; lia). reflexivity.
Qed.

(** [data[start:end]] when [start] and [end] are not negative *)
Lemma py_slice_nonneg {A} (l : list A) (i j : Z) :
  0 <= i -> 0 <= j ->
  py_slice l i j = take (Z.to_nat (Z.min j (len l) - i)) (drop (Z.to_nat i) l).
Proof.
  intros Hi Hj. unfold py_slice, clamp_index.
  replace (i <? 0) with false by (symmetry; apply Z.ltb_ge; lia).
  replace (j <? 0) with false by (symmetry; apply Z.ltb_ge; lia).
  destruct (Z_le_gt_dec i (len l)).
  - now rewrite (Z.min_l i) by lia.
  - rewrite (Z.min_r i) by lia. unfold len in *.
    rewrite !drop_ge by lia. now rewrite !take_nil.
Qed.

Lemma extract_ascii_string_run (data : bytes) (offset e : Z) :
  0 <= offset -> 0 <= e ->
  exists end_,
    find_terminator data (py_range offset (Z.min e (len data)) 1) e = Ok end_
    /\ py_slice data offset end_ = until_nul (slice data offset e).
Proof.
  intros Ho He.
  set (n := Z.to_nat (Z.min e (len data) - offset)).
  assert (Hr : py_range offset (Z.min e (len data)) 1
               = map (fun k => offset + 1 * Z.of_nat k) (seq 0 n)).
  { destruct (Z_le_gt_dec offset (Z.min e (len data))).
    - rewrite <- py_range_unit. f_equal. unfold n. lia.
    - unfold py_range, n. rewrite Z.div_1_r.
      now replace (Z.to_nat (Z.min e (len data) - offset + 1 - 1)) with
        (Z.to_nat (Z.min e (len data) - offset)) by lia. }
  rewrite Hr.
  destruct (find_terminator_scan data n offset e Ho ltac:(unfold n; lia))
    as (end_ & Hf & Hcase).
  assert (Hw : take n (drop (Z.to_nat offset) data) = slice data offset e).
  { unfold slice. destruct (Z_le_gt_dec e (len data)).
    - unfold n. now rewrite Z.min_l by lia.
    - apply take_drop_all; unfold n, len in *; lia. }
  exists end_. split; [exact Hf|]. rewrite <- Hw.
  destruct Hcase as [[-> Hu]|[Hr' Ht]].
  - rewrite Hu, py_slice_nonneg by lia. reflexivity.
  - rewrite <- Ht, py_slice_nonneg by lia. f_equal. unfold n in Hr'. lia.
Qed.

Lemma slice_to_len {A} (l : list A) (i : Z) : slice l i (len l) = slice_from l i.
Proof.
  unfold slice, slice_from. apply take_ge. rewrite length_drop. unfold len. lia.
Qed.

Section Strings.

(** X28. [extract_ascii_string] with an offset that is not negative and
    a length that is absent or not negative never raises: it returns
    the bytes from the offset up to the first zero byte, or up to the
    end of the data or of the requested length when there is none,
    decoded as ASCII with the other bytes dropped and stripped of
    surrounding white space.  A length of zero is read as no limit. *)
Theorem extract_ascii_string_stops_at_first_nul
    (data : bytes) (offset : Z) (max_length : option Z) :
  0 <= offset -> 0 <= default 0 max_length ->
  extract_ascii_string data offset max_length
  = Ok (string_of_chars (strip (decode_ascii_ignore
          (until_nul (ascii_window data offset max_length))))).
Proof.
  intros Ho Hm. unfold extract_ascii_string, ascii_window.
  assert (Hlen : 0 <= len data) by (unfold len; lia).
  destruct max_length as [m|].
  - simpl in Hm. destruct (m =? 0).
    + destruct (extract_ascii_string_run data offset (len data) Ho Hlen) as (e & -> & ->).
      now rewrite slice_to_len.
    + destruct (extract_ascii_string_run data offset (offset + m) Ho ltac:(lia))
        as (e & -> & ->).
      reflexivity.
  - destruct (extract_ascii_string_run data offset (len data) Ho Hlen) as (e & -> & ->).
    now rewrite slice_to_len.
Qed.

(** A part number followed by padding, read from the fourth byte. *)
Lemma extract_ascii_string_witness :
  0 <= 4 /\ 0 <= default 0 (Some 16)
  /\ extract_ascii_string
       [0xDE; 0xAD; 0xBE; 0xEF; 0x20; 0x4D; 0x45; 0x31; 0x37; 0xFF; 0x00; 0x41] 4 (Some 16)
     = Ok "ME17"%string.
Proof.
  split; [lia|]. split; [simpl; lia|].
  apply (extract_ascii_string_stops_at_first_nul
           [0xDE; 0xAD; 0xBE; 0xEF; 0x20; 0x4D; 0x45; 0x31; 0x37; 0xFF; 0x00; 0x41] 4 (Some 16));
    simpl; lia.
Defined.

End Strings.
